(** * Persistent subsection grades: block-record sets, their canonical JSON
      and content hash, and the create / update protocol

    Shallow embedding of [lms/djangoapps/grades/models.py].

    - [BlockRecordSet.to_json], [from_json] and [to_hash] are functions on
      the members of the set in iteration order, with [json.dumps],
      [json.loads], [sha256] and [b64encode] written out so that they run.
    - The methods of the two querysets and of [PersistentSubsectionGrade]
      are state-passing functions on the two tables, with Python's
      exceptions as results.  A journal in the state records the calls of
      [get_or_create] and of [log.error].
    - What Python leaves open is an interface: the iteration order of a
      [frozenset] ([Frozenset]) and the validators of the column types
      ([FieldValidators]). *)

From Stdlib Require Import ZArith String Ascii List Lia Bool PrimFloat.
From Stdlib Require Import DecimalString DecimalFacts DecimalPos DecimalN DecimalZ.
From stdpp Require Import base option list gmap strings sorting.

Local Open Scope Z_scope.

(* ===================================================================== *)
(** ** Bytes and text

    A Python 2 [str] is a byte string; Rocq's [string] is one too, an
    [ascii] being a byte.  Text read back from JSON is carried on the same
    type, a character standing for a code point below 256. *)

Definition ord (c : ascii) : Z := Z.of_N (N_of_ascii c).
Definition chr (n : Z) : ascii := ascii_of_N (Z.to_N n).

Definition bytes_of_str (s : string) : list Z := map ord (list_ascii_of_string s).

(* ===================================================================== *)
(** ** hashlib.sha256

    FIPS 180-4 on 32-bit words carried in [Z], additions wrapping at 2^32. *)

Definition w32 (x : Z) : Z := x mod 4294967296.
Definition add32 (x y : Z) : Z := w32 (x + y).
Definition rotr (n x : Z) : Z := Z.lor (Z.shiftr x n) (w32 (Z.shiftl x (32 - n))).
Definition not32 (x : Z) : Z := Z.lxor x 4294967295.

Definition Ch (x y z : Z) : Z := Z.lxor (Z.land x y) (Z.land (not32 x) z).
Definition Maj (x y z : Z) : Z :=
  Z.lxor (Z.lxor (Z.land x y) (Z.land x z)) (Z.land y z).
Definition Sigma0 (x : Z) : Z := Z.lxor (Z.lxor (rotr 2 x) (rotr 13 x)) (rotr 22 x).
Definition Sigma1 (x : Z) : Z := Z.lxor (Z.lxor (rotr 6 x) (rotr 11 x)) (rotr 25 x).
Definition sigma0 (x : Z) : Z := Z.lxor (Z.lxor (rotr 7 x) (rotr 18 x)) (Z.shiftr x 3).
Definition sigma1 (x : Z) : Z := Z.lxor (Z.lxor (rotr 17 x) (rotr 19 x)) (Z.shiftr x 10).

(** The constants are the first 32 bits of the fractional parts of the cube
    roots (round constants) and of the square roots (initial state) of the
    first primes. *)
Definition is_prime (n : Z) : bool :=
  (1 <? n) && forallb (fun d => negb (n mod Z.of_nat d =? 0)) (seq 2 (Z.to_nat n - 2)).

Definition first_primes (n : nat) : list Z :=
  firstn n (filter (fun p => is_prime p = true) (map Z.of_nat (seq 2 320))).

(** The largest [r] below [2^bits] with [r^3 <= n]. *)
Definition cube_root (bits : nat) (n : Z) : Z :=
  fold_left
    (fun r i => let r' := r + 2 ^ Z.of_nat i in if r' * r' * r' <=? n then r' else r)
    (rev (seq 0 bits)) 0.

Definition sha256_K : list Z :=
  Eval vm_compute in map (fun p => w32 (cube_root 36 (p * 2 ^ 96))) (first_primes 64).

Record sha_state := ShaState {
  sa : Z; sb : Z; sc : Z; sd : Z; se : Z; sf : Z; sg : Z; sh : Z }.

Definition sha256_H0 : sha_state :=
  Eval vm_compute in
    match map (fun p => w32 (Z.sqrt (p * 2 ^ 64))) (first_primes 8) with
    | [a; b; c; d; e; f; g; h] => ShaState a b c d e f g h
    | _ => ShaState 0 0 0 0 0 0 0 0
    end.

(** The message: the bytes, a 0x80 byte, zero bytes up to 56 modulo 64, and
    the bit length on eight bytes, big-endian. *)
Definition be_bytes (n : nat) (x : Z) : list Z :=
  map (fun i => Z.land (Z.shiftr x (8 * Z.of_nat i)) 255) (rev (seq 0 n)).

Definition sha256_pad (msg : list Z) : list Z :=
  let len := Z.of_nat (length msg) in
  let zeros := Z.to_nat ((55 - len) mod 64) in
  msg ++ 128 :: repeat 0 zeros ++ be_bytes 8 (8 * len).

Fixpoint be_words (n : nat) (bs : list Z) : list Z :=
  match n, bs with
  | S n', b0 :: b1 :: b2 :: b3 :: rest =>
      (b0 * 16777216 + b1 * 65536 + b2 * 256 + b3) :: be_words n' rest
  | _, _ => []
  end.

(** The schedule is kept newest word first: its head is W[t-1]. *)
Definition schedule_step (ws : list Z) : list Z :=
  let at_ i := nth i ws 0 in
  add32 (add32 (sigma1 (at_ 1%nat)) (at_ 6%nat))
        (add32 (sigma0 (at_ 14%nat)) (at_ 15%nat)) :: ws.

Definition sha256_schedule (block : list Z) : list Z :=
  rev (Nat.iter 48 schedule_step (rev (be_words 16 block))).

Definition sha256_round (s : sha_state) (kw : Z * Z) : sha_state :=
  let t1 := add32 (add32 (add32 (sh s) (Sigma1 (se s)))
                         (add32 (Ch (se s) (sf s) (sg s)) (fst kw))) (snd kw) in
  let t2 := add32 (Sigma0 (sa s)) (Maj (sa s) (sb s) (sc s)) in
  ShaState (add32 t1 t2) (sa s) (sb s) (sc s) (add32 (sd s) t1) (se s) (sf s) (sg s).

Definition sha256_compress (s : sha_state) (block : list Z) : sha_state :=
  let r := fold_left sha256_round (combine sha256_K (sha256_schedule block)) s in
  ShaState (add32 (sa s) (sa r)) (add32 (sb s) (sb r)) (add32 (sc s) (sc r))
           (add32 (sd s) (sd r)) (add32 (se s) (se r)) (add32 (sf s) (sf r))
           (add32 (sg s) (sg r)) (add32 (sh s) (sh r)).

Fixpoint sha256_blocks (n : nat) (s : sha_state) (bs : list Z) : sha_state :=
  match n with
  | O => s
  | S n' => sha256_blocks n' (sha256_compress s (firstn 64 bs)) (skipn 64 bs)
  end.

(** [sha256(data).digest()]: thirty-two raw bytes. *)
Definition sha256_digest (msg : list Z) : list Z :=
  let padded := sha256_pad msg in
  let s := sha256_blocks (Nat.div (length padded) 64) sha256_H0 padded in
  flat_map (be_bytes 4) [sa s; sb s; sc s; sd s; se s; sf s; sg s; sh s].

Definition hex_digit (n : Z) : ascii :=
  chr (if n <? 10 then 48 + n else 87 + n).
Definition hexdigest (bs : list Z) : string :=
  string_of_list_ascii (flat_map (fun b => [hex_digit (b / 16); hex_digit (b mod 16)]) bs).


(* ===================================================================== *)
(** ** base64.b64encode

    [binascii.b2a_base64] without its trailing newline: three bytes give
    four characters of the standard alphabet, a last group of one or two
    bytes is padded with [=]. *)

Definition b64_alphabet : list ascii :=
  list_ascii_of_string
    "ABCDEFGHIJKLMNOPQRSTUVWXYZabcdefghijklmnopqrstuvwxyz0123456789+/".

Definition b64_pad : ascii := "="%char.

Definition b64_char (n : Z) : ascii := nth (Z.to_nat n) b64_alphabet b64_pad.

Fixpoint b64encode (bs : list Z) : list ascii :=
  match bs with
  | [] => []
  | [a] => [b64_char (a / 4); b64_char (a mod 4 * 16); b64_pad; b64_pad]
  | [a; b] =>
      [b64_char (a / 4); b64_char (a mod 4 * 16 + b / 16);
       b64_char (b mod 16 * 4); b64_pad]
  | a :: b :: c :: rest =>
      b64_char (a / 4) :: b64_char (a mod 4 * 16 + b / 16)
      :: b64_char (b mod 16 * 4 + c / 64) :: b64_char (c mod 64)
      :: b64encode rest
  end.

(** The decoder of the same alphabet, written independently of the encoder:
    it is what "the base64 encoding of" is measured against. *)
Fixpoint index_of (c : ascii) (l : list ascii) : option Z :=
  match l with
  | [] => None
  | x :: l' => if Ascii.eqb c x then Some 0 else Z.succ <$> index_of c l'
  end.

Definition b64_value (c : ascii) : option Z := index_of c b64_alphabet.

Fixpoint b64decode (cs : list ascii) : option (list Z) :=
  match cs with
  | [] => Some []
  | c0 :: c1 :: c2 :: c3 :: rest =>
      v0 ← b64_value c0;
      v1 ← b64_value c1;
      if Ascii.eqb c3 b64_pad then
        match rest with
        | [] =>
            if Ascii.eqb c2 b64_pad then
              if v1 mod 16 =? 0 then Some [v0 * 4 + v1 / 16] else None
            else
              v2 ← b64_value c2;
              if v2 mod 4 =? 0
              then Some [v0 * 4 + v1 / 16; v1 mod 16 * 16 + v2 / 4]
              else None
        | _ => None
        end
      else
        v2 ← b64_value c2;
        v3 ← b64_value c3;
        tail ← b64decode rest;
        Some (v0 * 4 + v1 / 16 :: v1 mod 16 * 16 + v2 / 4 :: v2 mod 4 * 64 + v3 :: tail)
  | _ => None
  end.

(* ===================================================================== *)
(** ** Exceptions and results *)

Inductive exception :=
| TypeError                 (* a call on an object of the wrong kind *)
| AttributeError            (* an attribute the object does not have *)
| ValueError                (* [json.loads] on text that is not JSON *)
| DoesNotExist              (* [objects.get] found no row *)
| MultipleObjectsReturned   (* [objects.get] found several rows *)
| IntegrityError            (* the database refused a write *)
| ValidationError           (* [full_clean] refused the instance *)
| NotRepresentable.         (* the value leaves the typed fragment carried
                               here: a float, a code point above 255, a
                               field of another type; the source goes on
                               with an untyped value *)

Inductive result (A : Type) :=
| Ok (a : A)
| Raise (e : exception).
Arguments Ok {A} a.
Arguments Raise {A} e.

Global Instance exception_eq_dec : EqDecision exception.
Proof. solve_decision. Defined.

Global Instance result_ret : MRet result := @Ok.
Global Instance result_bind : MBind result :=
  fun A B f m => match m with Ok a => f a | Raise e => Raise e end.

Fixpoint mapM_result {A B} (f : A -> result B) (l : list A) : result (list B) :=
  match l with
  | [] => Ok []
  | x :: l' => y ← f x; ys ← mapM_result f l'; Ok (y :: ys)
  end.

(* ===================================================================== *)
(** ** sorted(iterable, key=...)

    Python's sort is stable; the result of a stable sort is determined by
    the input sequence and the order on keys, and insertion from the right
    computes it. *)

Section Sorted.
Context {A K : Type} (key : A -> K) (le : K -> K -> bool).

Fixpoint insert_by (x : A) (l : list A) : list A :=
  match l with
  | [] => [x]
  | y :: l' => if le (key x) (key y) then x :: l else y :: insert_by x l'
  end.

Definition sorted (l : list A) : list A := fold_right insert_by [] l.

(** The order the sort goes by. *)
Definition key_le (a b : A) : Prop := le (key a) (key b) = true.
End Sorted.

(* ===================================================================== *)
(** ** json.dumps(obj, separators=(',', ':'), sort_keys=True) *)

#[warnings="-register-all"]
Inductive json :=
| JNull
| JBool (b : bool)
| JInt (n : Z)
| JFloat (text : list ascii)
| JStr (s : string)
| JArr (items : list json)
| JObj (items : list (string * json)).

Definition dquote : ascii := "034"%char.
Definition backslash : ascii := "\"%char.
Definition chars (s : string) : list ascii := list_ascii_of_string s.

Definition hex4 (n : Z) : list ascii :=
  [hex_digit (n / 4096 mod 16); hex_digit (n / 256 mod 16);
   hex_digit (n / 16 mod 16); hex_digit (n mod 16)].

(** [encode_basestring_ascii]: the two-character escapes, printable ASCII
    as it is, everything else as a [\uXXXX] escape. *)
Definition escape_char (c : ascii) : list ascii :=
  let n := ord c in
  if n =? 34 then [backslash; dquote]
  else if n =? 92 then [backslash; backslash]
  else if n =? 10 then [backslash; "n"%char]
  else if n =? 13 then [backslash; "r"%char]
  else if n =? 9 then [backslash; "t"%char]
  else if n =? 8 then [backslash; "b"%char]
  else if n =? 12 then [backslash; "f"%char]
  else if (32 <=? n) && (n <=? 126) then [c]
  else backslash :: "u"%char :: hex4 n.

Definition encode_basestring_ascii (s : string) : list ascii :=
  dquote :: flat_map escape_char (chars s) ++ [dquote].

(** [str(n)] for a Python integer. *)
Definition encode_int (n : Z) : list ascii :=
  chars (NilZero.string_of_int (Z.to_int n)).

Fixpoint join (sep : list ascii) (parts : list (list ascii)) : list ascii :=
  match parts with
  | [] => []
  | [p] => p
  | p :: ps => p ++ sep ++ join sep ps
  end.

Definition encode_item (kv : string * list ascii) : list ascii :=
  encode_basestring_ascii (fst kv) ++ chars ":" ++ snd kv.

Fixpoint dumps_chars (v : json) : list ascii :=
  match v with
  | JNull => chars "null"
  | JBool true => chars "true"
  | JBool false => chars "false"
  | JInt n => encode_int n
  | JFloat text => text
  | JStr s => encode_basestring_ascii s
  | JArr items => chars "[" ++ join (chars ",") (map dumps_chars items) ++ chars "]"
  | JObj items =>
      chars "{"
      ++ join (chars ",")
           (map encode_item
              (sorted fst String.leb
                 (map (fun kv => (fst kv, dumps_chars (snd kv))) items)))
      ++ chars "}"
  end.

Definition dumps (v : json) : string := string_of_list_ascii (dumps_chars v).

(* ===================================================================== *)
(** ** json.loads

    The decoder of the [json] module, on a text of code points: white space
    between tokens, strings in strict mode, the literals, integers, arrays
    and objects.  An object keeps its members in document order; a Python
    [dict] keeps the last value of a repeated key, which [dict_get] models.
    The recursion of the decoder follows the nesting of the document and is
    bounded here by [fuel]; [loads] supplies one unit per character. *)

Definition is_ws (c : ascii) : bool :=
  let n := ord c in (n =? 32) || (n =? 9) || (n =? 10) || (n =? 13).

Fixpoint skip_ws (cs : list ascii) : list ascii :=
  match cs with
  | c :: cs' => if is_ws c then skip_ws cs' else cs
  | [] => []
  end.

Definition is_digit (c : ascii) : bool := (48 <=? ord c) && (ord c <=? 57).

Fixpoint span_digits (cs : list ascii) : list ascii * list ascii :=
  match cs with
  | c :: cs' =>
      if is_digit c
      then let '(ds, rest) := span_digits cs' in (c :: ds, rest)
      else ([], cs)
  | [] => ([], [])
  end.

(** [int(text)] on a run of decimal digits. *)
Definition int_of_digits (ds : list ascii) : Z :=
  fold_left (fun acc c => 10 * acc + (ord c - 48)) ds 0.

Definition hex_value (c : ascii) : option Z :=
  let n := ord c in
  if (48 <=? n) && (n <=? 57) then Some (n - 48)
  else if (97 <=? n) && (n <=? 102) then Some (n - 87)
  else if (65 <=? n) && (n <=? 70) then Some (n - 55)
  else None.

Definition unescape (c : ascii) : option ascii :=
  let n := ord c in
  if n =? 34 then Some dquote
  else if n =? 92 then Some backslash
  else if n =? 47 then Some "/"%char
  else if n =? 98 then Some (chr 8)
  else if n =? 102 then Some (chr 12)
  else if n =? 110 then Some (chr 10)
  else if n =? 114 then Some (chr 13)
  else if n =? 116 then Some (chr 9)
  else None.

(** [py_scanstring], entered after the opening quote. *)
Fixpoint scanstring (cs : list ascii) : result (string * list ascii) :=
  match cs with
  | [] => Raise ValueError
  | c :: rest =>
      if Ascii.eqb c dquote then Ok (EmptyString, rest)
      else if Ascii.eqb c backslash then
        match rest with
        | [] => Raise ValueError
        | e :: rest1 =>
            if Ascii.eqb e "u"%char then
              match rest1 with
              | h1 :: h2 :: h3 :: h4 :: rest2 =>
                  match hex_value h1, hex_value h2, hex_value h3, hex_value h4 with
                  | Some x1, Some x2, Some x3, Some x4 =>
                      let code := x1 * 4096 + x2 * 256 + x3 * 16 + x4 in
                      if code <? 256 then
                        '(s, r) ← scanstring rest2; Ok (String (chr code) s, r)
                      else Raise NotRepresentable
                  | _, _, _, _ => Raise ValueError
                  end
              | _ => Raise ValueError
              end
            else
              match unescape e with
              | Some ch => '(s, r) ← scanstring rest1; Ok (String ch s, r)
              | None => Raise ValueError
              end
        end
      else if ord c <? 32 then Raise ValueError
      else '(s, r) ← scanstring rest; Ok (String c s, r)
  end.

Fixpoint strip_prefix (p cs : list ascii) : option (list ascii) :=
  match p, cs with
  | [], _ => Some cs
  | a :: p', c :: cs' => if Ascii.eqb a c then strip_prefix p' cs' else None
  | _ :: _, [] => None
  end.

(** [NUMBER_RE]: an optional sign, [0] or a run of digits that does not
    start with [0], an optional fraction, an optional exponent.  Without
    fraction and exponent the token is an integer. *)
Definition scan_number (cs : list ascii) : result (json * list ascii) :=
  let '(sign, cs1) :=
    match cs with
    | c :: r => if Ascii.eqb c "-"%char then ([c], r) else ([], cs)
    | [] => ([], cs)
    end in
  match cs1 with
  | [] => Raise ValueError
  | c :: r =>
      if negb (is_digit c) then Raise ValueError
      else
        let '(ipart, cs2) :=
          if Ascii.eqb c "0"%char then ([c], r) else span_digits cs1 in
        let '(frac, cs3) :=
          match cs2 with
          | d :: r2 =>
              if Ascii.eqb d "."%char then
                match span_digits r2 with
                | ([], _) => ([], cs2)
                | (ds, rest) => (d :: ds, rest)
                end
              else ([], cs2)
          | [] => ([], cs2)
          end in
        let '(expo, cs4) :=
          match cs3 with
          | e :: r3 =>
              if Ascii.eqb e "e"%char || Ascii.eqb e "E"%char then
                let '(sg, r4) :=
                  match r3 with
                  | g :: r' =>
                      if Ascii.eqb g "+"%char || Ascii.eqb g "-"%char
                      then ([g], r') else ([], r3)
                  | [] => ([], r3)
                  end in
                match span_digits r4 with
                | ([], _) => ([], cs3)
                | (ds, rest) => (e :: sg ++ ds, rest)
                end
              else ([], cs3)
          | [] => ([], cs3)
          end in
        match frac, expo with
        | [], [] =>
            let n := int_of_digits ipart in
            Ok (JInt (match sign with [] => n | _ => - n end), cs4)
        | _, _ => Ok (JFloat (sign ++ ipart ++ frac ++ expo), cs4)
        end
  end.

Definition scan_literal (cs : list ascii) : result (json * list ascii) :=
  match strip_prefix (chars "null") cs with
  | Some r => Ok (JNull, r)
  | None =>
  match strip_prefix (chars "true") cs with
  | Some r => Ok (JBool true, r)
  | None =>
  match strip_prefix (chars "false") cs with
  | Some r => Ok (JBool false, r)
  | None =>
  match strip_prefix (chars "NaN") cs with
  | Some r => Ok (JFloat (chars "NaN"), r)
  | None =>
  match strip_prefix (chars "Infinity") cs with
  | Some r => Ok (JFloat (chars "Infinity"), r)
  | None =>
  match strip_prefix (chars "-Infinity") cs with
  | Some r => Ok (JFloat (chars "-Infinity"), r)
  | None => scan_number cs
  end end end end end end.

Fixpoint scan_once (fuel : nat) (cs : list ascii) : result (json * list ascii) :=
  match fuel with
  | O => Raise ValueError
  | S fuel' =>
      match cs with
      | [] => Raise ValueError
      | c :: rest =>
          if Ascii.eqb c dquote then
            '(s, r) ← scanstring rest; Ok (JStr s, r)
          else if Ascii.eqb c "{"%char then
            match skip_ws rest with
            | c' :: r' =>
                if Ascii.eqb c' "}"%char then Ok (JObj [], r')
                else '(kvs, r) ← JSONObject fuel' (c' :: r'); Ok (JObj kvs, r)
            | [] => Raise ValueError
            end
          else if Ascii.eqb c "["%char then
            match skip_ws rest with
            | c' :: r' =>
                if Ascii.eqb c' "]"%char then Ok (JArr [], r')
                else '(vs, r) ← JSONArray fuel' (c' :: r'); Ok (JArr vs, r)
            | [] => Raise ValueError
            end
          else scan_literal cs
      end
  end
with JSONArray (fuel : nat) (cs : list ascii) : result (list json * list ascii) :=
  match fuel with
  | O => Raise ValueError
  | S fuel' =>
      '(v, r) ← scan_once fuel' cs;
      match skip_ws r with
      | c :: r' =>
          if Ascii.eqb c ","%char then
            '(vs, r'') ← JSONArray fuel' (skip_ws r'); Ok (v :: vs, r'')
          else if Ascii.eqb c "]"%char then Ok ([v], r')
          else Raise ValueError
      | [] => Raise ValueError
      end
  end
with JSONObject (fuel : nat) (cs : list ascii)
    : result (list (string * json) * list ascii) :=
  match fuel with
  | O => Raise ValueError
  | S fuel' =>
      match cs with
      | q :: r0 =>
          if negb (Ascii.eqb q dquote) then Raise ValueError
          else
            '(k, r1) ← scanstring r0;
            match skip_ws r1 with
            | c :: r2 =>
                if negb (Ascii.eqb c ":"%char) then Raise ValueError
                else
                  '(v, r3) ← scan_once fuel' (skip_ws r2);
                  match skip_ws r3 with
                  | d :: r4 =>
                      if Ascii.eqb d ","%char then
                        '(kvs, r5) ← JSONObject fuel' (skip_ws r4);
                        Ok ((k, v) :: kvs, r5)
                      else if Ascii.eqb d "}"%char then Ok ([(k, v)], r4)
                      else Raise ValueError
                  | [] => Raise ValueError
                  end
            | [] => Raise ValueError
            end
      | [] => Raise ValueError
      end
  end.

Definition loads (s : string) : result json :=
  let cs := skip_ws (chars s) in
  '(v, rest) ← scan_once (S (length cs)) cs;
  match skip_ws rest with
  | [] => Ok v
  | _ :: _ => Raise ValueError
  end.

(** [d[k]] on the members of a decoded object: the last value wins. *)
Fixpoint dict_get (k : string) (items : list (string * json)) : option json :=
  match items with
  | [] => None
  | (k', v) :: items' =>
      match dict_get k items' with
      | Some v' => Some v'
      | None => if String.eqb k k' then Some v else None
      end
  end.

(** The keys of a [dict], each once. *)
Definition dict_keys (items : list (string * json)) : list string :=
  remove_dups (map fst items).

(** [iter(obj)] on a decoded value: the items of a list, the keys of a
    dict, the characters of a string; nothing else is iterable. *)
Definition iter_json (v : json) : result (list json) :=
  match v with
  | JArr items => Ok items
  | JObj items => Ok (map JStr (dict_keys items))
  | JStr s => Ok (map (fun c => JStr (String c EmptyString)) (chars s))
  | _ => Raise TypeError
  end.

(* ===================================================================== *)
(** ** BlockRecord and BlockRecordSet

    [BlockRecord = namedtuple('BlockRecord', ['locator', 'weight',
    'max_score'])].  The locator is text; weight and max_score are carried
    as Python integers (floating-point values and their printed form are
    outside this embedding). *)

Record BlockRecord := mkBlockRecord {
  locator : string;
  weight : Z;
  max_score : Z }.

Global Instance BlockRecord_eq_dec : EqDecision BlockRecord.
Proof. solve_decision. Defined.

(** What an iterable handed to [BlockRecordSet(...)] may yield: the
    constructor is [frozenset]'s and looks at nothing but the hash of each
    element.  A plain tuple of integers stands for a hashable object that
    is not a [BlockRecord]; a dict stands for an unhashable one. *)
Inductive PyObject :=
| PyBlockRecord (r : BlockRecord)
| PyTuple (items : list Z)
| PyDict (items : list (string * Z)).

Global Instance PyObject_eq_dec : EqDecision PyObject.
Proof. solve_decision. Defined.

Definition hashable (o : PyObject) : bool :=
  match o with
  | PyDict _ => false
  | _ => true
  end.

(** The order in which a [frozenset] built from a sequence is iterated is
    fixed by the hash table: by the hashes of the elements and, among
    elements that meet in the table, by the order of insertion.  It is a
    function of the sequence inserted, of which the language promises only
    that every element comes once. *)
Class Frozenset := {
  iteration_order : list PyObject -> list PyObject;
  iteration_order_NoDup : forall xs, NoDup (iteration_order xs);
  iteration_order_elem : forall xs x, x ∈ iteration_order xs <-> x ∈ xs }.

(** Two tables that meet the promise: elements at the place of their last
    insertion attempt, and the same read backwards. *)
#[refine] Instance frozenset_forward : Frozenset :=
  {| iteration_order := remove_dups |}.
Proof.
  - intros xs. apply NoDup_remove_dups.
  - intros xs x. apply elem_of_remove_dups.
Defined.

#[refine] Instance frozenset_backward : Frozenset :=
  {| iteration_order := fun xs => rev (remove_dups xs) |}.
Proof.
  - intros xs. apply NoDup_ListNoDup, NoDup_rev, NoDup_ListNoDup, NoDup_remove_dups.
  - intros xs x. rewrite list_elem_of_In, <- in_rev, <- list_elem_of_In.
    apply elem_of_remove_dups.
Defined.

(** A [BlockRecordSet] is a [frozenset]; [members] lists it in iteration
    order.  The attributes [_json] and [_hash] memoise [to_json] and
    [to_hash]; the members never change, so a memoised value is the value
    the method computes, and each call computes it here. *)
Record BlockRecordSet := mkBlockRecordSet { members : list PyObject }.

(** [S1 == S2] on frozensets. *)
Definition set_eq (S1 S2 : BlockRecordSet) : Prop :=
  forall o, o ∈ members S1 <-> o ∈ members S2.

Definition set_eqb (S1 S2 : BlockRecordSet) : bool :=
  forallb (fun o => bool_decide (o ∈ members S2)) (members S1)
  && forallb (fun o => bool_decide (o ∈ members S1)) (members S2).

(** [block._asdict()]: the fields in the order of their declaration. *)
Definition _asdict (r : BlockRecord) : json :=
  JObj [("locator"%string, JStr (locator r));
        ("weight"%string, JInt (weight r));
        ("max_score"%string, JInt (max_score r))].

(** [attrgetter('locator')] needs a [BlockRecord]. *)
Definition as_record (o : PyObject) : result BlockRecord :=
  match o with
  | PyBlockRecord r => Ok r
  | _ => Raise AttributeError
  end.

Section BlockRecordSet.
Context `{Frozenset}.

(** [BlockRecordSet(iterable)]. *)
Definition BlockRecordSet_new (iterable : list PyObject) : result BlockRecordSet :=
  if forallb hashable iterable
  then Ok (mkBlockRecordSet (iteration_order iterable))
  else Raise TypeError.

(** [to_json]: the sort computes the key of every member before it
    compares any, and fails on the first member without a locator. *)
Definition to_json (self : BlockRecordSet) : result string :=
  blocks ← mapM_result as_record (members self);
  let sorted_blocks := sorted locator String.leb blocks in
  Ok (dumps (JArr (map _asdict sorted_blocks))).

(** [BlockRecord] called on the members of [block] as keyword
    arguments: they must be the three field names, each once. *)
Definition BlockRecord_of_dict (block : json) : result BlockRecord :=
  match block with
  | JObj items =>
      if bool_decide (dict_keys items ≡ₚ ["locator"; "weight"; "max_score"]%string)
      then
        match dict_get "locator" items, dict_get "weight" items,
              dict_get "max_score" items with
        | Some (JStr l), Some (JInt w), Some (JInt m) => Ok (mkBlockRecord l w m)
        | Some _, Some _, Some _ => Raise NotRepresentable
        | _, _, _ => Raise TypeError
        end
      else Raise TypeError
  | _ => Raise TypeError
  end.

Definition from_json (blockrecord_json : string) : result BlockRecordSet :=
  block_dicts ← loads blockrecord_json;
  blocks ← iter_json block_dicts;
  records ← mapM_result BlockRecord_of_dict blocks;
  BlockRecordSet_new (map PyBlockRecord records).

(** [to_hash]: [b64encode(sha256(self.to_json()).digest())]. *)
Definition to_hash (self : BlockRecordSet) : result string :=
  j ← to_json self;
  Ok (string_of_list_ascii (b64encode (sha256_digest (bytes_of_str j)))).
End BlockRecordSet.

(* ===================================================================== *)
(** ** The two tables, as one transaction sees them

    [VisibleBlocks] has a unique column [hashed]; the table is the map from
    [hashed] to [blocks_json].  [PersistentSubsectionGrade] is unique on
    [(user_id, course_id, usage_key)].

    The code is written against repeatable-read isolation (the comment in
    [update]): a row committed by another transaction after this one began
    is not returned by its reads, and still makes an insert of the same
    unique key fail.  Such rows are the [_unseen] components.  The columns
    [created] and [modified] of [TimeStampedModel] need a clock and are
    left out. *)

Record UsageKey := mkUsageKey {
  course_key : string;     (* [usage_key.course_key] *)
  usage_id : string }.     (* the rest of the identifier *)

Global Instance UsageKey_eq_dec : EqDecision UsageKey.
Proof. solve_decision. Defined.

Record VisibleBlocks := mkVisibleBlocks {
  blocks_json : string;
  hashed : string }.

Record PersistentSubsectionGrade := mkGrade {
  pk : option Z;                 (* [id]; [None] before the first save *)
  user_id : Z;
  course_id : string;
  usage_key : UsageKey;
  subtree_edited_date : Z;
  course_version : string;
  earned_all : float;
  possible_all : float;
  earned_graded : float;
  possible_graded : float;
  visible_blocks_id : string }.  (* column [visible_blocks_hash] *)

Inductive event :=
| GetOrCreate (hashed blocks_json : string)  (* [VisibleBlocks.objects.get_or_create] *)
| LogError (msg : string).                   (* [log.error] *)

Record DB := mkDB {
  visibleblocks : gmap string string;
  visibleblocks_unseen : gset string;
  grades : list PersistentSubsectionGrade;
  grades_unseen : list (Z * string * UsageKey);
  next_pk : Z;
  journal : list event }.

Definition set_visibleblocks (m : gmap string string) (db : DB) : DB :=
  mkDB m (visibleblocks_unseen db) (grades db) (grades_unseen db) (next_pk db) (journal db).
Definition set_grades (gs : list PersistentSubsectionGrade) (n : Z) (db : DB) : DB :=
  mkDB (visibleblocks db) (visibleblocks_unseen db) gs (grades_unseen db) n (journal db).
Definition record_event (e : event) (db : DB) : DB :=
  mkDB (visibleblocks db) (visibleblocks_unseen db) (grades db) (grades_unseen db)
       (next_pk db) (journal db ++ [e]).

(** Code that reads and writes the tables and may raise. *)
Definition M (A : Type) : Type := DB -> result A * DB.

Definition ret {A} (a : A) : M A := fun db => (Ok a, db).
Definition raise {A} (e : exception) : M A := fun db => (Raise e, db).
Definition lift {A} (r : result A) : M A := fun db => (r, db).
Definition bind {A B} (m : M A) (k : A -> M B) : M B :=
  fun db =>
    match m db with
    | (Ok a, db') => k a db'
    | (Raise e, db') => (Raise e, db')
    end.

Declare Scope M_scope.
Delimit Scope M_scope with M.
Notation "x <- m ;; k" := (bind m (fun x => k))
  (at level 100, m at next level, right associativity) : M_scope.
Notation "m ;;; k" := (bind m (fun _ => k))
  (at level 100, right associativity) : M_scope.

(** [try: body  except exc: handler]. *)
Definition try_except {A} (body : M A) (exc : exception) (handler : M A) : M A :=
  fun db =>
    match body db with
    | (Raise e, db') =>
        if decide (e = exc) then handler db' else (Raise e, db')
    | ok => ok
    end.

Definition log_error (msg : string) : M unit :=
  fun db => (Ok tt, record_event (LogError msg) db).

(** [QuerySet.get_or_create(hashed=h, defaults={'blocks_json': j})]: the
    row with that [hashed] if the transaction sees one; otherwise an
    insert, which the unique index refuses when another transaction has
    committed the key; the second lookup that follows a refused insert
    sees nothing more than the first, and the [IntegrityError] is raised. *)
Definition get_or_create (h j : string) : M (VisibleBlocks * bool) :=
  fun db =>
    let db := record_event (GetOrCreate h j) db in
    match visibleblocks db !! h with
    | Some j' => (Ok (mkVisibleBlocks j' h, false), db)
    | None =>
        if decide (h ∈ visibleblocks_unseen db)
        then (Raise IntegrityError, db)
        else (Ok (mkVisibleBlocks j h, true),
              set_visibleblocks (<[h := j]> (visibleblocks db)) db)
    end.

Definition same_key (u : Z) (c : string) (k : UsageKey)
    (g : PersistentSubsectionGrade) : bool :=
  bool_decide (user_id g = u) && bool_decide (course_id g = c)
  && bool_decide (usage_key g = k).

(** [objects.get(user_id=..., usage_key=...)]. *)
Definition objects_get (u : Z) (k : UsageKey) : M PersistentSubsectionGrade :=
  fun db =>
    match filter (fun g => user_id g = u /\ usage_key g = k) (grades db) with
    | [] => (Raise DoesNotExist, db)
    | [g] => (Ok g, db)
    | _ => (Raise MultipleObjectsReturned, db)
    end.

(** The validators of the column types, which look at the instance alone
    ([blank=False], [max_length=255], and those of the key fields, declared
    outside this file). *)
Class FieldValidators := {
  clean_fields : PersistentSubsectionGrade -> bool }.

Definition nonblank_255 (s : string) : bool :=
  negb (String.eqb s EmptyString) && (String.length s <=? 255)%nat.

Instance declared_validators : FieldValidators :=
  {| clean_fields := fun g =>
       nonblank_255 (course_version g) && nonblank_255 (course_id g)
       && nonblank_255 (usage_id (usage_key g)) |}.

Definition other_row (g g' : PersistentSubsectionGrade) : bool :=
  match pk g with
  | None => true
  | Some i => negb (bool_decide (pk g' = Some i))
  end.

Definition key_taken (g : PersistentSubsectionGrade) (db : DB) : bool :=
  existsb (fun g' => same_key (user_id g) (course_id g) (usage_key g) g'
                     && other_row g g') (grades db).

Section Models.
Context `{Frozenset} `{FieldValidators}.

(** [Model.full_clean()]: the field validators, the foreign-key
    validator (a query for the referenced row), and the uniqueness
    validator (a query for another row of the same key). *)
Definition full_clean (g : PersistentSubsectionGrade) : M unit :=
  fun db =>
    if clean_fields g
       && bool_decide (is_Some (visibleblocks db !! visible_blocks_id g))
       && negb (key_taken g db)
    then (Ok tt, db)
    else (Raise ValidationError, db).

(** [Model.save()]: an INSERT when the instance has no primary key, an
    UPDATE of its row otherwise; the database checks the unique key and
    the foreign key against every committed row. *)
Definition save (g : PersistentSubsectionGrade) : M PersistentSubsectionGrade :=
  fun db =>
    if negb (bool_decide (is_Some (visibleblocks db !! visible_blocks_id g))
             || bool_decide (visible_blocks_id g ∈ visibleblocks_unseen db))
       || key_taken g db
       || bool_decide ((user_id g, course_id g, usage_key g) ∈ grades_unseen db)
          && bool_decide (pk g = None)
    then (Raise IntegrityError, db)
    else
      match pk g with
      | None =>
          let g' := mkGrade (Some (next_pk db)) (user_id g) (course_id g)
                      (usage_key g) (subtree_edited_date g) (course_version g)
                      (earned_all g) (possible_all g) (earned_graded g)
                      (possible_graded g) (visible_blocks_id g) in
          (Ok g', set_grades (grades db ++ [g']) (next_pk db + 1) db)
      | Some i =>
          (Ok g,
           set_grades
             (map (fun g' => if bool_decide (pk g' = Some i) then g else g')
                  (grades db))
             (next_pk db) db)
      end.

Inductive blocks_arg :=
| Iterable (xs : list PyObject)
| ASet (s : BlockRecordSet).

(** [if not isinstance(blocks, BlockRecordSet): blocks = BlockRecordSet(blocks)] *)
Definition as_BlockRecordSet (blocks : blocks_arg) : result BlockRecordSet :=
  match blocks with
  | ASet s => Ok s
  | Iterable xs => BlockRecordSet_new xs
  end.

(** [VisibleBlocksQuerySet.create_from_blockrecords] *)
Definition create_from_blockrecords (blocks : blocks_arg) : M VisibleBlocks :=
  (blocks <- lift (as_BlockRecordSet blocks) ;;
   h <- lift (to_hash blocks) ;;
   j <- lift (to_json blocks) ;;
   r <- get_or_create h j ;;
   ret (fst r))%M.

(** The [try / except IntegrityError / else] that [create] and [update]
    both open with: the hash of the row that holds the blocks, or, when
    the insert of that row is refused, the hash of the blocks at hand. *)
Definition visible_blocks_hash_of (visible_blocks : BlockRecordSet) : M string :=
  try_except
    (visible_blocks_model <- create_from_blockrecords (ASet visible_blocks) ;;
     ret (hashed visible_blocks_model))%M
    IntegrityError
    (lift (to_hash visible_blocks)).

Record kwargs := mkKwargs {
  kw_user_id : Z;
  kw_usage_key : UsageKey;
  kw_course_version : string;
  kw_subtree_edited_date : Z;
  kw_earned_all : float;
  kw_possible_all : float;
  kw_earned_graded : float;
  kw_possible_graded : float;
  kw_visible_blocks : blocks_arg }.

(** [PersistentSubsectionGradeQuerySet.create] *)
Definition create (kw : kwargs) : M PersistentSubsectionGrade :=
  (visible_blocks <- lift (as_BlockRecordSet (kw_visible_blocks kw)) ;;
   visible_blocks_hash <- visible_blocks_hash_of visible_blocks ;;
   let grade :=
     mkGrade None (kw_user_id kw) (course_key (kw_usage_key kw)) (kw_usage_key kw)
             (kw_subtree_edited_date kw) (kw_course_version kw)
             (kw_earned_all kw) (kw_possible_all kw)
             (kw_earned_graded kw) (kw_possible_graded kw)
             visible_blocks_hash in
   full_clean grade ;;;
   save grade)%M.

(** [PersistentSubsectionGrade.read] *)
Definition read (u : Z) (k : UsageKey) : M PersistentSubsectionGrade :=
  objects_get u k.

Definition race_message : string :=
  "Race condition hit in robust grading data model. Unrecoverable repeatable-read issue.".

(** [PersistentSubsectionGrade.update] *)
Definition update (kw : kwargs) : M unit :=
  (grade <- objects_get (kw_user_id kw) (kw_usage_key kw) ;;
   visible_blocks <- lift (as_BlockRecordSet (kw_visible_blocks kw)) ;;
   visible_blocks_hash <- visible_blocks_hash_of visible_blocks ;;
   try_except
     (create_from_blockrecords (ASet visible_blocks))
     IntegrityError
     (log_error race_message ;;; raise IntegrityError) ;;;
   save (mkGrade (pk grade) (user_id grade) (course_id grade) (usage_key grade)
                 (kw_subtree_edited_date kw) (kw_course_version kw)
                 (kw_earned_all kw) (kw_possible_all kw)
                 (kw_earned_graded kw) (kw_possible_graded kw)
                 visible_blocks_hash) ;;;
   ret tt)%M.

(** [PersistentSubsectionGrade.save_grade] *)
Definition save_grade (kw : kwargs) : M unit :=
  try_except (update kw) DoesNotExist (create kw ;;; ret tt)%M.
End Models.

(* ===================================================================== *)
(** ** Notions used in the statements *)

Definition is_byte (b : Z) : Prop := 0 <= b < 256.

(** [max_length=44] of the column [VisibleBlocks.hashed]. *)
Definition hashed_max_length : nat := 44.

Definition is_record (o : PyObject) : bool :=
  match o with
  | PyBlockRecord _ => true
  | _ => false
  end.

(** The state a resolution of [(h, j)] leaves: the call is journalled, and
    the row is inserted when no transaction has it yet. *)
Definition resolved (h j : string) (db : DB) : DB :=
  let db1 := record_event (GetOrCreate h j) db in
  match visibleblocks db !! h with
  | Some _ => db1
  | None =>
      if decide (h ∈ visibleblocks_unseen db) then db1
      else set_visibleblocks (<[h := j]> (visibleblocks db)) db1
  end.

(** The rows of [VisibleBlocks] with the hash [h], this transaction's and
    the others'. *)
Definition entries_with_hash (h : string) (db : DB) : nat :=
  (match visibleblocks db !! h with Some _ => 1 | None => 0 end
   + (if decide (h ∈ visibleblocks_unseen db) then 1 else 0))%nat.

(** The insert of [h] is refused: the row is another transaction's. *)
Definition conflicts (h : string) (db : DB) : Prop :=
  visibleblocks db !! h = None /\ h ∈ visibleblocks_unseen db.

(** What [create] stores for [kw] once the blocks have the hash [h]. *)
Definition new_grade (kw : kwargs) (h : string) (i : option Z)
    : PersistentSubsectionGrade :=
  mkGrade i (kw_user_id kw) (course_key (kw_usage_key kw)) (kw_usage_key kw)
          (kw_subtree_edited_date kw) (kw_course_version kw)
          (kw_earned_all kw) (kw_possible_all kw)
          (kw_earned_graded kw) (kw_possible_graded kw) h.

(** The members of a record in the order [sort_keys] gives them, and the
    text [dumps] writes for them. *)
Definition canonical_dict (r : BlockRecord) : json :=
  JObj [("locator"%string, JStr (locator r));
        ("max_score"%string, JInt (max_score r));
        ("weight"%string, JInt (weight r))].

Definition record_chars (r : BlockRecord) : list ascii :=
  "{"%char
  :: encode_basestring_ascii "locator" ++ ":"%char
  :: encode_basestring_ascii (locator r) ++ ","%char
  :: encode_basestring_ascii "max_score" ++ ":"%char
  :: encode_int (max_score r) ++ ","%char
  :: encode_basestring_ascii "weight" ++ ":"%char
  :: encode_int (weight r) ++ ["}"%char].

(** The digits of a decimal numeral, and what may follow a number in the
    text of a record. *)
Definition uint_chars (d : Decimal.uint) : list ascii :=
  chars (NilEmpty.string_of_uint d).

Definition not_digit_next (rest : list ascii) : Prop :=
  match rest with
  | [] => True
  | c :: _ => is_digit c = false
  end.

Definition horner (acc : Z) (c : ascii) : Z := 10 * acc + (ord c - 48).

Definition delimiter (c : ascii) : Prop := c = ","%char \/ c = "}"%char.

(* ===================================================================== *)
(** ** Sample data *)

(** The text with ['] standing for the double quote. *)
Definition py (s : string) : string :=
  string_of_list_ascii
    (map (fun c => if Ascii.eqb c "'"%char then dquote else c) (chars s)).

Definition block_b1 : BlockRecord := mkBlockRecord "b1" 2 5.
Definition block_b2 : BlockRecord := mkBlockRecord "b2" 1 10.

(** Two records that share a locator. *)
Definition tie_a : BlockRecord := mkBlockRecord "b" (-1) 1.
Definition tie_b : BlockRecord := mkBlockRecord "b" (-2) 1.

Definition seq1 : UsageKey := mkUsageKey "course-v1:edX+Demo+2016" "seq1".

Definition blocks1 : list PyObject := [PyBlockRecord (mkBlockRecord "b1" 1 10)].

Definition blocks1_json : string := py "[{'locator':'b1','max_score':10,'weight':1}]".
Definition blocks1_hash : string := "gjFZ4vhxiXwlF/dJ+9yGi+YAUC1xbNeM7fHAVPmGeo4=".

Definition kw_first : kwargs :=
  mkKwargs 42 seq1 "version-1" 1000 8.0%float 10.0%float 8.0%float 10.0%float
           (Iterable blocks1).
Definition kw_second : kwargs :=
  mkKwargs 42 seq1 "version-2" 2000 9.0%float 10.0%float 9.0%float 10.0%float
           (Iterable blocks1).

Definition empty_db : DB := mkDB ∅ ∅ [] [] 1 [].

Definition grade_row : PersistentSubsectionGrade :=
  mkGrade (Some 1) 42 "course-v1:edX+Demo+2016" seq1 1000 "version-1"
          8.0%float 10.0%float 8.0%float 10.0%float blocks1_hash.

(** One grade row and the row of its blocks. *)
Definition one_row_db : DB :=
  mkDB {[ blocks1_hash := blocks1_json ]} ∅ [grade_row] [] 2 [].

(** One grade row whose blocks were stored by a transaction that has been
    committed since: this one cannot see them. *)
Definition raced_db : DB :=
  mkDB ∅ {[ blocks1_hash ]} [grade_row] [] 2 [].

(** The key is another transaction's. *)
Definition raced_key_db : DB :=
  mkDB ∅ ∅ [] [(42, "course-v1:edX+Demo+2016"%string, seq1)] 1 [].

(* ===================================================================== *)
(** ** The memo fields, and the property [blocks]

    [__init__] sets [_json] and [_hash] to [None]; [to_json] and [to_hash]
    fill them at their first call and answer from them afterwards.  The
    object is the frozen set with the two fields; a method returns its
    result and the object as it leaves it. *)

Module Memo.
Record t := mk {
  frozen : BlockRecordSet;
  _json : option string;
  _hash : option string }.

Definition __init__ (s : BlockRecordSet) : t := mk s None None.

Definition to_json (self : t) : result string * t :=
  match _json self with
  | None =>
      match to_json (frozen self) with
      | Ok j => (Ok j, mk (frozen self) (Some j) (_hash self))
      | Raise e => (Raise e, self)
      end
  | Some j => (Ok j, self)
  end.

Definition to_hash (self : t) : result string * t :=
  match _hash self with
  | None =>
      match to_json self with
      | (Ok j, self') =>
          let h := string_of_list_ascii (b64encode (sha256_digest (bytes_of_str j))) in
          (Ok h, mk (frozen self') (_json self') (Some h))
      | (Raise e, self') => (Raise e, self')
      end
  | Some h => (Ok h, self)
  end.
End Memo.

(** What a filled field holds is what the method computes, and [_hash] is
    filled after [_json] only. *)
Definition memo_coherent (self : Memo.t) : Prop :=
  (forall j, Memo._json self = Some j -> to_json (Memo.frozen self) = Ok j)
  /\ (forall h, Memo._hash self = Some h -> to_hash (Memo.frozen self) = Ok h)
  /\ (is_Some (Memo._hash self) -> is_Some (Memo._json self)).

(** [VisibleBlocks.blocks] *)
Definition blocks `{Frozenset} (self : VisibleBlocks) : result BlockRecordSet :=
  from_json (blocks_json self).

(* ===================================================================== *)
(** ** Invariants of the two tables *)

Definition records_of (rs : list BlockRecord) : BlockRecordSet :=
  mkBlockRecordSet (map PyBlockRecord rs).

(** Every row of [VisibleBlocks] holds the canonical JSON of some set of
    records under the hash of that set. *)
Definition store_ok (db : DB) : Prop :=
  forall h j, visibleblocks db !! h = Some j ->
    exists rs, to_json (records_of rs) = Ok j /\ to_hash (records_of rs) = Ok h.

(** The grade rows: [course_id] is the course of [usage_key]; every row has
    a primary key below the counter, and no two rows share one; no two rows
    are for the same user and subsection; every [visible_blocks_id] is the
    key of a row the transaction sees. *)
Definition grades_ok (db : DB) : Prop :=
  (forall g, g ∈ grades db ->
     course_id g = course_key (usage_key g)
     /\ (exists i, pk g = Some i /\ i < next_pk db)
     /\ is_Some (visibleblocks db !! visible_blocks_id g))
  /\ NoDup (map pk (grades db))
  /\ NoDup (map (fun g => (user_id g, usage_key g)) (grades db)).

Definition consistent (db : DB) : Prop := store_ok db /\ grades_ok db.

(** The store only grows. *)
Definition store_extends (db db' : DB) : Prop :=
  forall h j, visibleblocks db !! h = Some j -> visibleblocks db' !! h = Some j.

Definition printable (c : ascii) : bool := (32 <=? ord c) && (ord c <=? 126).

(** [VisibleBlocks.__unicode__], the two columns being byte strings. *)
Definition __unicode__ (self : VisibleBlocks) : string :=
  ("VisibleBlocks object - hash:" ++ hashed self ++ ", raw json:'"
   ++ blocks_json self ++ "'")%string.

(* ===================================================================== *)
(** ** Further sample data *)

(** Arguments that fail: a blank course version, a member that is a plain
    tuple, a member that is a dict. *)
Definition kw_blank : kwargs :=
  mkKwargs 42 seq1 EmptyString 1000 8.0%float 10.0%float 8.0%float 10.0%float
           (Iterable blocks1).
Definition kw_tuple : kwargs :=
  mkKwargs 42 seq1 "version-1" 1000 8.0%float 10.0%float 8.0%float 10.0%float
           (Iterable [PyTuple [1; 2]]).
Definition kw_dict : kwargs :=
  mkKwargs 42 seq1 "version-1" 1000 8.0%float 10.0%float 8.0%float 10.0%float
           (Iterable [PyDict [("locator"%string, 1)]]).

Definition two_blocks_json : string :=
  py "[{'locator':'b1','max_score':5,'weight':2},{'locator':'b2','max_score':10,'weight':1}]".

(** A second user. *)
Definition kw_other : kwargs :=
  mkKwargs 7 seq1 "version-1" 1500 3.0%float 10.0%float 3.0%float 10.0%float
           (ASet (mkBlockRecordSet blocks1)).

(* ===================================================================== *)
(** * Properties *)

(** ** Test vectors *)


Example sha256_constants :
  nth 0 sha256_K 0 = 0x428a2f98 /\ nth 63 sha256_K 0 = 0xc67178f2
  /\ length sha256_K = 64%nat
  /\ sa sha256_H0 = 0x6a09e667 /\ sh sha256_H0 = 0x5be0cd19.
Proof. repeat split. Qed.

Example sha256_abc :
  hexdigest (sha256_digest (bytes_of_str "abc"))
  = "ba7816bf8f01cfea414140de5dae2223b00361a396177a9cb410ff61f20015ad"%string.
Proof. vm_compute. reflexivity. Qed.

Example sha256_two_blocks :
  hexdigest (sha256_digest (bytes_of_str
    "abcdbcdecdefdefgefghfghighijhijkijkljklmklmnlmnomnopnopq"))
  = "248d6a61d20638b8e5c026930c3e6039a33ce45964ff2167f6ecedd419db06c1"%string.
Proof. vm_compute. reflexivity. Qed.

Example b64encode_padding :
  map (fun s => string_of_list_ascii (b64encode (bytes_of_str s)))
      ["a"; "ab"; "abc"; "abcd"]%string
  = ["YQ=="; "YWI="; "YWJj"; "YWJjZA=="]%string.
Proof. vm_compute. reflexivity. Qed.

(** ** Sample runs *)

Example to_json_two_blocks :
  to_json (mkBlockRecordSet (map PyBlockRecord [block_b2; block_b1]))
  = Ok (py "[{'locator':'b1','max_score':5,'weight':2},{'locator':'b2','max_score':10,'weight':1}]").
Proof. vm_compute. reflexivity. Qed.

Example to_hash_two_blocks :
  to_hash (mkBlockRecordSet (map PyBlockRecord [block_b2; block_b1]))
  = Ok "Y9JTGfHjvyN/LDXb+xtDQKLSnVgU737LJEnqgUOfnzs="%string.
Proof. vm_compute. reflexivity. Qed.

Example dumps_escapes :
  dumps (JStr (String (chr 127) (String (chr 1) (String dquote (String backslash
          (String (chr 233) (String (chr 10) "/")))))))
  = py "'\u007f\u0001\'\\\u00e9\n/'".
Proof. vm_compute. reflexivity. Qed.

Example loads_rejects :
  loads (py "[01]") = Raise ValueError
  /\ loads (py "[1,]") = Raise ValueError
  /\ loads (py "{'a':1} x") = Raise ValueError
  /\ loads (py " [ 1 , {'a' : null} ] ") = Ok (JArr [JInt 1; JObj [("a"%string, JNull)]]).
Proof. repeat split; vm_compute; reflexivity. Qed.

Example blocks1_values :
  to_json (mkBlockRecordSet blocks1) = Ok blocks1_json
  /\ to_hash (mkBlockRecordSet blocks1) = Ok blocks1_hash.
Proof. split; vm_compute; reflexivity. Qed.

(** ** Lists taken three elements at a time *)

Lemma list_ind3 {A} (P : list A -> Prop) :
  P [] -> (forall a, P [a]) -> (forall a b, P [a; b]) ->
  (forall a b c l, P l -> P (a :: b :: c :: l)) ->
  forall l, P l.
Proof.
  intros H0 H1 H2 H3 l.
  assert (P l /\ (forall a, P (a :: l)) /\ (forall a b, P (a :: b :: l))) as [Hl _].
  { induction l as [|x l (IH0 & IH1 & IH2)]; [auto|].
    repeat split; auto. }
  exact Hl.
Qed.

(** ** base64 *)

Lemma b64encode_length (bs : list Z) :
  length (b64encode bs) = (4 * ((length bs + 2) / 3))%nat.
Proof.
  induction bs as [| a | a b | a b c l IH] using list_ind3; try reflexivity.
  cbn [b64encode length]. rewrite IH.
  replace (S (S (S (length l))) + 2)%nat with (1 * 3 + (length l + 2))%nat by lia.
  rewrite Nat.div_add_l by lia. lia.
Qed.

Lemma b64_value_char (n : Z) :
  0 <= n < 64 -> b64_value (b64_char n) = Some n.
Proof.
  intros Hn.
  assert (forallb (fun k => bool_decide
            (b64_value (b64_char (Z.of_nat k)) = Some (Z.of_nat k))) (seq 0 64) = true)
    as Hall by (vm_compute; reflexivity).
  rewrite forallb_forall in Hall.
  assert (In (Z.to_nat n) (seq 0 64)) as Hin by (apply in_seq; lia).
  apply Hall, bool_decide_eq_true in Hin.
  rewrite Z2Nat.id in Hin by lia. exact Hin.
Qed.

Lemma b64_char_not_pad (n : Z) :
  0 <= n < 64 -> Ascii.eqb (b64_char n) b64_pad = false.
Proof.
  intros Hn. destruct (Ascii.eqb_spec (b64_char n) b64_pad) as [E|]; [|reflexivity].
  pose proof (b64_value_char n Hn) as Hv. rewrite E in Hv. discriminate Hv.
Qed.


Ltac b64_arith :=
  unfold is_byte in *;
  repeat match goal with
  | |- context [?a / ?k] =>
      lazymatch goal with
      | _ : a = k * (a / k) + a mod k |- _ => fail
      | _ => pose proof (Z.div_mod a k ltac:(lia));
             pose proof (Z.mod_pos_bound a k ltac:(lia))
      end
  | |- context [?a mod ?k] =>
      lazymatch goal with
      | _ : a = k * (a / k) + a mod k |- _ => fail
      | _ => pose proof (Z.div_mod a k ltac:(lia));
             pose proof (Z.mod_pos_bound a k ltac:(lia))
      end
  end.

Ltac b64_step :=
  repeat first
    [ rewrite b64_value_char by assumption
    | rewrite Ascii.eqb_refl
    | rewrite b64_char_not_pad by assumption
    | progress cbn [mbind option_bind] ].

Lemma b64_split_hi (x y k : Z) :
  0 < k -> 0 <= y < k -> (x * k + y) / k = x.
Proof. intros Hk Hy. rewrite Z.div_add_l by lia. rewrite (Z.div_small y) by lia. lia. Qed.

Lemma b64_split_lo (x y k : Z) :
  0 < k -> 0 <= y < k -> (x * k + y) mod k = y.
Proof. intros Hk Hy. rewrite Z.add_comm, Z.mod_add by lia. apply Z.mod_small. lia. Qed.

Lemma b64decode_encode (bs : list Z) :
  Forall is_byte bs -> b64decode (b64encode bs) = Some bs.
Proof.
  induction bs as [| a | a b | a b c l IH] using list_ind3; intros Hb.
  - reflexivity.
  - apply Forall_cons_1 in Hb as [Ha _].
    cbn [b64encode b64decode].
    assert (0 <= a / 4 < 64 /\ 0 <= a mod 4 * 16 < 64) as [H1 H2]
      by (split; b64_arith; lia).
    b64_step.
    rewrite Z.mod_mul, Z.div_mul by lia.
    cbn [Z.eqb]. do 2 f_equal. b64_arith; lia.
  - apply Forall_cons_1 in Hb as [Ha Hb]. apply Forall_cons_1 in Hb as [Hb _].
    cbn [b64encode b64decode].
    assert (0 <= a / 4 < 64 /\ 0 <= a mod 4 * 16 + b / 16 < 64
            /\ 0 <= b mod 16 * 4 < 64 /\ 0 <= b / 16 < 16) as (H1 & H2 & H3 & H4)
      by (repeat split; b64_arith; lia).
    b64_step.
    replace (b mod 16 * 4 mod 4) with 0 by (rewrite Z.mod_mul; lia).
    cbn [Z.eqb]. rewrite Z.div_mul by lia.
    rewrite b64_split_hi, b64_split_lo by lia.
    do 2 f_equal; [|f_equal]; b64_arith; lia.
  - apply Forall_cons_1 in Hb as [Ha Hb]. apply Forall_cons_1 in Hb as [Hb Hc].
    apply Forall_cons_1 in Hc as [Hc Hl].
    cbn [b64encode b64decode].
    assert (0 <= a / 4 < 64 /\ 0 <= a mod 4 * 16 + b / 16 < 64
            /\ 0 <= b mod 16 * 4 + c / 64 < 64 /\ 0 <= c mod 64 < 64
            /\ 0 <= b / 16 < 16 /\ 0 <= c / 64 < 4)
      as (H1 & H2 & H3 & H4 & H5 & H6) by (repeat split; b64_arith; lia).
    b64_step. rewrite (IH Hl). b64_step.
    rewrite !b64_split_hi, !b64_split_lo by lia.
    f_equal. f_equal; [|f_equal; [|f_equal]]; b64_arith; lia.
Qed.

Lemma b64_char_alphabet (n : Z) : In (b64_char n) b64_alphabet \/ b64_char n = b64_pad.
Proof.
  unfold b64_char.
  destruct (Nat.lt_ge_cases (Z.to_nat n) (length b64_alphabet)) as [Hlt | Hge].
  - left. apply nth_In, Hlt.
  - right. apply nth_overflow, Hge.
Qed.

Lemma b64encode_alphabet (bs : list Z) :
  Forall (fun c => In c b64_alphabet \/ c = b64_pad) (b64encode bs).
Proof.
  induction bs as [| a | a b | a b c l IH] using list_ind3; cbn [b64encode];
    repeat (apply Forall_cons; split; [first [apply b64_char_alphabet | right; reflexivity] |]);
    first [exact IH | apply Forall_nil; exact I].
Qed.

(** ** sha256 *)

Lemma be_bytes_length (n : nat) (x : Z) : length (be_bytes n x) = n.
Proof. unfold be_bytes. rewrite length_map, length_rev, length_seq. reflexivity. Qed.

Lemma be_bytes_is_byte (n : nat) (x : Z) : Forall is_byte (be_bytes n x).
Proof.
  unfold be_bytes. apply Forall_forall. intros b Hb.
  apply list_elem_of_In, in_map_iff in Hb as (i & <- & _).
  change 255 with (Z.ones 8). rewrite Z.land_ones by lia.
  unfold is_byte. apply Z.mod_pos_bound. reflexivity.
Qed.

Lemma sha256_digest_length (msg : list Z) : length (sha256_digest msg) = 32%nat.
Proof.
  unfold sha256_digest. cbv zeta. cbv [flat_map].
  rewrite !length_app, !be_bytes_length. reflexivity.
Qed.

Lemma sha256_digest_is_byte (msg : list Z) : Forall is_byte (sha256_digest msg).
Proof.
  unfold sha256_digest. cbv zeta. cbv [flat_map].
  repeat (apply Forall_app; split; [apply be_bytes_is_byte|]).
  apply Forall_nil. exact I.
Qed.

(** ** Sets of well-formed records *)

Lemma chars_string_of_list (cs : list ascii) : chars (string_of_list_ascii cs) = cs.
Proof. apply list_ascii_of_string_of_list_ascii. Qed.

Lemma string_length_chars (s : string) : String.length s = length (chars s).
Proof. induction s as [|c s IH]; [reflexivity|]. cbn. rewrite IH. reflexivity. Qed.

Lemma mapM_as_record (rs : list BlockRecord) :
  mapM_result as_record (map PyBlockRecord rs) = Ok rs.
Proof.
  induction rs as [|r rs IH]; [reflexivity|].
  cbn [map mapM_result as_record]. cbn [mbind result_bind]. rewrite IH. reflexivity.
Qed.

Lemma to_json_records (rs : list BlockRecord) :
  to_json (mkBlockRecordSet (map PyBlockRecord rs))
  = Ok (dumps (JArr (map _asdict (sorted locator String.leb rs)))).
Proof. unfold to_json. cbn [members]. rewrite mapM_as_record. reflexivity. Qed.

Lemma to_hash_records (rs : list BlockRecord) :
  to_hash (mkBlockRecordSet (map PyBlockRecord rs))
  = Ok (string_of_list_ascii (b64encode (sha256_digest (bytes_of_str
          (dumps (JArr (map _asdict (sorted locator String.leb rs)))))))).
Proof. unfold to_hash. rewrite to_json_records. reflexivity. Qed.


(** C7. For every visibility set, [to_hash] returns a text that decodes, in
    the standard base64 alphabet, to the SHA-256 digest of the bytes of the
    canonical JSON; the digest has 32 bytes; the text has no character
    outside the alphabet and the padding sign, hence no line break and no
    [$] that would close an algorithm label. *)
Theorem to_hash_is_base64_of_sha256 (rs : list BlockRecord) :
  exists j h,
    to_json (mkBlockRecordSet (map PyBlockRecord rs)) = Ok j
    /\ to_hash (mkBlockRecordSet (map PyBlockRecord rs)) = Ok h
    /\ chars h = b64encode (sha256_digest (bytes_of_str j))
    /\ length (sha256_digest (bytes_of_str j)) = 32%nat
    /\ b64decode (chars h) = Some (sha256_digest (bytes_of_str j))
    /\ Forall (fun c => In c b64_alphabet \/ c = b64_pad) (chars h)
    /\ ~ In (chr 10) (chars h) /\ ~ In "$"%char (chars h).
Proof.
  eexists. eexists. split; [apply to_json_records|].
  split; [apply to_hash_records|].
  rewrite chars_string_of_list.
  split; [reflexivity|].
  split; [apply sha256_digest_length|].
  split; [apply b64decode_encode, sha256_digest_is_byte|].
  pose proof (b64encode_alphabet (sha256_digest (bytes_of_str
    (dumps (JArr (map _asdict (sorted locator String.leb rs))))))) as Hal.
  split; [exact Hal|].
  rewrite Forall_forall in Hal.
  split; intros Hin; apply list_elem_of_In, Hal in Hin as [Hin | Hin];
    solve [ vm_compute in Hin; intuition discriminate | discriminate Hin ].
Qed.

(** C10. For every visibility set, the empty one included, the text that
    [to_hash] returns has exactly 44 characters, the [max_length] of the
    column [hashed]. *)
Theorem to_hash_length_44 (rs : list BlockRecord) :
  exists h,
    to_hash (mkBlockRecordSet (map PyBlockRecord rs)) = Ok h
    /\ String.length h = 44%nat
    /\ (String.length h <= hashed_max_length)%nat.
Proof.
  eexists. split; [apply to_hash_records|].
  rewrite string_length_chars, chars_string_of_list, b64encode_length,
    sha256_digest_length.
  split; [reflexivity | unfold hashed_max_length; cbn; lia].
Qed.

Example to_hash_empty_set :
  to_hash (mkBlockRecordSet []) = Ok "T1PNoYwrqgwDVLtfmj7L5e0Sq02OEbqHPC8RFhICuUU="%string.
Proof. vm_compute. reflexivity. Qed.

(** ** Construction *)


Lemma mapM_as_record_spec (os : list PyObject) :
  match mapM_result as_record os with
  | Ok rs => os = map PyBlockRecord rs
  | Raise e => e = AttributeError /\ exists o, o ∈ os /\ is_record o = false
  end.
Proof.
  induction os as [|o os IH]; [reflexivity|].
  cbn [mapM_result]. destruct o as [r | t | d]; cbn [as_record mbind result_bind].
  - destruct (mapM_result as_record os) as [rs | e].
    + cbn. rewrite IH. reflexivity.
    + destruct IH as (-> & o & Ho & Hr). split; [reflexivity|].
      exists o. split; [right; exact Ho | exact Hr].
  - split; [reflexivity|]. exists (PyTuple t). split; [left | reflexivity].
  - split; [reflexivity|]. exists (PyDict d). split; [left | reflexivity].
Qed.

Lemma to_json_spec (S : BlockRecordSet) :
  match to_json S with
  | Ok _ => forall o, o ∈ members S -> is_record o = true
  | Raise e => e = AttributeError /\ exists o, o ∈ members S /\ is_record o = false
  end.
Proof.
  unfold to_json. pose proof (mapM_as_record_spec (members S)) as Hm.
  destruct (mapM_result as_record (members S)) as [rs | e]; cbn [mbind result_bind].
  - intros o Ho. rewrite Hm in Ho.
    apply list_elem_of_In, in_map_iff in Ho as (r & <- & _). reflexivity.
  - exact Hm.
Qed.



(** ** Running the database code *)

Lemma bind_Ok {A B} (m : M A) (k : A -> M B) db a db' :
  m db = (Ok a, db') -> bind m k db = k a db'.
Proof. unfold bind. intros ->. reflexivity. Qed.

Lemma bind_Raise {A B} (m : M A) (k : A -> M B) db e db' :
  m db = (Raise e, db') -> bind m k db = (Raise e, db').
Proof. unfold bind. intros ->. reflexivity. Qed.

Lemma try_except_Ok {A} (m h : M A) exc db a db' :
  m db = (Ok a, db') -> try_except m exc h db = (Ok a, db').
Proof. unfold try_except. intros ->. reflexivity. Qed.

Lemma try_except_caught {A} (m h : M A) exc db db' :
  m db = (Raise exc, db') -> try_except m exc h db = h db'.
Proof. unfold try_except. intros ->. rewrite decide_True by reflexivity. reflexivity. Qed.

Lemma try_except_passed {A} (m h : M A) exc db e db' :
  m db = (Raise e, db') -> e <> exc -> try_except m exc h db = (Raise e, db').
Proof. unfold try_except. intros -> Hne. rewrite decide_False by exact Hne. reflexivity. Qed.



Lemma create_from_blockrecords_spec `{Frozenset} (vb : BlockRecordSet) h j db :
  to_json vb = Ok j -> to_hash vb = Ok h ->
  create_from_blockrecords (ASet vb) db
  = (match visibleblocks db !! h with
     | Some j' => Ok (mkVisibleBlocks j' h)
     | None => if decide (h ∈ visibleblocks_unseen db)
               then Raise IntegrityError else Ok (mkVisibleBlocks j h)
     end, resolved h j db).
Proof.
  intros Hj Hh. unfold create_from_blockrecords, bind, lift, ret, resolved.
  cbn [as_BlockRecordSet]. rewrite Hh, Hj. unfold get_or_create.
  cbn [visibleblocks record_event visibleblocks_unseen].
  destruct (visibleblocks db !! h) as [j'|]; [reflexivity|].
  destruct (decide (h ∈ visibleblocks_unseen db)); reflexivity.
Qed.

Lemma create_from_blockrecords_raises `{Frozenset} (vb : BlockRecordSet) e db :
  to_hash vb = Raise e ->
  create_from_blockrecords (ASet vb) db = (Raise e, db).
Proof.
  intros Hh. unfold create_from_blockrecords, bind, lift.
  cbn [as_BlockRecordSet]. rewrite Hh. reflexivity.
Qed.

Lemma to_hash_Ok_inv (vb : BlockRecordSet) h :
  to_hash vb = Ok h ->
  exists j, to_json vb = Ok j
    /\ h = string_of_list_ascii (b64encode (sha256_digest (bytes_of_str j))).
Proof.
  unfold to_hash. destruct (to_json vb) as [j|e]; cbn [mbind result_bind]; [|discriminate].
  intros [= <-]. exists j. split; reflexivity.
Qed.

Lemma to_hash_Raise_inv (vb : BlockRecordSet) e :
  to_hash vb = Raise e -> e = AttributeError.
Proof.
  unfold to_hash. pose proof (to_json_spec vb) as Hj.
  destruct (to_json vb) as [j|e']; cbn [mbind result_bind]; [discriminate|].
  intros [= <-]. apply Hj.
Qed.

Lemma visible_blocks_hash_of_spec `{Frozenset} (vb : BlockRecordSet) h j db :
  to_json vb = Ok j -> to_hash vb = Ok h ->
  visible_blocks_hash_of vb db = (Ok h, resolved h j db).
Proof.
  intros Hj Hh. unfold visible_blocks_hash_of.
  pose proof (create_from_blockrecords_spec vb h j db Hj Hh) as Hc.
  destruct (visibleblocks db !! h) as [j'|] eqn:Hv.
  - erewrite try_except_Ok; [reflexivity|].
    erewrite bind_Ok by exact Hc. reflexivity.
  - destruct (decide (h ∈ visibleblocks_unseen db)) as [Hu|Hu].
    + erewrite try_except_caught.
      * unfold lift. rewrite Hh. reflexivity.
      * erewrite bind_Raise by exact Hc. reflexivity.
    + erewrite try_except_Ok; [reflexivity|].
      erewrite bind_Ok by exact Hc. reflexivity.
Qed.

Lemma visible_blocks_hash_of_raises `{Frozenset} (vb : BlockRecordSet) e db :
  to_hash vb = Raise e ->
  visible_blocks_hash_of vb db = (Raise e, db).
Proof.
  intros Hh. unfold visible_blocks_hash_of.
  pose proof (to_hash_Raise_inv vb e Hh) as ->.
  erewrite try_except_passed; [reflexivity | | discriminate].
  erewrite bind_Raise; [reflexivity|]. apply create_from_blockrecords_raises, Hh.
Qed.

Lemma resolved_grades h j db : grades (resolved h j db) = grades db.
Proof.
  unfold resolved. cbv zeta.
  destruct (visibleblocks db !! h); [reflexivity|].
  destruct (decide _); reflexivity.
Qed.

Lemma resolved_next_pk h j db : next_pk (resolved h j db) = next_pk db.
Proof.
  unfold resolved. cbv zeta.
  destruct (visibleblocks db !! h); [reflexivity|].
  destruct (decide _); reflexivity.
Qed.

Lemma resolved_unseen h j db :
  visibleblocks_unseen (resolved h j db) = visibleblocks_unseen db
  /\ grades_unseen (resolved h j db) = grades_unseen db.
Proof.
  unfold resolved. cbv zeta.
  destruct (visibleblocks db !! h); [split; reflexivity|].
  destruct (decide _); split; reflexivity.
Qed.

Lemma resolved_journal h j db :
  journal (resolved h j db) = journal db ++ [GetOrCreate h j].
Proof.
  unfold resolved. cbv zeta.
  destruct (visibleblocks db !! h); [reflexivity|].
  destruct (decide _); reflexivity.
Qed.

Lemma resolved_lookup h j db :
  visibleblocks (resolved h j db) !! h
  = match visibleblocks db !! h with
    | Some j' => Some j'
    | None => if decide (h ∈ visibleblocks_unseen db) then None else Some j
    end.
Proof.
  unfold resolved. cbv zeta.
  destruct (visibleblocks db !! h) eqn:Hv; [exact Hv|].
  destruct (decide _); [exact Hv|].
  cbn [visibleblocks set_visibleblocks]. apply lookup_insert_eq.
Qed.

Lemma resolved_idem h j db :
  visibleblocks (resolved h j (resolved h j db)) = visibleblocks (resolved h j db).
Proof.
  unfold resolved at 1. cbv zeta. rewrite resolved_lookup.
  destruct (visibleblocks db !! h) eqn:Hv; [reflexivity|].
  destruct (resolved_unseen h j db) as [-> _].
  destruct (decide _); reflexivity.
Qed.

Lemma records_to_json (vb : BlockRecordSet) (rs : list BlockRecord) :
  members vb = map PyBlockRecord rs ->
  exists j h, to_json vb = Ok j /\ to_hash vb = Ok h.
Proof.
  intros Hm. destruct vb as [ms]. cbn [members] in Hm. subst ms.
  eexists. eexists. split; [apply to_json_records | apply to_hash_records].
Qed.

Lemma objects_get_absent (u : Z) (k : UsageKey) (db : DB) :
  (forall g, g ∈ grades db -> ~ (user_id g = u /\ usage_key g = k)) ->
  objects_get u k db = (Raise DoesNotExist, db).
Proof.
  intros Habs. unfold objects_get.
  assert (filter (fun g => user_id g = u /\ usage_key g = k) (grades db) = []) as ->;
    [|reflexivity].
  induction (grades db) as [|g gs IH]; [reflexivity|].
  rewrite filter_cons, decide_False by (apply Habs; left).
  apply IH. intros g' Hg'. apply Habs. right. exact Hg'.
Qed.

Lemma key_taken_new (g0 g : PersistentSubsectionGrade) (db : DB) :
  pk g0 = None -> g ∈ grades db ->
  user_id g = user_id g0 -> course_id g = course_id g0 -> usage_key g = usage_key g0 ->
  key_taken g0 db = true.
Proof.
  intros Hpk Hin Hu Hc Hk. unfold key_taken. apply existsb_exists.
  exists g. split; [apply list_elem_of_In, Hin|].
  unfold same_key, other_row. rewrite Hpk.
  rewrite !bool_decide_eq_true_2 by assumption. reflexivity.
Qed.

Lemma key_taken_absent (g0 : PersistentSubsectionGrade) (db : DB) :
  (forall g, g ∈ grades db -> ~ (user_id g = user_id g0 /\ usage_key g = usage_key g0)) ->
  key_taken g0 db = false.
Proof.
  intros Habs. unfold key_taken. apply not_true_is_false. intros Hex.
  apply existsb_exists in Hex as (g & Hin & Hg).
  apply andb_prop in Hg as [Hs _]. unfold same_key in Hs.
  apply andb_prop in Hs as [Hs Hk]. apply andb_prop in Hs as [Hu _].
  apply bool_decide_eq_true in Hu, Hk.
  apply (Habs g); [apply list_elem_of_In, Hin | split; assumption].
Qed.

(** C5. [update] on a key the transaction has no row for raises
    [DoesNotExist] (the spec's NotFoundError) and creates nothing; [create]
    on a key that has a row raises the duplicate-key error and updates
    nothing: [ValidationError] from [full_clean] when the transaction sees
    the row, [IntegrityError] from the insert when the row is another
    transaction's. *)
Theorem update_absent_and_create_present_fail
    `{Frozenset} `{FieldValidators} (kw : kwargs) (db : DB) :
  ((forall g, g ∈ grades db ->
      ~ (user_id g = kw_user_id kw /\ usage_key g = kw_usage_key kw)) ->
   update kw db = (Raise DoesNotExist, db))
  /\
  (forall vb rs g,
     as_BlockRecordSet (kw_visible_blocks kw) = Ok vb ->
     members vb = map PyBlockRecord rs ->
     g ∈ grades db ->
     user_id g = kw_user_id kw -> usage_key g = kw_usage_key kw ->
     course_id g = course_key (kw_usage_key kw) ->
     exists db', create kw db = (Raise ValidationError, db')
       /\ grades db' = grades db /\ next_pk db' = next_pk db)
  /\
  (forall vb rs,
     as_BlockRecordSet (kw_visible_blocks kw) = Ok vb ->
     members vb = map PyBlockRecord rs ->
     (kw_user_id kw, course_key (kw_usage_key kw), kw_usage_key kw) ∈ grades_unseen db ->
     exists e db', create kw db = (Raise e, db')
       /\ (e = ValidationError \/ e = IntegrityError)
       /\ grades db' = grades db /\ next_pk db' = next_pk db).
Proof.
  split; [|split].
  - intros Habs. unfold update.
    erewrite bind_Raise; [reflexivity|]. apply objects_get_absent, Habs.
  - intros vb rs g Hvb Hm Hin Hu Hk Hc.
    destruct (records_to_json vb rs Hm) as (j & h & Hj & Hh).
    exists (resolved h j db). split; [|split; [apply resolved_grades | apply resolved_next_pk]].
    unfold create.
    erewrite bind_Ok by (unfold lift; rewrite Hvb; reflexivity).
    erewrite bind_Ok by (apply visible_blocks_hash_of_spec; eassumption).
    erewrite bind_Raise; [reflexivity|].
    unfold full_clean.
    erewrite (key_taken_new _ g); [ | reflexivity | rewrite resolved_grades; exact Hin
                                     | exact Hu | exact Hc | exact Hk ].
    rewrite andb_false_r. reflexivity.
  - intros vb rs Hvb Hm Hun.
    destruct (records_to_json vb rs Hm) as (j & h & Hj & Hh).
    unfold create.
    erewrite bind_Ok by (unfold lift; rewrite Hvb; reflexivity).
    erewrite bind_Ok by (apply visible_blocks_hash_of_spec; eassumption).
    unfold bind at 1.
    set (grade := mkGrade None _ _ _ _ _ _ _ _ _ _).
    unfold full_clean.
    destruct (clean_fields grade
              && bool_decide (is_Some (visibleblocks (resolved h j db) !! visible_blocks_id grade))
              && negb (key_taken grade (resolved h j db))) eqn:Hclean.
    + apply andb_prop in Hclean as [Hclean _]. apply andb_prop in Hclean as [_ Hfk].
      exists IntegrityError, (resolved h j db).
      split; [|split; [right; reflexivity | split; [apply resolved_grades | apply resolved_next_pk]]].
      unfold save. rewrite Hfk. cbn [orb negb].
      destruct (resolved_unseen h j db) as [_ ->].
      cbn [pk user_id course_id usage_key grade].
      rewrite (bool_decide_eq_true_2 _ Hun), (bool_decide_eq_true_2 (None = None)) by reflexivity.
      cbn [andb]. rewrite orb_true_r. reflexivity.
    + exists ValidationError, (resolved h j db).
      split; [reflexivity|].
      split; [left; reflexivity | split; [apply resolved_grades | apply resolved_next_pk]].
Qed.

Lemma bind_Ok_inv {A B} (m : M A) (k : A -> M B) db b db' :
  bind m k db = (Ok b, db') ->
  exists a db1, m db = (Ok a, db1) /\ k a db1 = (Ok b, db').
Proof.
  unfold bind. destruct (m db) as [[a|e] db1]; [|discriminate].
  intros Hk. exists a, db1. split; [reflexivity | exact Hk].
Qed.

Lemma objects_get_inv (u : Z) (k : UsageKey) (db db' : DB) g :
  objects_get u k db = (Ok g, db') ->
  db' = db /\ g ∈ grades db /\ user_id g = u /\ usage_key g = k
  /\ filter (fun g => user_id g = u /\ usage_key g = k) (grades db) = [g].
Proof.
  unfold objects_get.
  destruct (filter _ (grades db)) as [|g0 [|g1 gs]] eqn:Hf; try discriminate.
  intros [= <- <-].
  assert (g0 ∈ filter (fun g => user_id g = u /\ usage_key g = k) (grades db)) as Hin
    by (rewrite Hf; left).
  apply list_elem_of_filter in Hin as [[Hu Hk] Hin].
  repeat split; assumption.
Qed.

Lemma visible_blocks_hash_of_inv `{Frozenset} (vb : BlockRecordSet) h db db1 :
  visible_blocks_hash_of vb db = (Ok h, db1) ->
  exists j, to_json vb = Ok j /\ to_hash vb = Ok h /\ db1 = resolved h j db.
Proof.
  intros Hr. destruct (to_hash vb) as [h0|e] eqn:Hh.
  - destruct (to_hash_Ok_inv vb h0 Hh) as (j & Hj & _).
    rewrite (visible_blocks_hash_of_spec vb h0 j db Hj Hh) in Hr.
    injection Hr as <- <-. exists j. repeat split. exact Hj.
  - rewrite (visible_blocks_hash_of_raises vb e db Hh) in Hr. discriminate Hr.
Qed.

Lemma save_Ok_inv
    (g g0 g' : PersistentSubsectionGrade) db db' :
  save g db = (Ok g', db') ->
  g0 ∈ grades db -> pk g0 = pk g ->
  g' ∈ grades db'
  /\ user_id g' = user_id g /\ usage_key g' = usage_key g
  /\ visible_blocks_id g' = visible_blocks_id g
  /\ journal db' = journal db
  /\ visibleblocks db' = visibleblocks db.
Proof.
  unfold save. destruct (_ || _ || _); [discriminate|].
  destruct (pk g) as [i|] eqn:Hpk.
  - intros [= <- <-] Hin Hpk0.
    split; [|repeat split].
    cbn [grades set_grades].
    apply list_elem_of_In, in_map_iff. exists g0.
    split; [|apply list_elem_of_In, Hin].
    rewrite bool_decide_eq_true_2 by exact Hpk0. reflexivity.
  - intros [= <- <-] _ _.
    split; [|repeat split].
    cbn [grades set_grades]. apply list_elem_of_In, in_or_app. right. left. reflexivity.
Qed.

(** C3. When the second resolution in [update] is refused, [update] writes
    the message to the log at error level and raises the same
    [IntegrityError]; no row of the grade table is touched, and none of
    the table of visible blocks. *)
Theorem update_conflict_is_logged_and_raised
    `{Frozenset} (kw : kwargs) (db db1 db2 : DB)
    (grade : PersistentSubsectionGrade) (vb : BlockRecordSet) (h : string) :
  objects_get (kw_user_id kw) (kw_usage_key kw) db = (Ok grade, db) ->
  as_BlockRecordSet (kw_visible_blocks kw) = Ok vb ->
  visible_blocks_hash_of vb db = (Ok h, db1) ->
  create_from_blockrecords (ASet vb) db1 = (Raise IntegrityError, db2) ->
  exists db',
    update kw db = (Raise IntegrityError, db')
    /\ journal db' = journal db2 ++ [LogError race_message]
    /\ grades db' = grades db
    /\ next_pk db' = next_pk db
    /\ visibleblocks db' = visibleblocks db.
Proof.
  intros Hget Hvb Hfirst Hsecond.
  exists (record_event (LogError race_message) db2).
  destruct (visible_blocks_hash_of_inv vb h db db1 Hfirst) as (j & Hj & Hh & ->).
  pose proof Hsecond as Hdb2.
  rewrite (create_from_blockrecords_spec vb h j _ Hj Hh) in Hdb2.
  injection Hdb2 as Hres Hdb2.
  assert (visibleblocks db2 = visibleblocks db) as Hsame.
  { rewrite <- Hdb2, resolved_idem.
    rewrite resolved_lookup in Hres. unfold resolved. cbv zeta.
    destruct (visibleblocks db !! h); [discriminate Hres|].
    destruct (decide (h ∈ visibleblocks_unseen db)); [reflexivity | discriminate Hres]. }
  split; [|split; [reflexivity|]].
  - unfold update.
    erewrite bind_Ok by exact Hget.
    erewrite bind_Ok by (unfold lift; rewrite Hvb; reflexivity).
    erewrite bind_Ok by (apply visible_blocks_hash_of_spec; eassumption).
    erewrite bind_Raise; [reflexivity|].
    erewrite try_except_caught by exact Hsecond.
    unfold bind, log_error, raise. reflexivity.
  - cbn [grades next_pk visibleblocks record_event]. rewrite Hsame, <- Hdb2.
    rewrite !resolved_grades, !resolved_next_pk.
    repeat split; reflexivity.
Qed.


(** ** Sorting *)

Lemma string_leb_trans (s1 s2 s3 : string) :
  String.leb s1 s2 = true -> String.leb s2 s3 = true -> String.leb s1 s3 = true.
Proof.
  unfold String.leb.
  assert (forall s1 s2 s3,
    String.compare s1 s2 <> Gt -> String.compare s2 s3 <> Gt ->
    String.compare s1 s3 <> Gt) as Htrans.
  { clear. induction s1 as [|c1 s1 IH]; intros [|c2 s2] [|c3 s3]; cbn;
      try congruence.
    unfold Ascii.compare.
    destruct (N.compare_spec (N_of_ascii c1) (N_of_ascii c2)) as [E12|L12|G12];
      destruct (N.compare_spec (N_of_ascii c2) (N_of_ascii c3)) as [E23|L23|G23];
      destruct (N.compare_spec (N_of_ascii c1) (N_of_ascii c3)) as [E13|L13|G13];
      try congruence; try lia.
    apply IH. }
  intros H12 H23.
  specialize (Htrans s1 s2 s3).
  destruct (String.compare s1 s2), (String.compare s2 s3), (String.compare s1 s3);
    try reflexivity; try discriminate; exfalso; apply Htrans; congruence.
Qed.

Section SortedFacts.
Context {A K : Type} (key : A -> K) (le : K -> K -> bool).
Hypothesis le_total : forall a b, le a b = true \/ le b a = true.
Hypothesis le_trans : forall a b c, le a b = true -> le b c = true -> le a c = true.

Lemma insert_by_Permutation (x : A) (l : list A) : insert_by key le x l ≡ₚ x :: l.
Proof.
  induction l as [|y l IH]; [reflexivity|].
  cbn [insert_by]. destruct (le (key x) (key y)); [reflexivity|].
  rewrite IH. apply Permutation_swap.
Qed.

Lemma sorted_Permutation (l : list A) : sorted key le l ≡ₚ l.
Proof.
  induction l as [|x l IH]; [reflexivity|].
  cbn [sorted fold_right]. fold (sorted key le l).
  rewrite insert_by_Permutation, IH. reflexivity.
Qed.

Lemma insert_by_StronglySorted (x : A) (l : list A) :
  StronglySorted (key_le key le) l -> StronglySorted (key_le key le) (insert_by key le x l).
Proof.
  induction 1 as [|y l Hl IH Hy]; cbn [insert_by].
  - constructor; [constructor | apply Forall_nil; exact I].
  - destruct (le (key x) (key y)) eqn:Hxy.
    + constructor; [constructor; assumption|].
      apply Forall_cons. split; [exact Hxy|].
      eapply Forall_impl; [exact Hy|]. intros z Hz. eapply le_trans; eassumption.
    + constructor; [exact IH|].
      rewrite insert_by_Permutation. apply Forall_cons. split; [|exact Hy].
      destruct (le_total (key x) (key y)) as [Hc|Hc]; [congruence | exact Hc].
Qed.

Lemma sorted_StronglySorted (l : list A) : StronglySorted (key_le key le) (sorted key le l).
Proof.
  induction l as [|x l IH]; [constructor|].
  cbn [sorted fold_right]. apply insert_by_StronglySorted, IH.
Qed.
End SortedFacts.

Lemma sorted_locator_canonical (xs ys : list BlockRecord) :
  NoDup xs -> NoDup ys ->
  (forall r, r ∈ xs <-> r ∈ ys) ->
  (forall r r', r ∈ xs -> r' ∈ xs -> locator r = locator r' -> r = r') ->
  sorted locator String.leb xs = sorted locator String.leb ys.
Proof.
  intros Hx Hy Hxy Hinj.
  apply (StronglySorted_unique_strong (key_le locator String.leb)).
  - intros r r' Hr Hr' H1 H2.
    rewrite sorted_Permutation in Hr, Hr'. apply Hxy in Hr'.
    apply Hinj; [assumption..|]. apply String.leb_antisym; assumption.
  - apply sorted_StronglySorted; [apply String.leb_total | apply string_leb_trans].
  - apply sorted_StronglySorted; [apply String.leb_total | apply string_leb_trans].
  - rewrite !sorted_Permutation. apply NoDup_Permutation; assumption.
Qed.

Lemma iteration_order_records `{Frozenset} (xs : list BlockRecord) :
  exists xs',
    iteration_order (map PyBlockRecord xs) = map PyBlockRecord xs'
    /\ NoDup xs' /\ (forall r, r ∈ xs' <-> r ∈ xs).
Proof.
  pose proof (mapM_as_record_spec (iteration_order (map PyBlockRecord xs))) as Hm.
  destruct (mapM_result as_record _) as [xs'|e].
  - exists xs'. split; [exact Hm|].
    pose proof (iteration_order_NoDup (map PyBlockRecord xs)) as Hnd.
    rewrite Hm in Hnd. split; [apply (NoDup_fmap_1 PyBlockRecord), Hnd|].
    intros r.
    assert (PyBlockRecord r ∈ map PyBlockRecord xs' <-> PyBlockRecord r ∈ map PyBlockRecord xs)
      as Hiff by (rewrite <- Hm; apply iteration_order_elem).
    rewrite !list_elem_of_In, !in_map_iff in Hiff.
    rewrite !list_elem_of_In.
    split; intros Hr.
    + destruct (proj1 Hiff) as (r' & [= ->] & Hr'); [exists r; auto | exact Hr'].
    + destruct (proj2 Hiff) as (r' & [= ->] & Hr'); [exists r; auto | exact Hr'].
  - exfalso. destruct Hm as (_ & o & Ho & Hrec).
    apply iteration_order_elem, list_elem_of_In, in_map_iff in Ho as (r & <- & _).
    discriminate Hrec.
Qed.

Lemma BlockRecordSet_new_records `{Frozenset} (xs : list BlockRecord) :
  exists xs',
    BlockRecordSet_new (map PyBlockRecord xs) = Ok (mkBlockRecordSet (map PyBlockRecord xs'))
    /\ NoDup xs' /\ (forall r, r ∈ xs' <-> r ∈ xs).
Proof.
  destruct (iteration_order_records xs) as (xs' & Ho & Hnd & Hel).
  exists xs'. split; [|split; assumption].
  unfold BlockRecordSet_new.
  assert (forallb hashable (map PyBlockRecord xs) = true) as ->.
  { apply forallb_forall. intros o Ho'. apply in_map_iff in Ho' as (r & <- & _). reflexivity. }
  rewrite Ho. reflexivity.
Qed.

(** The canonical JSON of the set built from [xs] does not depend on the
    table when no locator is shared. *)
Lemma canonical_json_of_records `{Frozenset} (xs xs' ys : list BlockRecord) :
  NoDup xs' -> (forall r, r ∈ xs' <-> r ∈ xs) ->
  NoDup ys -> (forall r, r ∈ xs <-> r ∈ ys) ->
  (forall r r', r ∈ xs -> r' ∈ xs -> locator r = locator r' -> r = r') ->
  to_json (mkBlockRecordSet (map PyBlockRecord xs'))
  = to_json (mkBlockRecordSet (map PyBlockRecord ys)).
Proof.
  intros Hnd Hel Hndy Hxy Hinj. rewrite !to_json_records.
  do 4 f_equal. apply sorted_locator_canonical; try assumption.
  - intros r. rewrite Hel. apply Hxy.
  - intros r r' Hr Hr'. apply Hinj; apply Hel; assumption.
Qed.




(** ** The store of visible blocks *)

Lemma resolved_size h j db :
  size (visibleblocks (resolved h j db))
  = match visibleblocks db !! h with
    | Some _ => size (visibleblocks db)
    | None => if decide (h ∈ visibleblocks_unseen db)
              then size (visibleblocks db) else Datatypes.S (size (visibleblocks db))
    end.
Proof.
  unfold resolved. cbv zeta.
  destruct (visibleblocks db !! h) eqn:Hv; [reflexivity|].
  destruct (decide _); [reflexivity|].
  cbn [visibleblocks set_visibleblocks]. apply map_size_insert_None, Hv.
Qed.



(** ** save_grade *)

Lemma filter_key_absent (u : Z) (k : UsageKey) (gs : list PersistentSubsectionGrade) :
  (forall g, g ∈ gs -> ~ (user_id g = u /\ usage_key g = k)) ->
  filter (fun g => user_id g = u /\ usage_key g = k) gs = [].
Proof.
  induction gs as [|g gs IH]; intros Habs; [reflexivity|].
  rewrite filter_cons, decide_False by (apply Habs; left).
  apply IH. intros g' Hg'. apply Habs. right. exact Hg'.
Qed.

Lemma update_DoesNotExist_inv `{Frozenset} (kw : kwargs) db db1 :
  update kw db = (Raise DoesNotExist, db1) ->
  db1 = db /\ objects_get (kw_user_id kw) (kw_usage_key kw) db = (Raise DoesNotExist, db).
Proof.
  unfold update. unfold bind at 1.
  destruct (objects_get (kw_user_id kw) (kw_usage_key kw) db) as [[grade|e] d0] eqn:Hget.
  - destruct (objects_get_inv _ _ _ _ _ Hget) as (-> & _).
    unfold bind at 1, lift at 1.
    destruct (as_BlockRecordSet (kw_visible_blocks kw)) as [vb|e] eqn:Hvb.
    + unfold bind at 1.
      destruct (to_hash vb) as [h|e] eqn:Hh.
      * destruct (to_hash_Ok_inv vb h Hh) as (j & Hj & _).
        rewrite (visible_blocks_hash_of_spec vb h j db Hj Hh).
        unfold bind at 1, try_except.
        rewrite (create_from_blockrecords_spec vb h j _ Hj Hh).
        destruct (visibleblocks (resolved h j db) !! h).
        -- unfold bind at 1, save.
           destruct (_ || _ || _); [discriminate|].
           destruct (pk _); discriminate.
        -- destruct (decide (h ∈ _)).
           ++ rewrite decide_True by reflexivity. unfold bind, log_error, raise. discriminate.
           ++ unfold bind at 1, save.
              destruct (_ || _ || _); [discriminate|].
              destruct (pk _); discriminate.
      * rewrite (visible_blocks_hash_of_raises vb e db Hh).
        pose proof (to_hash_Raise_inv vb e Hh) as ->. discriminate.
    + unfold BlockRecordSet_new in Hvb.
      destruct (kw_visible_blocks kw) as [xs|s]; cbn in Hvb; [|discriminate].
      unfold BlockRecordSet_new in Hvb.
      destruct (forallb hashable xs); [discriminate|].
      injection Hvb as <-. discriminate.
  - intros [= -> <-].
    unfold objects_get in *.
    destruct (filter _ (grades db)) as [|? [|? ?]]; try discriminate Hget.
    injection Hget as <-. split; reflexivity.
Qed.


Lemma create_succeeds `{Frozenset} `{FieldValidators}
    (kw : kwargs) (db : DB) vb rs h j :
  as_BlockRecordSet (kw_visible_blocks kw) = Ok vb ->
  members vb = map PyBlockRecord rs ->
  to_json vb = Ok j -> to_hash vb = Ok h ->
  ~ conflicts h db ->
  clean_fields (new_grade kw h None) = true ->
  (forall g, g ∈ grades db ->
     ~ (user_id g = kw_user_id kw /\ usage_key g = kw_usage_key kw)) ->
  (kw_user_id kw, course_key (kw_usage_key kw), kw_usage_key kw) ∉ grades_unseen db ->
  create kw db
  = (Ok (new_grade kw h (Some (next_pk db))),
     set_grades (grades db ++ [new_grade kw h (Some (next_pk db))]) (next_pk db + 1)
                (resolved h j db)).
Proof.
  intros Hvb Hm Hj Hh Hnc Hclean Habs Hun.
  assert (is_Some (visibleblocks (resolved h j db) !! h)) as Hfk.
  { rewrite resolved_lookup. destruct (visibleblocks db !! h) eqn:Hv; [eauto|].
    destruct (decide _) as [Hu|Hu]; [|eauto]. exfalso. apply Hnc. split; assumption. }
  unfold create.
  erewrite bind_Ok by (unfold lift; rewrite Hvb; reflexivity).
  erewrite bind_Ok by (apply visible_blocks_hash_of_spec; eassumption).
  fold (new_grade kw h None).
  assert (key_taken (new_grade kw h None) (resolved h j db) = false) as Hkt.
  { apply key_taken_absent. rewrite resolved_grades. exact Habs. }
  erewrite bind_Ok.
  2:{ unfold full_clean. rewrite Hclean, Hkt.
      cbn [visible_blocks_id new_grade]. rewrite (bool_decide_eq_true_2 _ Hfk). reflexivity. }
  unfold save. rewrite Hkt.
  cbn [visible_blocks_id new_grade pk user_id course_id usage_key].
  rewrite (bool_decide_eq_true_2 _ Hfk).
  destruct (resolved_unseen h j db) as [_ ->].
  rewrite (bool_decide_eq_false_2 _ Hun).
  cbn [orb negb andb].
  rewrite resolved_grades, resolved_next_pk. reflexivity.
Qed.

Lemma update_succeeds `{Frozenset}
    (kw : kwargs) (db : DB) g0 i vb h j :
  filter (fun g => user_id g = kw_user_id kw /\ usage_key g = kw_usage_key kw)
         (grades db) = [g0] ->
  pk g0 = Some i ->
  as_BlockRecordSet (kw_visible_blocks kw) = Ok vb ->
  to_json vb = Ok j -> to_hash vb = Ok h ->
  ~ conflicts h db ->
  let written :=
    mkGrade (Some i) (user_id g0) (course_id g0) (usage_key g0)
            (kw_subtree_edited_date kw) (kw_course_version kw)
            (kw_earned_all kw) (kw_possible_all kw)
            (kw_earned_graded kw) (kw_possible_graded kw) h in
  key_taken written db = false ->
  update kw db
  = (Ok tt,
     set_grades
       (map (fun g' => if bool_decide (pk g' = Some i) then written else g') (grades db))
       (next_pk db) (resolved h j (resolved h j db))).
Proof.
  intros Hf Hpk Hvb Hj Hh Hnc written Hkt.
  assert (is_Some (visibleblocks (resolved h j db) !! h)) as Hfk.
  { rewrite resolved_lookup. destruct (visibleblocks db !! h) eqn:Hv; [eauto|].
    destruct (decide _) as [Hu|Hu]; [|eauto]. exfalso. apply Hnc. split; assumption. }
  destruct Hfk as [j' Hfk].
  assert (is_Some (visibleblocks (resolved h j (resolved h j db)) !! h)) as Hfk2.
  { rewrite resolved_lookup, Hfk. eauto. }
  unfold update.
  erewrite bind_Ok by (unfold objects_get; rewrite Hf; reflexivity).
  erewrite bind_Ok by (unfold lift; rewrite Hvb; reflexivity).
  erewrite bind_Ok by (apply visible_blocks_hash_of_spec; eassumption).
  erewrite bind_Ok.
  2:{ apply try_except_Ok. rewrite (create_from_blockrecords_spec vb h j _ Hj Hh).
      rewrite Hfk. reflexivity. }
  rewrite Hpk. fold written.
  erewrite bind_Ok; [reflexivity|].
  unfold save.
  assert (key_taken written (resolved h j (resolved h j db)) = false) as ->.
  { unfold key_taken. rewrite !resolved_grades. exact Hkt. }
  cbn [visible_blocks_id written pk].
  rewrite (bool_decide_eq_true_2 _ Hfk2).
  rewrite (bool_decide_eq_false_2 (Some i = None)) by discriminate.
  rewrite andb_false_r. cbn [orb negb].
  rewrite !resolved_grades, !resolved_next_pk. reflexivity.
Qed.

Lemma filter_key_snoc (u : Z) (k : UsageKey) (gs : list PersistentSubsectionGrade) g :
  (forall g', g' ∈ gs -> ~ (user_id g' = u /\ usage_key g' = k)) ->
  user_id g = u -> usage_key g = k ->
  filter (fun g => user_id g = u /\ usage_key g = k) (gs ++ [g]) = [g].
Proof.
  intros Habs Hu Hk. rewrite filter_app, filter_key_absent by exact Habs.
  rewrite filter_cons, decide_True by (split; assumption). reflexivity.
Qed.

Lemma map_replace_fresh (gs : list PersistentSubsectionGrade) (n : Z) g g' :
  (forall g0, g0 ∈ gs -> pk g0 <> Some n) ->
  pk g = Some n ->
  map (fun x => if bool_decide (pk x = Some n) then g' else x) (gs ++ [g]) = gs ++ [g'].
Proof.
  intros Hfresh Hpk. rewrite map_app. cbn [map].
  rewrite (bool_decide_eq_true_2 _ Hpk). f_equal.
  induction gs as [|x gs IH]; [reflexivity|]. cbn [map].
  rewrite bool_decide_eq_false_2 by (apply Hfresh; left).
  f_equal. apply IH. intros g0 Hg0. apply Hfresh. right. exact Hg0.
Qed.

(** C8.  [save_grade] is [update], followed by [create] with the same
    arguments exactly when [update] raises [DoesNotExist], which it does
    before it has changed anything; any other outcome of [update] is the
    outcome of [save_grade].  In consequence, when no transaction has a row
    for the key and none holds the hashes back, the first [save_grade]
    creates the row, a second one for the same key overwrites it, and
    [read] returns the values of the second call from the one row of the
    key. *)
Theorem save_grade_updates_or_creates `{Frozenset} `{FieldValidators} :
  (forall kw db db1, update kw db = (Ok tt, db1) -> save_grade kw db = (Ok tt, db1))
  /\ (forall kw db e db1,
        update kw db = (Raise e, db1) -> e <> DoesNotExist ->
        save_grade kw db = (Raise e, db1))
  /\ (forall kw db db1,
        update kw db = (Raise DoesNotExist, db1) ->
        db1 = db /\ save_grade kw db = (create kw ;;; ret tt)%M db)
  /\ (forall kw1 kw2 db vb1 rs1 h1 vb2 rs2 h2,
        as_BlockRecordSet (kw_visible_blocks kw1) = Ok vb1 ->
        members vb1 = map PyBlockRecord rs1 -> to_hash vb1 = Ok h1 ->
        as_BlockRecordSet (kw_visible_blocks kw2) = Ok vb2 ->
        members vb2 = map PyBlockRecord rs2 -> to_hash vb2 = Ok h2 ->
        kw_user_id kw2 = kw_user_id kw1 ->
        kw_usage_key kw2 = kw_usage_key kw1 ->
        (forall g, g ∈ grades db ->
           ~ (user_id g = kw_user_id kw1 /\ usage_key g = kw_usage_key kw1)) ->
        (forall g, g ∈ grades db -> pk g <> Some (next_pk db)) ->
        (kw_user_id kw1, course_key (kw_usage_key kw1), kw_usage_key kw1)
          ∉ grades_unseen db ->
        h1 ∉ visibleblocks_unseen db -> h2 ∉ visibleblocks_unseen db ->
        clean_fields (new_grade kw1 h1 None) = true ->
        exists db1 db2,
          save_grade kw1 db = (Ok tt, db1)
          /\ read (kw_user_id kw1) (kw_usage_key kw1) db1
             = (Ok (new_grade kw1 h1 (Some (next_pk db))), db1)
          /\ save_grade kw2 db1 = (Ok tt, db2)
          /\ read (kw_user_id kw1) (kw_usage_key kw1) db2
             = (Ok (new_grade kw2 h2 (Some (next_pk db))), db2)
          /\ grades db1 = grades db ++ [new_grade kw1 h1 (Some (next_pk db))]
          /\ grades db2 = grades db ++ [new_grade kw2 h2 (Some (next_pk db))]).
Proof.
  split; [|split; [|split]].
  - intros kw db db1 Hup. unfold save_grade. apply try_except_Ok, Hup.
  - intros kw db e db1 Hup Hne. unfold save_grade.
    apply try_except_passed; assumption.
  - intros kw db db1 Hup.
    destruct (update_DoesNotExist_inv kw db db1 Hup) as [-> _].
    split; [reflexivity|]. unfold save_grade. apply try_except_caught, Hup.
  - intros kw1 kw2 db vb1 rs1 h1 vb2 rs2 h2
      Hvb1 Hm1 Hh1 Hvb2 Hm2 Hh2 Hu Hk Habs Hfresh Hun Hn1 Hn2 Hclean.
    destruct (to_hash_Ok_inv vb1 h1 Hh1) as (j1 & Hj1 & _).
    destruct (to_hash_Ok_inv vb2 h2 Hh2) as (j2 & Hj2 & _).
    set (g1 := new_grade kw1 h1 (Some (next_pk db))).
    set (g2 := new_grade kw2 h2 (Some (next_pk db))).
    set (db1 := set_grades (grades db ++ [g1]) (next_pk db + 1) (resolved h1 j1 db)).
    assert (save_grade kw1 db = (Ok tt, db1)) as Hs1.
    { unfold save_grade. erewrite try_except_caught.
      2:{ unfold update. erewrite bind_Raise; [reflexivity|].
          apply objects_get_absent, Habs. }
      erewrite bind_Ok; [reflexivity|].
      eapply create_succeeds; try eassumption. intros [_ Hc]. contradiction. }
    assert (forall gs n d, visibleblocks_unseen (set_grades gs n d) = visibleblocks_unseen d)
      as Hsetu by reflexivity.
    assert (filter (fun g => user_id g = kw_user_id kw2 /\ usage_key g = kw_usage_key kw2)
              (grades db1) = [g1]) as Hf1.
    { rewrite Hu, Hk. apply filter_key_snoc; [exact Habs | reflexivity..]. }
    set (db2 := set_grades (grades db ++ [g2]) (next_pk db1)
                  (resolved h2 j2 (resolved h2 j2 db1))).
    assert (update kw2 db1 = (Ok tt, db2)) as Hup2.
    { erewrite (update_succeeds kw2 db1 g1 (next_pk db) vb2 h2 j2);
        [ | exact Hf1 | reflexivity | exact Hvb2 | exact Hj2 | exact Hh2 | | ].
      - unfold db2. do 2 f_equal.
        cbn [grades set_grades db1 user_id course_id usage_key g1 new_grade].
        rewrite <- Hu, <- Hk. fold g2.
        apply map_replace_fresh; [exact Hfresh | reflexivity].
      - intros [_ Hc]. apply Hn2.
        unfold db1 in Hc. rewrite Hsetu in Hc.
        destruct (resolved_unseen h1 j1 db) as [Hru _]. rewrite Hru in Hc. exact Hc.
      - unfold key_taken. apply not_true_is_false. intros Hex.
        apply existsb_exists in Hex as (g & Hin & Hg).
        apply andb_prop in Hg as [Hs Ho].
        cbn [grades set_grades db1] in Hin. apply in_app_or in Hin as [Hin | [<- | []]].
        + unfold same_key in Hs. apply andb_prop in Hs as [Hs Hgk].
          apply andb_prop in Hs as [Hgu _]. apply bool_decide_eq_true in Hgu, Hgk.
          cbn [user_id usage_key g1 new_grade] in Hgu, Hgk.
          apply (Habs g); [apply list_elem_of_In, Hin | split; assumption].
        + unfold other_row in Ho. cbn [pk g1 new_grade] in Ho.
          rewrite bool_decide_eq_true_2 in Ho by reflexivity. discriminate Ho. }
    exists db1, db2.
    split; [exact Hs1|].
    split; [unfold read, objects_get; rewrite <- Hu, <- Hk, Hf1; reflexivity|].
    split; [unfold save_grade; apply try_except_Ok, Hup2|].
    split; [|split; reflexivity].
    unfold read, objects_get. cbn [grades set_grades db2].
    rewrite filter_key_snoc; [reflexivity | exact Habs | exact Hu | exact Hk].
Qed.

(** ** Decoding what [dumps] has written *)

Lemma scanstring_escape_char (c : ascii) (tail : list ascii) :
  scanstring (escape_char c ++ tail)
  = '(s, r) ← scanstring tail; Ok (String c s, r).
Proof.
  destruct c as [[] [] [] [] [] [] [] []]; reflexivity.
Qed.

Lemma scanstring_encoded (s : string) (rest : list ascii) :
  scanstring (flat_map escape_char (chars s) ++ dquote :: rest) = Ok (s, rest).
Proof.
  induction s as [|c s IH]; [reflexivity|].
  cbn [chars list_ascii_of_string flat_map]. fold (chars s).
  rewrite <- app_assoc, scanstring_escape_char, IH. reflexivity.
Qed.

Lemma scan_once_string (fuel : nat) (s : string) (rest : list ascii) :
  scan_once (Datatypes.S fuel) (encode_basestring_ascii s ++ rest) = Ok (JStr s, rest).
Proof.
  unfold encode_basestring_ascii. cbn [scan_once app].
  change (Ascii.eqb dquote dquote) with true. cbv iota.
  rewrite <- app_assoc. cbn [app]. rewrite scanstring_encoded. reflexivity.
Qed.



Lemma span_digits_uint (d : Decimal.uint) (rest : list ascii) :
  not_digit_next rest ->
  span_digits (uint_chars d ++ rest) = (uint_chars d, rest).
Proof.
  intros Hrest. unfold uint_chars.
  induction d as [|d IH|d IH|d IH|d IH|d IH|d IH|d IH|d IH|d IH|d IH];
    cbn [NilEmpty.string_of_uint chars list_ascii_of_string app span_digits];
    [ destruct rest as [|c rest]; [reflexivity|];
      cbn [span_digits]; cbn in Hrest; rewrite Hrest; reflexivity
    | fold (chars (NilEmpty.string_of_uint d));
      change (is_digit _) with true; cbv iota; rewrite IH; reflexivity .. ].
Qed.


Lemma horner_uint_acc (d : Decimal.uint) (acc : positive) :
  fold_left horner (uint_chars d) (Zpos acc) = Zpos (Pos.of_uint_acc d acc).
Proof.
  unfold uint_chars. revert acc.
  induction d as [|d IH|d IH|d IH|d IH|d IH|d IH|d IH|d IH|d IH|d IH]; intros acc;
    cbn [NilEmpty.string_of_uint chars list_ascii_of_string fold_left Pos.of_uint_acc];
    [reflexivity|..];
    fold (chars (NilEmpty.string_of_uint d));
    match goal with
    | |- fold_left horner _ (horner _ ?c) = Zpos (Pos.of_uint_acc _ ?p) =>
        replace (horner (Zpos acc) c) with (Zpos p)
          by (unfold horner;
              let v := eval vm_compute in (ord c) in change (ord c) with v; lia)
    end; apply IH.
Qed.

Lemma horner_uint (d : Decimal.uint) :
  fold_left horner (uint_chars d) 0 = Z.of_N (Pos.of_uint d).
Proof.
  unfold uint_chars.
  induction d as [|d IH|d IH|d IH|d IH|d IH|d IH|d IH|d IH|d IH|d IH];
    cbn [NilEmpty.string_of_uint chars list_ascii_of_string fold_left Pos.of_uint];
    [reflexivity | exact IH | ..];
    fold (chars (NilEmpty.string_of_uint d)); fold (uint_chars d);
    match goal with
    | |- fold_left horner _ (horner 0 ?c) = _ =>
        let v := eval cbv in (horner 0 c) in change (horner 0 c) with v
    end;
    rewrite horner_uint_acc; reflexivity.
Qed.

Lemma to_uint_head (p : positive) :
  Pos.to_uint p <> Decimal.Nil /\ forall d, Pos.to_uint p <> Decimal.D0 d.
Proof.
  split; [apply DecimalPos.Unsigned.to_uint_nonnil|].
  intros d Hd.
  assert (Decimal.unorm (Pos.to_uint p) = Pos.to_uint p) as Hn.
  { rewrite <- DecimalPos.Unsigned.to_of, DecimalPos.Unsigned.of_to. reflexivity. }
  rewrite Hd in Hn. rewrite DecimalFacts.unorm_D0 in Hn.
  unfold Decimal.unorm in Hn.
  destruct (Decimal.nzhead d) eqn:Hz;
    try (exact (DecimalFacts.nzhead_nonzero d d (eq_trans Hz Hn))).
  apply (DecimalPos.Unsigned.to_uint_nonzero p). rewrite Hd. symmetry. exact Hn.
Qed.


Lemma delimiter_not_digit (c : ascii) (rest : list ascii) :
  delimiter c -> not_digit_next (c :: rest).
Proof. intros [-> | ->]; reflexivity. Qed.

Lemma int_of_digits_uint (d : Decimal.uint) :
  int_of_digits (uint_chars d) = Z.of_N (Pos.of_uint d).
Proof. apply horner_uint. Qed.

Lemma scan_number_tail (sign ipart : list ascii) (c : ascii) (rest : list ascii) :
  delimiter c ->
  (let '(frac, cs3) :=
     match c :: rest with
     | d :: r2 =>
         if Ascii.eqb d "."%char then
           match span_digits r2 with
           | ([], _) => ([], c :: rest)
           | (ds, rest') => (d :: ds, rest')
           end
         else ([], c :: rest)
     | [] => ([], c :: rest)
     end in
   let '(expo, cs4) :=
     match cs3 with
     | e :: r3 =>
         if Ascii.eqb e "e"%char || Ascii.eqb e "E"%char then
           let '(sg, r4) :=
             match r3 with
             | g :: r' =>
                 if Ascii.eqb g "+"%char || Ascii.eqb g "-"%char
                 then ([g], r') else ([], r3)
             | [] => ([], r3)
             end in
           match span_digits r4 with
           | ([], _) => ([], cs3)
           | (ds, rest') => (e :: sg ++ ds, rest')
           end
         else ([], cs3)
     | [] => ([], cs3)
     end in
   match frac, expo with
   | [], [] =>
       let n := int_of_digits ipart in
       Ok (JInt (match sign with [] => n | _ => - n end), cs4)
   | _, _ => Ok (JFloat (sign ++ ipart ++ frac ++ expo), cs4)
   end)
  = Ok (JInt (match sign with [] => int_of_digits ipart | _ => - int_of_digits ipart end),
        c :: rest).
Proof. intros [-> | ->]; reflexivity. Qed.

Lemma scan_number_digits (k : ascii) (ds : list ascii) (c : ascii) (rest : list ascii) :
  is_digit k = true -> Ascii.eqb k "0"%char = false ->
  span_digits (ds ++ c :: rest) = (ds, c :: rest) ->
  delimiter c ->
  scan_number (k :: ds ++ c :: rest) = Ok (JInt (int_of_digits (k :: ds)), c :: rest)
  /\ scan_number ("-"%char :: k :: ds ++ c :: rest)
     = Ok (JInt (- int_of_digits (k :: ds)), c :: rest).
Proof.
  intros Hk H0 Hspan Hc.
  assert (Ascii.eqb k "-"%char = false) as Hminus.
  { destruct (Ascii.eqb_spec k "-"%char) as [->|]; [discriminate Hk | reflexivity]. }
  split.
  - unfold scan_number. rewrite Hminus, Hk, H0. cbn [negb span_digits].
    rewrite Hk, Hspan. apply (scan_number_tail [] (k :: ds) c rest Hc).
  - unfold scan_number. change (Ascii.eqb "-" "-") with true. cbv iota.
    rewrite Hk, H0. cbn [negb span_digits].
    rewrite Hk, Hspan. apply (scan_number_tail ["-"%char] (k :: ds) c rest Hc).
Qed.

Lemma scan_literal_digit (k : ascii) (cs : list ascii) :
  is_digit k = true ->
  scan_literal (k :: cs) = scan_number (k :: cs)
  /\ scan_literal ("-"%char :: k :: cs) = scan_number ("-"%char :: k :: cs).
Proof.
  intros Hk.
  assert (forall x, is_digit x = false -> Ascii.eqb x k = false) as Hne.
  { intros x Hx. destruct (Ascii.eqb_spec x k) as [->|]; [congruence | reflexivity]. }
  unfold scan_literal. cbn [chars list_ascii_of_string strip_prefix].
  rewrite !Hne by reflexivity.
  split; reflexivity.
Qed.

Lemma encode_int_shape (n : Z) :
  n = 0 /\ encode_int n = ["0"%char]
  \/ exists k ds,
       is_digit k = true /\ Ascii.eqb k "0"%char = false
       /\ (forall rest, not_digit_next rest -> span_digits (ds ++ rest) = (ds, rest))
       /\ (0 < n /\ encode_int n = k :: ds /\ int_of_digits (k :: ds) = n
           \/ n < 0 /\ encode_int n = "-"%char :: k :: ds /\ - int_of_digits (k :: ds) = n).
Proof.
  destruct n as [|p|p]; [left; split; reflexivity | right | right].
  all: destruct (to_uint_head p) as [Hnil Hzero].
  all: pose proof (int_of_digits_uint (Pos.to_uint p)) as Hval.
  all: rewrite DecimalPos.Unsigned.of_to in Hval.
  all: unfold encode_int; cbn [Z.to_int NilZero.string_of_int].
  all: unfold NilZero.string_of_uint.
  all: destruct (Pos.to_uint p) as [|d|d|d|d|d|d|d|d|d|d] eqn:Hd;
    [ contradiction | exfalso; exact (Hzero d eq_refl) | .. ].
  all: match type of Hval with
       | int_of_digits (uint_chars ?D) = _ =>
           let l := eval cbn [uint_chars chars NilEmpty.string_of_uint
                              list_ascii_of_string] in (uint_chars D) in
           match l with ?k :: _ => exists k, (uint_chars d) end
       end;
    (split; [reflexivity|]); (split; [reflexivity|]);
    (split; [intros rest Hrest; apply span_digits_uint, Hrest|]).
  all: first
    [ left; split; [lia|]; split; [reflexivity | exact Hval]
    | right; split; [lia|]; split; [reflexivity|];
      transitivity (- Z.of_N (N.pos p)); [f_equal; exact Hval | reflexivity] ].
Qed.

Lemma scan_once_int (fuel : nat) (n : Z) (c : ascii) (rest : list ascii) :
  delimiter c ->
  scan_once (Datatypes.S fuel) (skip_ws (encode_int n ++ c :: rest))
  = Ok (JInt n, c :: rest).
Proof.
  intros Hc.
  destruct (encode_int_shape n) as [[-> ->] | (k & ds & Hk & H0 & Hspan & Hn)].
  - destruct Hc as [-> | ->]; reflexivity.
  - assert (is_ws k = false) as Hws.
    { destruct (is_ws k) eqn:E; [|reflexivity].
      unfold is_ws, is_digit in *. lia. }
    assert (forall x, is_digit x = false -> Ascii.eqb k x = false) as Hne.
    { intros x Hx. destruct (Ascii.eqb_spec k x) as [->|]; [congruence | reflexivity]. }
    specialize (Hspan (c :: rest) (delimiter_not_digit c rest Hc)).
    destruct (scan_number_digits k ds c rest Hk H0 Hspan Hc) as [Hpos Hneg].
    destruct (scan_literal_digit k (ds ++ c :: rest) Hk) as [Hlp Hln].
    destruct Hn as [(_ & -> & <-) | (_ & -> & <-)].
    + cbn [app skip_ws]. rewrite Hws. cbn [scan_once].
      rewrite !Hne by reflexivity. rewrite Hlp. exact Hpos.
    + cbn [app skip_ws]. change (is_ws "-") with false. cbv iota.
      cbn [scan_once]. change (Ascii.eqb "-" dquote) with false.
      change (Ascii.eqb "-" "{") with false. change (Ascii.eqb "-" "[") with false.
      cbv iota. rewrite Hln. exact Hneg.
Qed.



Lemma dumps_chars_asdict (r : BlockRecord) : dumps_chars (_asdict r) = record_chars r.
Proof.
  unfold record_chars.
  change (dumps_chars (_asdict r)) with
    (chars "{"
     ++ ((encode_basestring_ascii "locator" ++ chars ":" ++ encode_basestring_ascii (locator r))
         ++ chars ","
         ++ (encode_basestring_ascii "max_score" ++ chars ":" ++ encode_int (max_score r))
         ++ chars ","
         ++ (encode_basestring_ascii "weight" ++ chars ":" ++ encode_int (weight r)))
     ++ chars "}").
  cbn [chars list_ascii_of_string]. rewrite <- !app_assoc. reflexivity.
Qed.

Lemma JSONObject_member (fuel : nat) (k : string) (vchars : list ascii) (v : json)
    (d : ascii) (rest : list ascii) :
  scan_once fuel (skip_ws (vchars ++ d :: rest)) = Ok (v, d :: rest) ->
  is_ws d = false ->
  JSONObject (Datatypes.S fuel)
    (encode_basestring_ascii k ++ ":"%char :: vchars ++ d :: rest)
  = if Ascii.eqb d ","%char then
      '(kvs, r5) ← JSONObject fuel (skip_ws rest); Ok ((k, v) :: kvs, r5)
    else if Ascii.eqb d "}"%char then Ok ([(k, v)], rest)
    else Raise ValueError.
Proof.
  intros Hv Hd. unfold encode_basestring_ascii.
  cbn [JSONObject app]. change (Ascii.eqb dquote dquote) with true. cbn [negb].
  rewrite <- app_assoc. cbn [app]. rewrite scanstring_encoded.
  cbn [mbind result_bind skip_ws].
  change (is_ws ":") with false. cbv iota.
  change (Ascii.eqb ":" ":") with true. cbn [negb].
  rewrite Hv. cbn [mbind result_bind skip_ws]. rewrite Hd. reflexivity.
Qed.

Lemma skip_ws_string (s : string) (rest : list ascii) :
  skip_ws (encode_basestring_ascii s ++ rest) = encode_basestring_ascii s ++ rest.
Proof. reflexivity. Qed.

Lemma scan_once_object (fuel : nat) (k : string) (rest : list ascii) :
  scan_once (Datatypes.S fuel) ("{"%char :: encode_basestring_ascii k ++ rest)
  = '(kvs, r) ← JSONObject fuel (encode_basestring_ascii k ++ rest); Ok (JObj kvs, r).
Proof. reflexivity. Qed.

Lemma record_chars_app (r : BlockRecord) (rest : list ascii) :
  record_chars r ++ rest
  = "{"%char
    :: encode_basestring_ascii "locator" ++ ":"%char
    :: encode_basestring_ascii (locator r) ++ ","%char
    :: (encode_basestring_ascii "max_score" ++ ":"%char
    :: encode_int (max_score r) ++ ","%char
    :: (encode_basestring_ascii "weight" ++ ":"%char
    :: encode_int (weight r) ++ "}"%char :: rest)).
Proof.
  unfold record_chars. cbn [app].
  repeat (rewrite <- app_assoc; cbn [app]). reflexivity.
Qed.

Lemma scan_once_record (fuel : nat) (r : BlockRecord) (rest : list ascii) :
  scan_once (5 + fuel) (record_chars r ++ rest) = Ok (canonical_dict r, rest).
Proof.
  rewrite record_chars_app.
  change (5 + fuel)%nat with (Datatypes.S (Datatypes.S (Datatypes.S (Datatypes.S (Datatypes.S fuel))))).
  rewrite scan_once_object.
  rewrite (JSONObject_member _ "locator" _ (JStr (locator r)));
    [ | rewrite skip_ws_string; apply scan_once_string | reflexivity ].
  change (Ascii.eqb "," ",") with true. cbv iota.
  rewrite skip_ws_string.
  rewrite (JSONObject_member _ "max_score" _ (JInt (max_score r)));
    [ | apply scan_once_int; left; reflexivity | reflexivity ].
  change (Ascii.eqb "," ",") with true. cbv iota.
  rewrite skip_ws_string.
  rewrite (JSONObject_member _ "weight" _ (JInt (weight r)));
    [ | apply scan_once_int; right; reflexivity | reflexivity ].
  reflexivity.
Qed.

Lemma record_chars_head (r : BlockRecord) :
  exists tl, record_chars r = "{"%char :: tl.
Proof. eexists. reflexivity. Qed.

Lemma join_records_head (r : BlockRecord) (l : list BlockRecord) :
  exists tl, join (chars ",") (map record_chars (r :: l)) = "{"%char :: tl.
Proof.
  destruct l as [|r' l]; cbn [map join]; eexists; unfold record_chars; reflexivity.
Qed.

Lemma JSONArray_records (fuel : nat) (l : list BlockRecord) (r : BlockRecord)
    (rest : list ascii) :
  JSONArray (length l + 6 + fuel)
    (join (chars ",") (map record_chars (r :: l)) ++ "]"%char :: rest)
  = Ok (map canonical_dict (r :: l), rest).
Proof.
  revert r. induction l as [|r' l IH]; intros r.
  - change (length (@nil BlockRecord) + 6 + fuel)%nat with (Datatypes.S (5 + fuel)).
    cbn [map join JSONArray].
    rewrite (scan_once_record fuel r ("]"%char :: rest)). reflexivity.
  - replace (length (r' :: l) + 6 + fuel)%nat
      with (Datatypes.S (5 + (length l + 1 + fuel))) by (cbn [length]; lia).
    change (join (chars ",") (map record_chars (r :: r' :: l)))
      with (record_chars r ++ chars "," ++ join (chars ",") (map record_chars (r' :: l))).
    rewrite <- !app_assoc. cbn [JSONArray].
    rewrite scan_once_record. cbn [mbind result_bind chars list_ascii_of_string app skip_ws].
    change (is_ws ",") with false. cbv iota.
    change (Ascii.eqb "," ",") with true. cbv iota.
    destruct (join_records_head r' l) as (tl & Htl). rewrite Htl at 1.
    cbn [app skip_ws]. change (is_ws "{") with false. cbv iota.
    rewrite app_comm_cons, <- Htl.
    replace (5 + (length l + 1 + fuel))%nat with (length l + 6 + fuel)%nat by lia.
    rewrite IH. reflexivity.
Qed.

Lemma join_records_length (r : BlockRecord) (l : list BlockRecord) :
  (length l + 6 <= length (join (chars ",") (map record_chars (r :: l))))%nat.
Proof.
  revert r. induction l as [|r' l IH]; intros r.
  - cbn [map join length Nat.add]. unfold record_chars, encode_basestring_ascii.
    repeat (rewrite length_app || rewrite length_cons). lia.
  - change (join (chars ",") (map record_chars (r :: r' :: l)))
      with (record_chars r ++ chars "," ++ join (chars ",") (map record_chars (r' :: l))).
    rewrite !length_app. specialize (IH r').
    change (length (chars ",")) with 1%nat. cbn [length]. lia.
Qed.

Lemma loads_dumps_records (l : list BlockRecord) :
  loads (dumps (JArr (map _asdict l))) = Ok (JArr (map canonical_dict l)).
Proof.
  unfold loads, dumps. rewrite chars_string_of_list.
  cbn [dumps_chars]. rewrite map_map.
  rewrite (map_ext _ record_chars dumps_chars_asdict).
  destruct l as [|r l].
  - reflexivity.
  - cbn [chars list_ascii_of_string app skip_ws].
    change (is_ws "[") with false. cbv iota.
    cbn [scan_once].
    change (Ascii.eqb "[" dquote) with false.
    change (Ascii.eqb "[" "{") with false.
    change (Ascii.eqb "[" "[") with true. cbv iota.
    pose proof (join_records_length r l) as Hlen.
    remember (length ("["%char :: join [","%char] (map record_chars (r :: l)) ++ ["]"%char]))
      as fuel eqn:Hfuel.
    assert (exists f, fuel = (length l + 6 + f)%nat) as (f & ->).
    { exists (fuel - (length l + 6))%nat. subst fuel.
      cbn [length]. rewrite length_app. cbn [length].
      change [","%char] with (chars ",") in *. lia. }
    clear Hfuel.
    destruct (join_records_head r l) as (tl & Htl).
    change [","%char] with (chars ",").
    rewrite Htl at 1.
    cbn [app skip_ws]. change (is_ws "{") with false. cbv iota.
    change (Ascii.eqb "{" "]") with false. cbv iota.
    rewrite app_comm_cons, <- Htl.
    rewrite JSONArray_records. reflexivity.
Qed.

Lemma BlockRecord_of_canonical_dict (r : BlockRecord) :
  BlockRecord_of_dict (canonical_dict r) = Ok r.
Proof. destruct r as [l w m]. vm_compute. reflexivity. Qed.

Lemma mapM_BlockRecord_of_dict (l : list BlockRecord) :
  mapM_result BlockRecord_of_dict (map canonical_dict l) = Ok l.
Proof.
  induction l as [|r l IH]; [reflexivity|].
  cbn [map mapM_result]. rewrite BlockRecord_of_canonical_dict, IH. reflexivity.
Qed.


(* ===================================================================== *)
(** * The theorems at the sample data *)

Ltac by_decide :=
  match goal with |- ?P => apply (bool_decide_unpack P); vm_compute; exact I end.
Ltac by_compute := vm_compute; reflexivity.



Lemma update_conflict_witness :
  let vb := mkBlockRecordSet blocks1 in
  let db1 := record_event (GetOrCreate blocks1_hash blocks1_json) raced_db in
  let db2 := record_event (GetOrCreate blocks1_hash blocks1_json) db1 in
  objects_get (kw_user_id kw_second) (kw_usage_key kw_second) raced_db
    = (Ok grade_row, raced_db)
  /\ @as_BlockRecordSet frozenset_forward (kw_visible_blocks kw_second) = Ok vb
  /\ @visible_blocks_hash_of frozenset_forward vb raced_db = (Ok blocks1_hash, db1)
  /\ @create_from_blockrecords frozenset_forward (ASet vb) db1 = (Raise IntegrityError, db2)
  /\ exists db',
       @update frozenset_forward kw_second raced_db
         = (Raise IntegrityError, db')
       /\ journal db' = journal db2 ++ [LogError race_message]
       /\ grades db' = grades raced_db
       /\ next_pk db' = next_pk raced_db
       /\ visibleblocks db' = visibleblocks raced_db.
Proof.
  intros vb db1 db2.
  assert (objects_get (kw_user_id kw_second) (kw_usage_key kw_second) raced_db
          = (Ok grade_row, raced_db)) as H1 by by_compute.
  assert (@as_BlockRecordSet frozenset_forward (kw_visible_blocks kw_second) = Ok vb)
    as H2 by by_compute.
  assert (@visible_blocks_hash_of frozenset_forward vb raced_db = (Ok blocks1_hash, db1))
    as H3 by by_compute.
  assert (@create_from_blockrecords frozenset_forward (ASet vb) db1
          = (Raise IntegrityError, db2)) as H4 by by_compute.
  repeat (split; [assumption|]).
  exact (@update_conflict_is_logged_and_raised frozenset_forward
           kw_second raced_db db1 db2 grade_row vb blocks1_hash H1 H2 H3 H4).
Defined.


Lemma update_absent_and_create_present_witness :
  let vb := mkBlockRecordSet blocks1 in
  (* no row: update *)
  ((forall g, g ∈ grades empty_db ->
      ~ (user_id g = kw_user_id kw_first /\ usage_key g = kw_usage_key kw_first))
   /\ @update frozenset_forward kw_first empty_db = (Raise DoesNotExist, empty_db))
  (* a row this transaction sees: create *)
  /\ (grade_row ∈ grades one_row_db
      /\ exists db',
           @create frozenset_forward declared_validators kw_first one_row_db
             = (Raise ValidationError, db')
           /\ grades db' = grades one_row_db /\ next_pk db' = next_pk one_row_db)
  (* a row of another transaction: create *)
  /\ ((kw_user_id kw_first, course_key (kw_usage_key kw_first), kw_usage_key kw_first)
        ∈ grades_unseen raced_key_db
      /\ exists e db',
           @create frozenset_forward declared_validators kw_first raced_key_db
             = (Raise e, db')
           /\ (e = ValidationError \/ e = IntegrityError)
           /\ grades db' = grades raced_key_db /\ next_pk db' = next_pk raced_key_db).
Proof.
  intros vb.
  assert (forall g, g ∈ grades empty_db ->
      ~ (user_id g = kw_user_id kw_first /\ usage_key g = kw_usage_key kw_first)) as Habs.
  { intros g Hg. cbn in Hg. apply elem_of_nil in Hg. contradiction. }
  assert (grade_row ∈ grades one_row_db) as Hin by (left).
  assert ((kw_user_id kw_first, course_key (kw_usage_key kw_first), kw_usage_key kw_first)
            ∈ grades_unseen raced_key_db) as Hun by (left).
  split; [split; [exact Habs|]|split; [split; [exact Hin|]|split; [exact Hun|]]].
  - exact (proj1 (@update_absent_and_create_present_fail frozenset_forward
                    declared_validators kw_first empty_db) Habs).
  - exact (proj1 (proj2 (@update_absent_and_create_present_fail frozenset_forward
                    declared_validators kw_first one_row_db))
             vb [mkBlockRecord "b1" 1 10] grade_row
             eq_refl eq_refl Hin eq_refl eq_refl eq_refl).
  - exact (proj2 (proj2 (@update_absent_and_create_present_fail frozenset_forward
                    declared_validators kw_first raced_key_db))
             vb [mkBlockRecord "b1" 1 10] eq_refl eq_refl Hun).
Defined.

Lemma save_grade_witness :
  let vb := mkBlockRecordSet blocks1 in
  let row1 := new_grade kw_first blocks1_hash (Some 1) in
  let row2 := new_grade kw_second blocks1_hash (Some 1) in
  (* the three outcomes of update *)
  (exists db1,
     @update frozenset_forward kw_second one_row_db = (Ok tt, db1)
     /\ @save_grade frozenset_forward declared_validators kw_second one_row_db = (Ok tt, db1))
  /\ (exists db1,
        @update frozenset_forward kw_second raced_db = (Raise IntegrityError, db1)
        /\ @save_grade frozenset_forward declared_validators kw_second raced_db
           = (Raise IntegrityError, db1))
  /\ (@update frozenset_forward kw_first empty_db = (Raise DoesNotExist, empty_db)
      /\ @save_grade frozenset_forward declared_validators kw_first empty_db
         = (@create frozenset_forward declared_validators kw_first ;;; ret tt)%M empty_db)
  (* create, then update, then read *)
  /\ (earned_all row1 <> earned_all row2
      /\ exists db1 db2,
          @save_grade frozenset_forward declared_validators kw_first empty_db = (Ok tt, db1)
          /\ read 42 seq1 db1 = (Ok row1, db1)
          /\ @save_grade frozenset_forward declared_validators kw_second db1 = (Ok tt, db2)
          /\ read 42 seq1 db2 = (Ok row2, db2)
          /\ grades db1 = [row1]
          /\ grades db2 = [row2]).
Proof.
  intros vb row1 row2.
  pose proof (@save_grade_updates_or_creates frozenset_forward declared_validators)
    as (Hok & Hother & Hnone & Hrun).
  split; [|split; [|split]].
  - eexists. split; [by_compute|]. apply Hok. by_compute.
  - eexists. split; [by_compute|]. apply Hother; [by_compute | discriminate].
  - split; [by_compute|]. apply (Hnone kw_first empty_db empty_db). by_compute.
  - split.
    + intros Heq. assert (PrimFloat.eqb (earned_all row1) (earned_all row2) = true) as Hb
        by (rewrite Heq; by_compute).
      vm_compute in Hb. discriminate Hb.
    + apply (Hrun kw_first kw_second empty_db vb [mkBlockRecord "b1" 1 10] blocks1_hash
               vb [mkBlockRecord "b1" 1 10] blocks1_hash).
      * reflexivity.
      * reflexivity.
      * by_compute.
      * reflexivity.
      * reflexivity.
      * by_compute.
      * reflexivity.
      * reflexivity.
      * intros g Hg. cbn in Hg. apply elem_of_nil in Hg. contradiction.
      * intros g Hg. cbn in Hg. apply elem_of_nil in Hg. contradiction.
      * cbn. apply not_elem_of_nil.
      * cbn. apply not_elem_of_empty.
      * cbn. apply not_elem_of_empty.
      * by_compute.
Defined.

(* ===================================================================== *)
(** * Further properties of the code *)

(** ** The memo fields *)

Lemma memo_coherent_init (s : BlockRecordSet) : memo_coherent (Memo.__init__ s).
Proof.
  split; [|split]; cbn; intros; try discriminate.
  destruct H as [x Hx]. discriminate.
Qed.

Lemma memo_coherent_mk (s : BlockRecordSet) (oj oh : option string) :
  (forall j, oj = Some j -> to_json s = Ok j) ->
  (forall h, oh = Some h -> to_hash s = Ok h) ->
  (is_Some oh -> is_Some oj) ->
  memo_coherent (Memo.mk s oj oh).
Proof. intros H1 H2 H3. split; [|split]; assumption. Qed.

(** X1. [__init__] leaves the memo fields coherent.  On an object whose
    memo fields are coherent the memoising [to_json] returns what the
    computation on the members returns, keeps the members and the
    coherence, stores a computed text in [_json], and a second call returns
    the same and leaves the object as it is. *)
Theorem memo_to_json_computes_once (s : BlockRecordSet) (self : Memo.t) :
  memo_coherent (Memo.__init__ s)
  /\ (memo_coherent self ->
      exists self',
        Memo.to_json self = (to_json (Memo.frozen self), self')
        /\ Memo.frozen self' = Memo.frozen self
        /\ memo_coherent self'
        /\ Memo.to_json self' = (to_json (Memo.frozen self), self')
        /\ (forall j, to_json (Memo.frozen self) = Ok j -> Memo._json self' = Some j)).
Proof.
  split; [apply memo_coherent_init|]. clear s.
  intros (Hj & Hh & Hjh).
  destruct self as [s oj oh]. cbn [Memo.frozen Memo._json Memo._hash] in *.
  unfold Memo.to_json. cbn [Memo.frozen Memo._json Memo._hash].
  destruct oj as [j|].
  - rewrite (Hj j eq_refl). eexists. split; [reflexivity|].
    cbn [Memo.frozen Memo._json Memo._hash].
    split; [reflexivity|]. split; [apply memo_coherent_mk; assumption|].
    split; [reflexivity|]. intros j' Hx. inversion Hx. reflexivity.
  - destruct (to_json s) as [j|e] eqn:E.
    + eexists. split; [reflexivity|]. cbn [Memo.frozen Memo._json Memo._hash].
      split; [reflexivity|]. split; [|split; [reflexivity|]].
      * apply memo_coherent_mk; [|assumption|].
        -- intros j' Hx. inversion Hx. subst. exact E.
        -- intros _. eexists; reflexivity.
      * intros j' Hx. inversion Hx. reflexivity.
    + eexists. split; [reflexivity|]. cbn [Memo.frozen Memo._json Memo._hash].
      rewrite E. split; [reflexivity|].
      split; [apply memo_coherent_mk; [intros ? Hx; discriminate Hx | assumption..]|].
      split; [reflexivity|]. intros j' Hx. discriminate Hx.
Qed.

(** X2. On such an object the memoising [to_hash] returns the base64 SHA-256
    that the computation on the members returns and keeps the coherence; a
    computed hash fills both fields, and after it [to_hash] and [to_json]
    answer from the fields and change nothing. *)
Theorem memo_to_hash_computes_once (self : Memo.t) :
  memo_coherent self ->
  exists self',
    Memo.to_hash self = (to_hash (Memo.frozen self), self')
    /\ Memo.frozen self' = Memo.frozen self
    /\ memo_coherent self'
    /\ Memo.to_hash self' = (to_hash (Memo.frozen self), self')
    /\ Memo.to_json self' = (to_json (Memo.frozen self), self')
    /\ (forall h, to_hash (Memo.frozen self) = Ok h ->
        Memo._hash self' = Some h
        /\ exists j, Memo._json self' = Some j /\ to_json (Memo.frozen self) = Ok j).
Proof.
  intros (Hj & Hh & Hjh).
  destruct self as [s oj oh]. cbn [Memo.frozen Memo._json Memo._hash] in *.
  unfold Memo.to_hash, Memo.to_json. cbn [Memo.frozen Memo._json Memo._hash].
  destruct oh as [h|].
  - destruct (Hjh ltac:(eexists; reflexivity)) as [j ->].
    pose proof (Hj j eq_refl) as Ej. pose proof (Hh h eq_refl) as Eh.
    rewrite Eh, Ej. eexists. split; [reflexivity|].
    cbn [Memo.frozen Memo._json Memo._hash].
    split; [reflexivity|]. split; [apply memo_coherent_mk; assumption|].
    split; [reflexivity|]. split; [reflexivity|].
    intros h' Hx. inversion Hx. subst. split; [reflexivity|].
    exists j. split; reflexivity.
  - destruct oj as [j|].
    + pose proof (Hj j eq_refl) as Ej. unfold to_hash. rewrite Ej.
      cbn [mbind result_bind].
      eexists. split; [reflexivity|]. cbn [Memo.frozen Memo._json Memo._hash].
      split; [reflexivity|]. split; [|split; [reflexivity|split; [reflexivity|]]].
      * apply memo_coherent_mk; [assumption| |].
        -- intros h' Hx. inversion Hx. unfold to_hash. rewrite Ej. reflexivity.
        -- intros _. eexists; reflexivity.
      * intros h' Hx. inversion Hx. split; [reflexivity|].
        exists j. split; reflexivity.
    + unfold to_hash. destruct (to_json s) as [j|e] eqn:E; cbn [mbind result_bind].
      * eexists. split; [reflexivity|]. cbn [Memo.frozen Memo._json Memo._hash].
        split; [reflexivity|]. split; [|split; [reflexivity|split; [reflexivity|]]].
        -- apply memo_coherent_mk.
           ++ intros j' Hx. inversion Hx. subst. exact E.
           ++ intros h' Hx. inversion Hx. unfold to_hash. rewrite E. reflexivity.
           ++ intros _. eexists; reflexivity.
        -- intros h' Hx. inversion Hx. split; [reflexivity|].
           exists j. split; reflexivity.
      * eexists. split; [reflexivity|]. cbn [Memo.frozen Memo._json Memo._hash].
        rewrite E. split; [reflexivity|].
        split; [apply memo_coherent_mk; [intros ? Hx; discriminate Hx.. | assumption]|].
        split; [reflexivity|]. split; [reflexivity|].
        intros h' Hx. discriminate Hx.
Qed.

(** ** The canonical text *)

Lemma escape_char_printable (c : ascii) : forallb printable (escape_char c) = true.
Proof. destruct c as [[] [] [] [] [] [] [] []]; vm_compute; reflexivity. Qed.

Lemma encode_basestring_ascii_printable (s : string) :
  forallb printable (encode_basestring_ascii s) = true.
Proof.
  unfold encode_basestring_ascii. cbn [forallb].
  rewrite forallb_app. cbn [forallb].
  change (printable dquote) with true. cbn [andb]. rewrite andb_true_r.
  induction (chars s) as [|c cs IH]; [reflexivity|].
  cbn [flat_map]. rewrite forallb_app, escape_char_printable, IH. reflexivity.
Qed.

Lemma is_digit_printable (c : ascii) : is_digit c = true -> printable c = true.
Proof. unfold is_digit, printable. lia. Qed.

Lemma span_digits_all (ds : list ascii) :
  span_digits ds = (ds, []) -> forallb is_digit ds = true.
Proof.
  induction ds as [|c ds IH]; [reflexivity|].
  cbn [span_digits forallb]. destruct (is_digit c) eqn:Hc.
  - destruct (span_digits ds) as [ds' rest] eqn:E. intros Hx.
    inversion Hx. subst. rewrite IH; reflexivity.
  - intros Hx. discriminate Hx.
Qed.

Lemma encode_int_printable (n : Z) : forallb printable (encode_int n) = true.
Proof.
  destruct (encode_int_shape n) as [[_ ->] | (k & ds & Hk & _ & Hspan & Hn)];
    [reflexivity|].
  specialize (Hspan [] I). rewrite app_nil_r in Hspan.
  apply span_digits_all in Hspan.
  assert (forallb printable (k :: ds) = true) as Hp.
  { cbn [forallb]. rewrite (is_digit_printable k Hk). cbn [andb].
    apply forallb_forall. intros c Hc.
    apply is_digit_printable. rewrite forallb_forall in Hspan. apply Hspan, Hc. }
  destruct Hn as [(_ & -> & _) | (_ & -> & _)]; [exact Hp|].
  change (forallb printable ("-"%char :: k :: ds))
    with (printable "-" && forallb printable (k :: ds)).
  rewrite Hp. reflexivity.
Qed.

Lemma record_chars_printable (r : BlockRecord) : forallb printable (record_chars r) = true.
Proof.
  unfold record_chars.
  repeat first
    [ rewrite forallb_app
    | rewrite encode_basestring_ascii_printable
    | rewrite encode_int_printable
    | progress cbn [forallb andb]
    | match goal with
      | |- context [printable ?c] =>
          lazymatch c with
          | Ascii _ _ _ _ _ _ _ _ => change (printable c) with true
          end
      end ].
  reflexivity.
Qed.

Lemma join_records_printable (l : list BlockRecord) :
  forallb printable (join (chars ",") (map record_chars l)) = true.
Proof.
  induction l as [|r l IH]; [reflexivity|].
  destruct l as [|r' l].
  - cbn [map join]. apply record_chars_printable.
  - change (join (chars ",") (map record_chars (r :: r' :: l)))
      with (record_chars r ++ chars "," ++ join (chars ",") (map record_chars (r' :: l))).
    rewrite !forallb_app, record_chars_printable, IH. reflexivity.
Qed.

Lemma dumps_chars_records (l : list BlockRecord) :
  dumps_chars (JArr (map _asdict l))
  = chars "[" ++ join (chars ",") (map record_chars l) ++ chars "]".
Proof.
  cbn [dumps_chars]. rewrite map_map.
  rewrite (map_ext _ record_chars dumps_chars_asdict). reflexivity.
Qed.

Lemma to_json_Ok_inv (s : BlockRecordSet) (j : string) :
  to_json s = Ok j ->
  exists rs, members s = map PyBlockRecord rs
    /\ j = dumps (JArr (map _asdict (sorted locator String.leb rs))).
Proof.
  unfold to_json. pose proof (mapM_as_record_spec (members s)) as Hm.
  destruct (mapM_result as_record (members s)) as [rs|e]; cbn [mbind result_bind].
  - intros Hx. inversion Hx. exists rs. split; [exact Hm | reflexivity].
  - intros Hx. discriminate Hx.
Qed.

(** X3. Whatever characters the locators hold, the text [to_json] returns
    consists of printable ASCII characters only (code points 32 to
    126). *)
Theorem to_json_printable_ascii (s : BlockRecordSet) (j : string) :
  to_json s = Ok j -> forallb printable (chars j) = true.
Proof.
  intros Hj. destruct (to_json_Ok_inv s j Hj) as (rs & _ & ->).
  unfold dumps. rewrite chars_string_of_list, dumps_chars_records.
  rewrite !forallb_app, join_records_printable. reflexivity.
Qed.


Lemma canonical_dict_inj (r r' : BlockRecord) :
  canonical_dict r = canonical_dict r' -> r = r'.
Proof. destruct r, r'. unfold canonical_dict. intros Hx. inversion Hx. reflexivity. Qed.

Lemma map_canonical_dict_inj (l l' : list BlockRecord) :
  map canonical_dict l = map canonical_dict l' -> l = l'.
Proof.
  revert l'. induction l as [|r l IH]; intros [|r' l'] Hx; try discriminate Hx.
  - reflexivity.
  - pose proof (f_equal (hd JNull) Hx) as Hr.
    pose proof (f_equal (@tl json) Hx) as Hl. cbn [map hd tl] in Hr, Hl.
    apply canonical_dict_inj in Hr. rewrite Hr, (IH l' Hl). reflexivity.
Qed.


(** ** from_json *)

Lemma BlockRecord_of_dict_Ok_inv (block : json) (r : BlockRecord) :
  BlockRecord_of_dict block = Ok r ->
  exists items,
    block = JObj items
    /\ dict_keys items ≡ₚ ["locator"; "weight"; "max_score"]%string
    /\ dict_get "locator" items = Some (JStr (locator r))
    /\ dict_get "weight" items = Some (JInt (weight r))
    /\ dict_get "max_score" items = Some (JInt (max_score r)).
Proof.
  destruct block as [| | | | |items|items]; try (intros Hx; discriminate Hx).
  unfold BlockRecord_of_dict. intros Hx. exists items. split; [reflexivity|].
  destruct (bool_decide _) eqn:Hk; [|discriminate Hx].
  apply bool_decide_eq_true_1 in Hk. split; [exact Hk|].
  destruct (dict_get "locator" items) as [[| | | |l| |]|];
    destruct (dict_get "weight" items) as [[| |w| | | |]|];
    destruct (dict_get "max_score" items) as [[| |m| | | |]|];
    try discriminate Hx.
  inversion Hx. cbn. repeat split; reflexivity.
Qed.

Lemma mapM_result_Forall2 {A B} (f : A -> result B) (l : list A) (l' : list B) :
  mapM_result f l = Ok l' -> Forall2 (fun a b => f a = Ok b) l l'.
Proof.
  revert l'. induction l as [|a l IH]; intros l' Hx; cbn [mapM_result] in Hx.
  - inversion Hx. constructor.
  - destruct (f a) as [b|e] eqn:Ea; cbn [mbind result_bind] in Hx; [|discriminate Hx].
    destruct (mapM_result f l) as [bs|e]; cbn [mbind result_bind] in Hx;
      [|discriminate Hx].
    inversion Hx. constructor; [exact Ea | apply IH; reflexivity].
Qed.

Lemma NoDup_PyBlockRecord (xs : list BlockRecord) :
  NoDup xs -> NoDup (map PyBlockRecord xs).
Proof.
  assert (Inj eq eq PyBlockRecord) as Hinj.
  { intros a b Hab. inversion Hab. reflexivity. }
  apply (NoDup_fmap_2 PyBlockRecord).
Qed.

Lemma BlockRecordSet_new_spec `{Frozenset} (rs : list BlockRecord) (s : BlockRecordSet) :
  BlockRecordSet_new (map PyBlockRecord rs) = Ok s ->
  NoDup (members s)
  /\ (forall o, o ∈ members s <-> o ∈ map PyBlockRecord rs)
  /\ exists rs', members s = map PyBlockRecord rs'.
Proof.
  destruct (BlockRecordSet_new_records rs) as (xs' & Hnew & Hnd & Hel).
  rewrite Hnew. intros Hx. inversion Hx. cbn [members].
  split; [|split].
  - apply NoDup_PyBlockRecord, Hnd.
  - intros o. rewrite !list_elem_of_fmap.
    split; intros (r & -> & Hr); exists r; (split; [reflexivity|]); apply Hel, Hr.
  - exists xs'. reflexivity.
Qed.

(** X6. Whatever text [from_json] accepts, the set it returns has records
    for members, each once, and [to_json] and [to_hash] on it return a
    value. *)
Theorem from_json_yields_records `{Frozenset} (text : string) (s : BlockRecordSet) :
  from_json text = Ok s ->
  NoDup (members s)
  /\ (forall o, o ∈ members s -> is_record o = true)
  /\ exists j h, to_json s = Ok j /\ to_hash s = Ok h.
Proof.
  unfold from_json.
  destruct (loads text) as [v|e]; cbn [mbind result_bind]; [|intros Hx; discriminate Hx].
  destruct (iter_json v) as [items|e]; cbn [mbind result_bind];
    [|intros Hx; discriminate Hx].
  destruct (mapM_result BlockRecord_of_dict items) as [records|e];
    cbn [mbind result_bind]; [|intros Hx; discriminate Hx].
  intros Hnew. destruct (BlockRecordSet_new_spec records s Hnew) as (Hnd & _ & rs' & Hm).
  split; [exact Hnd|]. split.
  - intros o Ho. rewrite Hm in Ho. apply list_elem_of_fmap in Ho.
    destruct Ho as (r & -> & _). reflexivity.
  - apply (records_to_json s rs' Hm).
Qed.

Lemma from_json_dumps_records `{Frozenset} (l : list BlockRecord) :
  exists xs',
    from_json (dumps (JArr (map _asdict l))) = Ok (records_of xs')
    /\ NoDup xs' /\ (forall r, r ∈ xs' <-> r ∈ l).
Proof.
  destruct (BlockRecordSet_new_records l) as (xs' & Hnew & Hnd & Hel).
  exists xs'. split; [|split; assumption].
  unfold from_json. rewrite loads_dumps_records.
  cbn [mbind result_bind iter_json].
  rewrite mapM_BlockRecord_of_dict. cbn [mbind result_bind]. exact Hnew.
Qed.

Lemma elem_of_records (xs ys : list BlockRecord) :
  (forall r, r ∈ xs <-> r ∈ ys) ->
  forall o, o ∈ map PyBlockRecord xs <-> o ∈ map PyBlockRecord ys.
Proof.
  intros Hel o. rewrite !list_elem_of_fmap.
  split; intros (r & -> & Hr); exists r; (split; [reflexivity|]); apply Hel, Hr.
Qed.


(** X8. [from_json] accepts a JSON array of objects whose keys are the three
    field names, each object giving one record; besides arrays it accepts
    only an empty object and an empty string, for which it returns the
    empty set. *)
Theorem from_json_accepts `{Frozenset} (text : string) (s : BlockRecordSet) :
  from_json text = Ok s ->
  exists v, loads text = Ok v
    /\ ((exists items records,
           v = JArr items
           /\ Forall2 (fun item r =>
                exists members,
                  item = JObj members
                  /\ dict_keys members ≡ₚ ["locator"; "weight"; "max_score"]%string
                  /\ dict_get "locator" members = Some (JStr (locator r))
                  /\ dict_get "weight" members = Some (JInt (weight r))
                  /\ dict_get "max_score" members = Some (JInt (max_score r)))
                items records
           /\ set_eq s (records_of records))
        \/ ((v = JObj [] \/ v = JStr EmptyString) /\ members s = [])).
Proof.
  unfold from_json.
  destruct (loads text) as [v|e]; cbn [mbind result_bind]; [|intros Hx; discriminate Hx].
  intros Hx. exists v. split; [reflexivity|].
  destruct v as [| | | |str|items|items]; cbn [iter_json mbind result_bind] in Hx;
    try discriminate Hx.
  - right. destruct str as [|c str].
    + cbn in Hx. split; [right; reflexivity|].
      destruct (BlockRecordSet_new_spec [] s Hx) as (_ & Hel & _).
      destruct (members s) as [|o os]; [reflexivity|].
      exfalso. specialize (Hel o). cbn [map] in Hel.
      apply (not_elem_of_nil o), Hel. left.
    + cbn in Hx. discriminate Hx.
  - left.
    destruct (mapM_result BlockRecord_of_dict items) as [records|e] eqn:Em;
      cbn [mbind result_bind] in Hx; [|discriminate Hx].
    exists items, records. split; [reflexivity|]. split.
    + apply mapM_result_Forall2 in Em.
      eapply Forall2_impl; [exact Em|].
      intros item r Hr. apply BlockRecord_of_dict_Ok_inv, Hr.
    + destruct (BlockRecordSet_new_spec records s Hx) as (_ & Hel & _).
      intros o. unfold records_of. cbn [members]. apply Hel.
  - right. destruct (dict_keys items) as [|k ks] eqn:Ek.
    + cbn in Hx. split.
      * left. destruct items as [|[k v] items]; [reflexivity|].
        exfalso. unfold dict_keys in Ek.
        assert (k ∈ remove_dups (map fst ((k, v) :: items))) as Hin.
        { apply elem_of_remove_dups. left. }
        rewrite Ek in Hin. apply (not_elem_of_nil k), Hin.
      * destruct (BlockRecordSet_new_spec [] s Hx) as (_ & Hel & _).
        destruct (members s) as [|o os]; [reflexivity|].
        exfalso. specialize (Hel o). cbn [map] in Hel.
        apply (not_elem_of_nil o), Hel. left.
    + cbn in Hx. discriminate Hx.
Qed.

(** ** The text of a row *)

Lemma chars_append (a b : string) : chars (a ++ b)%string = chars a ++ chars b.
Proof.
  unfold chars. induction a as [|c a IH]; [reflexivity|].
  change (c :: list_ascii_of_string (append a b)
          = c :: (list_ascii_of_string a ++ list_ascii_of_string b)).
  f_equal. exact IH.
Qed.

Lemma chars_inj (a b : string) : chars a = chars b -> a = b.
Proof.
  intros Hx. rewrite <- (string_of_list_ascii_of_string a).
  rewrite <- (string_of_list_ascii_of_string b). unfold chars in Hx.
  rewrite Hx. reflexivity.
Qed.

(** X9. The text [__unicode__] returns shows the two columns of the row;
    among rows whose hashes have one length, as the 44 characters of the
    hashes [to_hash] returns, it identifies the row. *)
Theorem unicode_identifies_the_row (m1 m2 : VisibleBlocks) :
  String.length (hashed m1) = String.length (hashed m2) ->
  __unicode__ m1 = __unicode__ m2 -> m1 = m2.
Proof.
  intros Hlen Heq. apply (f_equal chars) in Heq. unfold __unicode__ in Heq.
  rewrite !chars_append in Heq.
  apply app_inv_head in Heq.
  apply app_inj_1 in Heq; [|rewrite <- !string_length_chars; exact Hlen].
  destruct Heq as [Hh Heq]. apply app_inv_head in Heq.
  apply app_inj_2 in Heq; [|reflexivity]. destruct Heq as [Hj _].
  apply chars_inj in Hh, Hj.
  destruct m1 as [j1 h1], m2 as [j2 h2]. cbn in Hh, Hj. subst. reflexivity.
Qed.

(** Without the condition on the lengths two rows can have one text. *)
Example unicode_ambiguous :
  let m1 := mkVisibleBlocks "y" "a, raw json:'x" in
  let m2 := mkVisibleBlocks "x, raw json:'y" "a" in
  m1 <> m2 /\ __unicode__ m1 = __unicode__ m2.
Proof. split; [discriminate | reflexivity]. Qed.

(** ** The tables: what the operations leave *)

Lemma resolved_lookup_inv (h j : string) (db : DB) (h' j' : string) :
  visibleblocks (resolved h j db) !! h' = Some j' ->
  visibleblocks db !! h' = Some j'
  \/ (h' = h /\ j' = j /\ visibleblocks db !! h = None /\ h ∉ visibleblocks_unseen db).
Proof.
  unfold resolved. cbv zeta.
  destruct (visibleblocks db !! h) eqn:Hv; [cbn; auto|].
  destruct (decide (h ∈ visibleblocks_unseen db)); [cbn; auto|].
  cbn [visibleblocks set_visibleblocks record_event].
  intros Hx. apply lookup_insert_Some in Hx.
  destruct Hx as [(<- & <-) | (_ & Hx)]; [right | left]; auto.
Qed.

Lemma resolved_extends (h j : string) (db : DB) : store_extends db (resolved h j db).
Proof.
  intros h' j' Hx. unfold resolved. cbv zeta.
  destruct (visibleblocks db !! h) eqn:Hv; [exact Hx|].
  destruct (decide (h ∈ visibleblocks_unseen db)); [exact Hx|].
  cbn [visibleblocks set_visibleblocks record_event].
  apply lookup_insert_Some. right. split; [|exact Hx].
  intros ->. rewrite Hv in Hx. discriminate Hx.
Qed.

Lemma resolved_other (h j : string) (db : DB) (h' : string) :
  h' <> h -> visibleblocks (resolved h j db) !! h' = visibleblocks db !! h'.
Proof.
  intros Hne. unfold resolved. cbv zeta.
  destruct (visibleblocks db !! h) eqn:Hv; [reflexivity|].
  destruct (decide (h ∈ visibleblocks_unseen db)); [reflexivity|].
  cbn [visibleblocks set_visibleblocks record_event].
  apply lookup_insert_ne. congruence.
Qed.

Lemma store_extends_refl (db : DB) : store_extends db db.
Proof. intros h j Hx. exact Hx. Qed.

Lemma store_extends_trans (db1 db2 db3 : DB) :
  store_extends db1 db2 -> store_extends db2 db3 -> store_extends db1 db3.
Proof. intros H12 H23 h j Hx. apply H23, H12, Hx. Qed.

Lemma records_of_members (vb : BlockRecordSet) (rs : list BlockRecord) :
  members vb = map PyBlockRecord rs -> vb = records_of rs.
Proof. destruct vb as [ms]. cbn [members]. intros ->. reflexivity. Qed.

Lemma resolved_store_ok (vb : BlockRecordSet) (h j : string) (db : DB) :
  to_json vb = Ok j -> to_hash vb = Ok h ->
  store_ok db -> store_ok (resolved h j db).
Proof.
  intros Hj Hh Hok h' j' Hx.
  destruct (resolved_lookup_inv h j db h' j' Hx) as [Hold | (-> & -> & _)].
  - apply Hok, Hold.
  - destruct (to_json_Ok_inv vb j Hj) as (rs & Hm & _).
    exists rs. rewrite <- (records_of_members vb rs Hm). split; assumption.
Qed.

Lemma grades_ok_store (db db' : DB) :
  grades db' = grades db -> next_pk db' = next_pk db ->
  store_extends db db' ->
  grades_ok db -> grades_ok db'.
Proof.
  intros Hg Hn Hext (Hrow & Hpk & Hkey).
  unfold grades_ok. rewrite Hg, Hn. split; [|split; assumption].
  intros g Hin. destruct (Hrow g Hin) as (Hc & Hi & [j Hfk]).
  split; [exact Hc|]. split; [exact Hi|]. exists j. apply Hext, Hfk.
Qed.

Lemma resolved_consistent (vb : BlockRecordSet) (h j : string) (db : DB) :
  to_json vb = Ok j -> to_hash vb = Ok h ->
  consistent db -> consistent (resolved h j db).
Proof.
  intros Hj Hh (Hs & Hg). split.
  - apply (resolved_store_ok vb); assumption.
  - apply (grades_ok_store db); [apply resolved_grades | apply resolved_next_pk
                                 | apply resolved_extends | exact Hg].
Qed.

Lemma record_event_consistent (e : event) (db : DB) :
  consistent db -> consistent (record_event e db).
Proof. intros Hc. exact Hc. Qed.

Lemma NoDup_map_inj {A B} (f : A -> B) (l : list A) (x y : A) :
  NoDup (map f l) -> x ∈ l -> y ∈ l -> f x = f y -> x = y.
Proof.
  induction l as [|a l IH]; intros Hnd Hx Hy Hxy.
  - apply not_elem_of_nil in Hx. contradiction.
  - cbn [map] in Hnd. apply NoDup_cons in Hnd. destruct Hnd as [Hna Hnd].
    apply elem_of_cons in Hx. apply elem_of_cons in Hy.
    destruct Hx as [-> | Hx], Hy as [-> | Hy].
    + reflexivity.
    + exfalso. apply Hna. rewrite Hxy. apply list_elem_of_fmap. exists y. auto.
    + exfalso. apply Hna. rewrite <- Hxy. apply list_elem_of_fmap. exists x. auto.
    + apply IH; assumption.
Qed.

Lemma key_taken_false_inv (g : PersistentSubsectionGrade) (db : DB) g' :
  key_taken g db = false -> g' ∈ grades db ->
  user_id g' = user_id g -> course_id g' = course_id g -> usage_key g' = usage_key g ->
  pk g <> None /\ pk g' = pk g.
Proof.
  unfold key_taken. intros Hk Hin Hu Hc Hkey.
  assert ((same_key (user_id g) (course_id g) (usage_key g) g' && other_row g g') = false)
    as Hf.
  { destruct (same_key _ _ _ g' && other_row g g') eqn:E; [|reflexivity].
    rewrite <- Hk. symmetry. apply existsb_exists. exists g'.
    split; [apply list_elem_of_In, Hin | exact E]. }
  unfold same_key in Hf.
  rewrite !bool_decide_eq_true_2 in Hf by assumption. cbn [andb] in Hf.
  unfold other_row in Hf. destruct (pk g) as [i|]; [|discriminate Hf].
  split; [discriminate|]. apply negb_false_iff, bool_decide_eq_true_1 in Hf. exact Hf.
Qed.

(** What [save] does. *)
Lemma save_cases (g : PersistentSubsectionGrade) (db : DB) :
  save g db = (Raise IntegrityError, db)
  \/ (key_taken g db = false
      /\ (is_Some (visibleblocks db !! visible_blocks_id g)
          \/ visible_blocks_id g ∈ visibleblocks_unseen db)
      /\ match pk g with
         | None =>
             ((user_id g, course_id g, usage_key g) ∉ grades_unseen db)
             /\ (let g' := mkGrade (Some (next_pk db)) (user_id g) (course_id g)
                             (usage_key g) (subtree_edited_date g) (course_version g)
                             (earned_all g) (possible_all g) (earned_graded g)
                             (possible_graded g) (visible_blocks_id g) in
                 save g db = (Ok g', set_grades (grades db ++ [g']) (next_pk db + 1) db))
         | Some i =>
             save g db
             = (Ok g,
                set_grades
                  (map (fun g' => if bool_decide (pk g' = Some i) then g else g')
                       (grades db))
                  (next_pk db) db)
         end).
Proof.
  unfold save.
  destruct (bool_decide (is_Some (visibleblocks db !! visible_blocks_id g))) eqn:Hfk;
    [apply bool_decide_eq_true_1 in Hfk|];
    (destruct (bool_decide (visible_blocks_id g ∈ visibleblocks_unseen db)) eqn:Hfu;
     [apply bool_decide_eq_true_1 in Hfu|]);
    (destruct (key_taken g db) eqn:Hkt);
    cbn [orb negb andb]; try (left; reflexivity).
  all: destruct (pk g) as [i|] eqn:Hpk.
  all: try (rewrite (bool_decide_eq_false_2 (Some i = None)) by discriminate;
            rewrite andb_false_r; right; split; [reflexivity|]; split; [auto|];
            reflexivity).
  all: rewrite (bool_decide_eq_true_2 (None = None)) by reflexivity; rewrite andb_true_r.
  all: destruct (bool_decide ((user_id g, course_id g, usage_key g) ∈ grades_unseen db))
    eqn:Hun; [left; reflexivity|].
  all: apply bool_decide_eq_false_1 in Hun.
  all: right; split; [reflexivity|]; split; [auto|]; split; [exact Hun | reflexivity].
Qed.

Lemma insert_grades_ok (g : PersistentSubsectionGrade) (db : DB) :
  grades_ok db ->
  pk g = None ->
  course_id g = course_key (usage_key g) ->
  is_Some (visibleblocks db !! visible_blocks_id g) ->
  key_taken g db = false ->
  grades_ok (set_grades
               (grades db ++ [mkGrade (Some (next_pk db)) (user_id g) (course_id g)
                                (usage_key g) (subtree_edited_date g) (course_version g)
                                (earned_all g) (possible_all g) (earned_graded g)
                                (possible_graded g) (visible_blocks_id g)])
               (next_pk db + 1) db).
Proof.
  intros (Hrow & Hpk & Hkey) Hnone Hc Hfk Hkt.
  unfold grades_ok. cbn [grades next_pk visibleblocks set_grades].
  split; [|split].
  - intros g' Hin. apply elem_of_app in Hin. destruct Hin as [Hin | Hin].
    + destruct (Hrow g' Hin) as (Hc' & (i & Hi & Hlt) & Hfk').
      split; [exact Hc'|]. split; [exists i; split; [exact Hi | lia] | exact Hfk'].
    + apply list_elem_of_singleton in Hin. subst g'.
      cbn [course_id usage_key pk visible_blocks_id].
      split; [exact Hc|]. split; [|exact Hfk].
      exists (next_pk db). split; [reflexivity | lia].
  - rewrite map_app. cbn [map pk]. apply NoDup_app. split; [exact Hpk|]. split.
    + intros x Hx Hx'. apply list_elem_of_singleton in Hx'. subst x.
      apply list_elem_of_fmap in Hx. destruct Hx as (g' & Hg' & Hin).
      destruct (Hrow g' Hin) as (_ & (i & Hi & Hlt) & _).
      rewrite Hi in Hg'. inversion Hg'. lia.
    + apply NoDup_singleton.
  - rewrite map_app. cbn [map user_id usage_key]. apply NoDup_app.
    split; [exact Hkey|]. split.
    + intros x Hx Hx'. apply list_elem_of_singleton in Hx'. subst x.
      apply list_elem_of_fmap in Hx. destruct Hx as (g' & Hg' & Hin).
      inversion Hg' as [[Hu Hk]].
      destruct (Hrow g' Hin) as (Hc' & _).
      destruct (key_taken_false_inv g db g' Hkt Hin) as [Hne _]; try congruence.
    + apply NoDup_singleton.
Qed.

Lemma replace_grades_ok (g g0 : PersistentSubsectionGrade) (i : Z) (db : DB) :
  grades_ok db ->
  g0 ∈ grades db -> pk g0 = Some i ->
  pk g = Some i -> user_id g = user_id g0 -> course_id g = course_id g0 ->
  usage_key g = usage_key g0 ->
  is_Some (visibleblocks db !! visible_blocks_id g) ->
  grades_ok (set_grades
               (map (fun g' => if bool_decide (pk g' = Some i) then g else g') (grades db))
               (next_pk db) db).
Proof.
  intros (Hrow & Hpk & Hkey) Hin0 Hpk0 Hpkg Hu Hc Hk Hfk.
  assert (forall g', g' ∈ grades db -> pk g' = Some i -> g' = g0) as Huniq.
  { intros g' Hin' Hp'. apply (NoDup_map_inj pk (grades db)); try assumption. congruence. }
  unfold grades_ok. cbn [grades next_pk visibleblocks set_grades].
  split; [|split].
  - intros g' Hin. apply list_elem_of_fmap in Hin. destruct Hin as (g1 & -> & Hin1).
    destruct (bool_decide (pk g1 = Some i)) eqn:E.
    + destruct (Hrow g0 Hin0) as (Hc0 & _ & _).
      split; [congruence|]. split; [|exact Hfk].
      destruct (Hrow g0 Hin0) as (_ & (i' & Hi' & Hlt) & _).
      exists i. split; [exact Hpkg|]. congruence.
    + apply Hrow, Hin1.
  - rewrite map_map.
    rewrite (map_ext_in _ pk); [exact Hpk|].
    intros g' Hin'. destruct (bool_decide (pk g' = Some i)) eqn:E; [|reflexivity].
    apply bool_decide_eq_true_1 in E. congruence.
  - rewrite map_map.
    rewrite (map_ext_in _ (fun g => (user_id g, usage_key g))); [exact Hkey|].
    intros g' Hin'. destruct (bool_decide (pk g' = Some i)) eqn:E; [|reflexivity].
    apply bool_decide_eq_true_1 in E. apply list_elem_of_In in Hin'.
    rewrite (Huniq g' Hin' E). congruence.
Qed.

Lemma as_BlockRecordSet_Raise_inv `{Frozenset} (arg : blocks_arg) (e : exception) :
  as_BlockRecordSet arg = Raise e -> e = TypeError.
Proof.
  destruct arg as [xs|s]; cbn [as_BlockRecordSet]; [|intros Hx; discriminate Hx].
  unfold BlockRecordSet_new. destruct (forallb hashable xs); intros Hx; inversion Hx.
  reflexivity.
Qed.

Lemma create_from_blockrecords_arg `{Frozenset} (arg : blocks_arg) (vb : BlockRecordSet) :
  as_BlockRecordSet arg = Ok vb ->
  create_from_blockrecords arg = create_from_blockrecords (ASet vb).
Proof.
  intros Hvb. unfold create_from_blockrecords. cbn [as_BlockRecordSet].
  rewrite Hvb. reflexivity.
Qed.

(** What [create_from_blockrecords] does. *)
Lemma create_from_blockrecords_outcome `{Frozenset} (arg : blocks_arg) (db : DB) :
  (exists e, (e = TypeError \/ e = AttributeError)
     /\ create_from_blockrecords arg db = (Raise e, db))
  \/ exists vb rs h j,
       as_BlockRecordSet arg = Ok vb
       /\ members vb = map PyBlockRecord rs
       /\ to_json vb = Ok j /\ to_hash vb = Ok h
       /\ create_from_blockrecords arg db
          = (match visibleblocks db !! h with
             | Some j' => Ok (mkVisibleBlocks j' h)
             | None => if decide (h ∈ visibleblocks_unseen db)
                       then Raise IntegrityError else Ok (mkVisibleBlocks j h)
             end, resolved h j db).
Proof.
  destruct (as_BlockRecordSet arg) as [vb|e] eqn:Hvb.
  - rewrite (create_from_blockrecords_arg arg vb Hvb).
    destruct (to_hash vb) as [h|e] eqn:Hh.
    + right. destruct (to_hash_Ok_inv vb h Hh) as (j & Hj & _).
      destruct (to_json_Ok_inv vb j Hj) as (rs & Hm & _).
      exists vb, rs, h, j. repeat (split; [first [reflexivity | assumption]|]).
      apply create_from_blockrecords_spec; assumption.
    + left. exists e. pose proof (to_hash_Raise_inv vb e Hh) as ->.
      split; [right; reflexivity|].
      apply create_from_blockrecords_raises, Hh.
  - left. exists e. pose proof (as_BlockRecordSet_Raise_inv arg e Hvb) as ->.
    split; [left; reflexivity|].
    unfold create_from_blockrecords, bind, lift. rewrite Hvb. reflexivity.
Qed.

(** What [create] does. *)
Lemma create_outcome `{Frozenset} `{FieldValidators} (kw : kwargs) (db : DB) :
  (exists e, (e = TypeError \/ e = AttributeError) /\ create kw db = (Raise e, db)
     /\ (as_BlockRecordSet (kw_visible_blocks kw) = Raise e
         \/ exists vb, as_BlockRecordSet (kw_visible_blocks kw) = Ok vb
              /\ to_json vb = Raise e))
  \/ exists vb rs h j,
       as_BlockRecordSet (kw_visible_blocks kw) = Ok vb
       /\ members vb = map PyBlockRecord rs
       /\ to_json vb = Ok j /\ to_hash vb = Ok h
       /\ ((create kw db = (Raise ValidationError, resolved h j db)
            /\ (clean_fields (new_grade kw h None)
                && bool_decide (is_Some (visibleblocks (resolved h j db) !! h))
                && negb (key_taken (new_grade kw h None) db)) = false)
           \/ (create kw db = (Raise IntegrityError, resolved h j db)
               /\ is_Some (visibleblocks (resolved h j db) !! h)
               /\ (kw_user_id kw, course_key (kw_usage_key kw), kw_usage_key kw)
                    ∈ grades_unseen db)
           \/ (create kw db
               = (Ok (new_grade kw h (Some (next_pk db))),
                  set_grades (grades db ++ [new_grade kw h (Some (next_pk db))])
                             (next_pk db + 1) (resolved h j db))
               /\ clean_fields (new_grade kw h None) = true
               /\ is_Some (visibleblocks (resolved h j db) !! h)
               /\ key_taken (new_grade kw h None) db = false
               /\ (kw_user_id kw, course_key (kw_usage_key kw), kw_usage_key kw)
                    ∉ grades_unseen db)).
Proof.
  destruct (as_BlockRecordSet (kw_visible_blocks kw)) as [vb|e] eqn:Hvb.
  2:{ left. exists e. pose proof (as_BlockRecordSet_Raise_inv _ e Hvb) as ->.
      split; [left; reflexivity|]. split; [|left; reflexivity].
      unfold create, bind, lift. rewrite Hvb. reflexivity. }
  destruct (to_hash vb) as [h|e] eqn:Hh.
  2:{ left. exists e. pose proof (to_hash_Raise_inv vb e Hh) as ->.
      split; [right; reflexivity|]. split.
      - unfold create.
        erewrite bind_Ok by (unfold lift; rewrite Hvb; reflexivity).
        erewrite bind_Raise; [reflexivity|].
        apply visible_blocks_hash_of_raises, Hh.
      - right. exists vb. split; [reflexivity|].
        unfold to_hash in Hh. destruct (to_json vb) as [j|e'] eqn:Hj;
          cbn [mbind result_bind] in Hh; [discriminate Hh|]. exact Hh. }
  right. destruct (to_hash_Ok_inv vb h Hh) as (j & Hj & _).
  destruct (to_json_Ok_inv vb j Hj) as (rs & Hm & _).
  exists vb, rs, h, j. repeat (split; [first [reflexivity | assumption]|]).
  assert (key_taken (new_grade kw h None) (resolved h j db)
          = key_taken (new_grade kw h None) db) as Hkt.
  { unfold key_taken. rewrite resolved_grades. reflexivity. }
  unfold create.
  erewrite bind_Ok by (unfold lift; rewrite Hvb; reflexivity).
  erewrite bind_Ok by (apply visible_blocks_hash_of_spec; eassumption).
  fold (new_grade kw h None).
  assert (full_clean (new_grade kw h None) (resolved h j db)
          = (if clean_fields (new_grade kw h None)
                && bool_decide (is_Some (visibleblocks (resolved h j db) !! h))
                && negb (key_taken (new_grade kw h None) db)
             then (Ok tt, resolved h j db)
             else (Raise ValidationError, resolved h j db))) as Hfc.
  { unfold full_clean. rewrite Hkt. reflexivity. }
  destruct (clean_fields (new_grade kw h None)
            && bool_decide (is_Some (visibleblocks (resolved h j db) !! h))
            && negb (key_taken (new_grade kw h None) db)) eqn:Hclean.
  2:{ left. split; [|reflexivity]. apply bind_Raise, Hfc. }
  right. rewrite (bind_Ok _ _ _ _ _ Hfc).
  apply andb_prop in Hclean. destruct Hclean as [Hclean Hk].
  apply andb_prop in Hclean. destruct Hclean as [Hclean Hfk].
  apply negb_true_iff in Hk. apply bool_decide_eq_true_1 in Hfk.
  destruct (save_cases (new_grade kw h None) (resolved h j db))
    as [Hs | (_ & _ & Hs)].
  - left. split; [exact Hs|]. split; [exact Hfk|].
    unfold save in Hs. rewrite Hkt, Hk in Hs.
    cbn [visible_blocks_id new_grade pk user_id course_id usage_key] in Hs.
    rewrite (bool_decide_eq_true_2 _ Hfk) in Hs. cbn [orb negb] in Hs.
    rewrite (bool_decide_eq_true_2 (None = None)) in Hs by reflexivity.
    rewrite andb_true_r in Hs.
    destruct (resolved_unseen h j db) as [_ Hgu]. rewrite Hgu in Hs.
    destruct (bool_decide _) eqn:E in Hs; [|discriminate Hs].
    apply bool_decide_eq_true_1 in E. exact E.
  - right. cbn [pk new_grade] in Hs. destruct Hs as [Hun Hs].
    cbn [user_id course_id usage_key new_grade] in Hun.
    destruct (resolved_unseen h j db) as [_ Hgu]. rewrite Hgu in Hun.
    split; [|auto].
    rewrite Hs. cbn [user_id course_id usage_key subtree_edited_date course_version
                     earned_all possible_all earned_graded possible_graded
                     visible_blocks_id new_grade].
    rewrite resolved_grades, resolved_next_pk. reflexivity.
Qed.

Lemma resolved_visible (h j : string) (db : DB) :
  ~ conflicts h db -> is_Some (visibleblocks (resolved h j db) !! h).
Proof.
  intros Hnc. rewrite resolved_lookup.
  destruct (visibleblocks db !! h) eqn:Hv; [eauto|].
  destruct (decide _) as [Hu|Hu]; [|eauto]. exfalso. apply Hnc. split; assumption.
Qed.

Lemma conflicts_dec (h : string) (db : DB) : conflicts h db \/ ~ conflicts h db.
Proof.
  unfold conflicts. destruct (visibleblocks db !! h) eqn:Hv.
  - right. intros [Hx _]. discriminate Hx.
  - destruct (decide (h ∈ visibleblocks_unseen db)) as [Hu|Hu].
    + left. split; [reflexivity | exact Hu].
    + right. intros [_ Hx]. contradiction.
Qed.

(** What [update] does. *)
Lemma update_outcome `{Frozenset} (kw : kwargs) (db : DB) :
  (exists e, (e = DoesNotExist \/ e = MultipleObjectsReturned)
     /\ update kw db = (Raise e, db)
     /\ objects_get (kw_user_id kw) (kw_usage_key kw) db = (Raise e, db))
  \/ exists g0,
       filter (fun g => user_id g = kw_user_id kw /\ usage_key g = kw_usage_key kw)
              (grades db) = [g0]
       /\ ((exists e, (e = TypeError \/ e = AttributeError)
              /\ update kw db = (Raise e, db)
              /\ (as_BlockRecordSet (kw_visible_blocks kw) = Raise e
                  \/ exists vb, as_BlockRecordSet (kw_visible_blocks kw) = Ok vb
                       /\ to_json vb = Raise e))
           \/ exists vb rs h j,
                as_BlockRecordSet (kw_visible_blocks kw) = Ok vb
                /\ members vb = map PyBlockRecord rs
                /\ to_json vb = Ok j /\ to_hash vb = Ok h
                /\ ((conflicts h db
                     /\ update kw db
                        = (Raise IntegrityError,
                           record_event (LogError race_message)
                             (resolved h j (resolved h j db))))
                    \/ (~ conflicts h db
                        /\ update kw db
                           = (save (mkGrade (pk g0) (user_id g0) (course_id g0)
                                      (usage_key g0)
                                      (kw_subtree_edited_date kw) (kw_course_version kw)
                                      (kw_earned_all kw) (kw_possible_all kw)
                                      (kw_earned_graded kw) (kw_possible_graded kw) h) ;;;
                              ret tt)%M (resolved h j (resolved h j db))))).
Proof.
  destruct (objects_get (kw_user_id kw) (kw_usage_key kw) db) as [[g0|e] d0] eqn:Hget.
  2:{ left. exists e.
      assert (d0 = db /\ (e = DoesNotExist \/ e = MultipleObjectsReturned)) as [-> He].
      { unfold objects_get in Hget.
        destruct (filter _ (grades db)) as [|? [|? ?]]; inversion Hget; auto. }
      split; [exact He|]. split; [|reflexivity].
      unfold update. apply bind_Raise, Hget. }
  destruct (objects_get_inv _ _ _ _ _ Hget) as (-> & _ & _ & _ & Hf).
  right. exists g0. split; [exact Hf|].
  destruct (as_BlockRecordSet (kw_visible_blocks kw)) as [vb|e] eqn:Hvb.
  2:{ left. exists e. pose proof (as_BlockRecordSet_Raise_inv _ e Hvb) as ->.
      split; [left; reflexivity|]. split; [|left; reflexivity].
      unfold update. rewrite (bind_Ok _ _ _ _ _ Hget).
      apply bind_Raise. unfold lift. rewrite Hvb. reflexivity. }
  destruct (to_hash vb) as [h|e] eqn:Hh.
  2:{ left. exists e. pose proof (to_hash_Raise_inv vb e Hh) as ->.
      split; [right; reflexivity|]. split.
      - unfold update. rewrite (bind_Ok _ _ _ _ _ Hget).
        erewrite bind_Ok by (unfold lift; rewrite Hvb; reflexivity).
        apply bind_Raise, visible_blocks_hash_of_raises, Hh.
      - right. exists vb. split; [reflexivity|].
        unfold to_hash in Hh. destruct (to_json vb) as [j|e'] eqn:Hj;
          cbn [mbind result_bind] in Hh; [discriminate Hh|]. exact Hh. }
  right. destruct (to_hash_Ok_inv vb h Hh) as (j & Hj & _).
  destruct (to_json_Ok_inv vb j Hj) as (rs & Hm & _).
  exists vb, rs, h, j. repeat (split; [first [reflexivity | assumption]|]).
  unfold update. rewrite (bind_Ok _ _ _ _ _ Hget).
  erewrite bind_Ok by (unfold lift; rewrite Hvb; reflexivity).
  erewrite bind_Ok by (apply visible_blocks_hash_of_spec; eassumption).
  destruct (conflicts_dec h db) as [Hc | Hnc].
  - left. split; [exact Hc|]. destruct Hc as [Hv Hu].
    erewrite bind_Raise; [reflexivity|].
    erewrite try_except_caught.
    + unfold bind, log_error, raise. reflexivity.
    + rewrite (create_from_blockrecords_spec vb h j _ Hj Hh).
      rewrite resolved_lookup, Hv.
      destruct (resolved_unseen h j db) as [-> _].
      rewrite !decide_True by exact Hu. reflexivity.
  - right. split; [exact Hnc|].
    destruct (resolved_visible h j db Hnc) as [j' Hfk].
    erewrite bind_Ok; [reflexivity|].
    apply try_except_Ok. rewrite (create_from_blockrecords_spec vb h j _ Hj Hh).
    rewrite Hfk. reflexivity.
Qed.

Lemma save_ret_Ok (g : PersistentSubsectionGrade) (db : DB) g' db' :
  save g db = (Ok g', db') -> (save g ;;; ret tt)%M db = (Ok tt, db').
Proof. intros Hs. unfold bind. rewrite Hs. reflexivity. Qed.

Lemma save_ret_Raise (g : PersistentSubsectionGrade) (db : DB) e db' :
  save g db = (Raise e, db') -> (save g ;;; ret tt)%M db = (Raise e, db').
Proof. intros Hs. unfold bind. rewrite Hs. reflexivity. Qed.

Lemma filter_singleton_elem (u : Z) (k : UsageKey) (gs : list PersistentSubsectionGrade) g0 :
  filter (fun g => user_id g = u /\ usage_key g = k) gs = [g0] ->
  g0 ∈ gs /\ user_id g0 = u /\ usage_key g0 = k.
Proof.
  intros Hf.
  assert (g0 ∈ filter (fun g => user_id g = u /\ usage_key g = k) gs) as Hin.
  { rewrite Hf. left. }
  apply list_elem_of_filter in Hin. destruct Hin as [[Hu Hk] Hin]. auto.
Qed.

(** The state [update] leaves is consistent when the state it starts from
    is, and holds every row of [VisibleBlocks] that was there. *)
Lemma update_consistent_aux `{Frozenset} (kw : kwargs) (db : DB) r db' :
  update kw db = (r, db') -> consistent db ->
  consistent db' /\ store_extends db db'
  /\ map pk (grades db') = map pk (grades db)
  /\ map (fun g => (user_id g, course_id g, usage_key g)) (grades db')
     = map (fun g => (user_id g, course_id g, usage_key g)) (grades db)
  /\ next_pk db' = next_pk db.
Proof.
  intros Hup Hc.
  destruct (update_outcome kw db) as [(e & _ & Hu & _) | (g0 & Hf & Hrest)].
  { rewrite Hu in Hup. inversion Hup. subst.
    split; [exact Hc|]. split; [apply store_extends_refl|]. repeat split; reflexivity. }
  destruct Hrest as [(e & _ & Hu & _) | (vb & rs & h & j & Hvb & Hm & Hj & Hh & Hrest)].
  { rewrite Hu in Hup. inversion Hup. subst.
    split; [exact Hc|]. split; [apply store_extends_refl|]. repeat split; reflexivity. }
  assert (consistent (resolved h j (resolved h j db))) as Hc2.
  { apply (resolved_consistent vb); try assumption.
    apply (resolved_consistent vb); assumption. }
  assert (store_extends db (resolved h j (resolved h j db))) as Hext.
  { eapply store_extends_trans; apply resolved_extends. }
  destruct Hrest as [(_ & Hu) | (Hnc & Hu)].
  { rewrite Hu in Hup. inversion Hup. subst.
    cbn [grades next_pk record_event]. rewrite !resolved_grades, !resolved_next_pk.
    split; [exact Hc2|]. split; [exact Hext|]. repeat split; reflexivity. }
  rewrite Hu in Hup. clear Hu.
  set (db2 := resolved h j (resolved h j db)) in *.
  destruct (filter_singleton_elem _ _ _ _ Hf) as (Hin0 & Hu0 & Hk0).
  destruct Hc as [Hs Hg]. pose proof Hg as (Hrow & _ & _).
  destruct (Hrow g0 Hin0) as (Hc0 & (i & Hi & Hlt) & _).
  rewrite Hi in Hup.
  match type of Hup with (save ?g ;;; _)%M _ = _ => set (written := g) in * end.
  destruct (save_cases written db2) as [Hsave | (_ & _ & Hsave)].
  - rewrite (save_ret_Raise _ _ _ _ Hsave) in Hup. inversion Hup. subst.
    unfold db2. rewrite !resolved_grades, !resolved_next_pk.
    split; [exact Hc2|]. split; [exact Hext|]. repeat split; reflexivity.
  - cbn [pk written] in Hsave.
    rewrite (save_ret_Ok _ _ _ _ Hsave) in Hup. inversion Hup. subst. clear Hup.
    assert (grades db2 = grades db) as Hg2 by (unfold db2; rewrite !resolved_grades; reflexivity).
    assert (next_pk db2 = next_pk db) as Hn2
      by (unfold db2; rewrite !resolved_next_pk; reflexivity).
    assert (is_Some (visibleblocks db2 !! h)) as Hfk.
    { destruct (resolved_visible h j db Hnc) as [j' Hj'].
      exists j'. apply (resolved_extends h j (resolved h j db)), Hj'. }
    assert (grades_ok db2) as Hg2ok by apply Hc2.
    assert (g0 ∈ grades db2) as Hin2 by (rewrite Hg2; exact Hin0).
    pose proof (replace_grades_ok written g0 i db2 Hg2ok Hin2 Hi eq_refl eq_refl eq_refl
                  eq_refl Hfk) as Hnew.
    split; [split; [apply Hc2 | exact Hnew]|].
    split; [exact Hext|].
    cbn [grades next_pk set_grades]. rewrite Hg2, Hn2.
    assert (forall g', g' ∈ grades db -> pk g' = Some i -> g' = g0) as Huniq.
    { intros g' Hin' Hp'. destruct Hg as (_ & Hpk & _).
      apply (NoDup_map_inj pk (grades db)); try assumption. congruence. }
    rewrite !map_map. split; [|split; [|reflexivity]].
    + apply map_ext_in. intros g' Hin'.
      destruct (bool_decide (pk g' = Some i)) eqn:E; [|reflexivity].
      apply bool_decide_eq_true_1 in E. rewrite E. reflexivity.
    + apply map_ext_in. intros g' Hin'.
      destruct (bool_decide (pk g' = Some i)) eqn:E; [|reflexivity].
      apply bool_decide_eq_true_1 in E. apply list_elem_of_In in Hin'.
      rewrite (Huniq g' Hin' E). reflexivity.
Qed.

Lemma create_consistent_aux `{Frozenset} `{FieldValidators} (kw : kwargs) (db : DB) r db' :
  create kw db = (r, db') -> consistent db ->
  consistent db' /\ store_extends db db'
  /\ (grades db' = grades db /\ next_pk db' = next_pk db
      \/ exists g, r = Ok g /\ grades db' = grades db ++ [g]
           /\ pk g = Some (next_pk db) /\ next_pk db' = next_pk db + 1).
Proof.
  intros Hcr Hc.
  destruct (create_outcome kw db)
    as [(e & _ & Hu & _) | (vb & rs & h & j & Hvb & Hm & Hj & Hh & Hrest)].
  { rewrite Hu in Hcr. inversion Hcr. subst.
    split; [exact Hc|]. split; [apply store_extends_refl|]. left. split; reflexivity. }
  pose proof (resolved_consistent vb h j db Hj Hh Hc) as Hc1.
  pose proof (resolved_extends h j db) as Hext.
  destruct Hrest as [(Hu & _) | [(Hu & _) | (Hu & Hclean & Hfk & Hkt & Hun)]];
    rewrite Hu in Hcr; inversion Hcr; subst; clear Hcr.
  1,2: split; [exact Hc1|]; split; [exact Hext|]; left;
       rewrite resolved_grades, resolved_next_pk; split; reflexivity.
  split; [|split].
  - split; [apply Hc1|].
    assert (key_taken (new_grade kw h None) (resolved h j db) = false) as Hkt1.
    { unfold key_taken. rewrite resolved_grades. exact Hkt. }
    pose proof (insert_grades_ok (new_grade kw h None) (resolved h j db)
                  (proj2 Hc1) eq_refl eq_refl Hfk Hkt1) as Hnew.
    cbn [user_id course_id usage_key subtree_edited_date course_version
         earned_all possible_all earned_graded possible_graded
         visible_blocks_id new_grade] in Hnew.
    fold (new_grade kw h (Some (next_pk (resolved h j db)))) in Hnew.
    rewrite resolved_grades, resolved_next_pk in Hnew. exact Hnew.
  - exact Hext.
  - right. eexists. split; [reflexivity|].
    cbn [grades next_pk set_grades pk new_grade]. repeat split; reflexivity.
Qed.

(** ** The store of visible blocks *)

(** X10. The row [create_from_blockrecords] returns is in the table under
    the hash of the blocks it was given; no row with another hash is
    touched, no row is altered or removed, and the grades are left alone.
    When no row had that hash the new row holds the canonical text of the
    blocks.  Rows that hold the canonical text of a set under its hash
    still do afterwards. *)
Theorem create_from_blockrecords_stores_under_hash `{Frozenset}
    (arg : blocks_arg) (db : DB) (m : VisibleBlocks) (db' : DB) :
  create_from_blockrecords arg db = (Ok m, db') ->
  exists vb,
    as_BlockRecordSet arg = Ok vb
    /\ to_hash vb = Ok (hashed m)
    /\ visibleblocks db' !! hashed m = Some (blocks_json m)
    /\ store_extends db db'
    /\ (forall h', h' <> hashed m -> visibleblocks db' !! h' = visibleblocks db !! h')
    /\ grades db' = grades db
    /\ (visibleblocks db !! hashed m = None -> to_json vb = Ok (blocks_json m))
    /\ (store_ok db -> store_ok db').
Proof.
  intros Hc.
  destruct (create_from_blockrecords_outcome arg db)
    as [(e & _ & He) | (vb & rs & h & j & Hvb & Hm & Hj & Hh & Hres)].
  { rewrite He in Hc. discriminate Hc. }
  rewrite Hres in Hc. exists vb.
  assert (hashed m = h /\ db' = resolved h j db
          /\ visibleblocks (resolved h j db) !! h = Some (blocks_json m)
          /\ (visibleblocks db !! h = None -> blocks_json m = j)) as (Hhm & -> & Hl & Hnew).
  { rewrite resolved_lookup.
    destruct (visibleblocks db !! h) as [j'|] eqn:Hv.
    - inversion Hc. subst. cbn. repeat split; try reflexivity.
      intros Hx. discriminate Hx.
    - destruct (decide (h ∈ visibleblocks_unseen db)); [discriminate Hc|].
      inversion Hc. subst. cbn. repeat split; reflexivity. }
  rewrite Hhm. split; [exact Hvb|]. split; [exact Hh|]. split; [exact Hl|].
  split; [apply resolved_extends|]. split; [intros h' Hne; apply resolved_other, Hne|].
  split; [apply resolved_grades|]. split.
  - intros Hv. rewrite (Hnew Hv). exact Hj.
  - apply (resolved_store_ok vb); assumption.
Qed.

Lemma to_hash_length (vb : BlockRecordSet) (h : string) :
  to_hash vb = Ok h -> String.length h = 44%nat.
Proof.
  intros Hh. destruct (to_hash_Ok_inv vb h Hh) as (j & _ & ->).
  rewrite string_length_chars, chars_string_of_list, b64encode_length,
    sha256_digest_length. reflexivity.
Qed.

Lemma from_json_canonical `{Frozenset} (vb : BlockRecordSet) (j : string) :
  to_json vb = Ok j ->
  exists s, from_json j = Ok s /\ set_eq s vb
    /\ forall o, o ∈ members s -> is_record o = true.
Proof.
  intros Hj. destruct (to_json_Ok_inv vb j Hj) as (rs & Hm & ->).
  destruct (from_json_dumps_records (sorted locator String.leb rs))
    as (xs' & Hfrom & _ & Hel).
  exists (records_of xs'). split; [exact Hfrom|]. split.
  - intros o. rewrite Hm. cbn [members records_of].
    apply elem_of_records. intros r. rewrite Hel.
    rewrite (sorted_Permutation locator String.leb rs). reflexivity.
  - intros o Ho. cbn [members records_of] in Ho. apply list_elem_of_fmap in Ho.
    destruct Ho as (r & -> & _). reflexivity.
Qed.



(** ** The invariants *)

(** X13. [create] leaves consistent tables consistent, whatever it returns
    or raises; it removes and alters no row of either table, and adds at
    most the one grade it returns, under a fresh primary key. *)
Theorem create_keeps_consistent `{Frozenset} `{FieldValidators}
    (kw : kwargs) (db : DB) (r : result PersistentSubsectionGrade) (db' : DB) :
  consistent db -> create kw db = (r, db') ->
  consistent db' /\ store_extends db db'
  /\ (grades db' = grades db /\ next_pk db' = next_pk db
      \/ exists g, r = Ok g /\ grades db' = grades db ++ [g]
           /\ pk g = Some (next_pk db) /\ next_pk db' = next_pk db + 1).
Proof. intros Hc Hcr. exact (create_consistent_aux kw db r db' Hcr Hc). Qed.

(** X14. [update] leaves consistent tables consistent, whatever it returns
    or raises; it removes and alters no row of [VisibleBlocks], and the
    grade rows keep their primary keys and their identifying columns, row
    by row. *)
Theorem update_keeps_consistent `{Frozenset}
    (kw : kwargs) (db : DB) (r : result unit) (db' : DB) :
  consistent db -> update kw db = (r, db') ->
  consistent db' /\ store_extends db db'
  /\ map pk (grades db') = map pk (grades db)
  /\ map (fun g => (user_id g, course_id g, usage_key g)) (grades db')
     = map (fun g => (user_id g, course_id g, usage_key g)) (grades db)
  /\ next_pk db' = next_pk db.
Proof. intros Hc Hup. exact (update_consistent_aux kw db r db' Hup Hc). Qed.

(** X15. [save_grade] leaves consistent tables consistent, whatever it
    returns or raises, and removes and alters no row of [VisibleBlocks];
    the grade rows that were there keep their primary keys. *)
Theorem save_grade_keeps_consistent `{Frozenset} `{FieldValidators}
    (kw : kwargs) (db : DB) (r : result unit) (db' : DB) :
  consistent db -> save_grade kw db = (r, db') ->
  consistent db' /\ store_extends db db'
  /\ exists tl, map pk (grades db') = map pk (grades db) ++ tl.
Proof.
  intros Hc Hsg. unfold save_grade, try_except in Hsg.
  destruct (update kw db) as [[[]|e] d1] eqn:Hup.
  - inversion Hsg. subst.
    destruct (update_consistent_aux kw db _ _ Hup Hc) as (Hc' & Hext & Hpk & _).
    split; [exact Hc'|]. split; [exact Hext|]. exists []. rewrite app_nil_r. exact Hpk.
  - destruct (decide (e = DoesNotExist)) as [->|Hne].
    + destruct (update_DoesNotExist_inv kw db d1 Hup) as [-> _].
      unfold bind, ret in Hsg.
      destruct (create kw db) as [[g|e] d2] eqn:Hcr; inversion Hsg; subst.
      all: destruct (create_consistent_aux kw db _ _ Hcr Hc) as (Hc' & Hext & Hg).
      all: split; [exact Hc'|]; split; [exact Hext|].
      all: destruct Hg as [[-> _] | (g' & _ & -> & _)];
        [exists []; rewrite app_nil_r; reflexivity
        | exists [pk g']; rewrite map_app; reflexivity].
    + inversion Hsg. subst.
      destruct (update_consistent_aux kw db _ _ Hup Hc) as (Hc' & Hext & Hpk & _).
      split; [exact Hc'|]. split; [exact Hext|]. exists []. rewrite app_nil_r. exact Hpk.
Qed.

Lemma filter_key_NoDup (u : Z) (k : UsageKey) (gs : list PersistentSubsectionGrade) :
  NoDup (map (fun g => (user_id g, usage_key g)) gs) ->
  filter (fun g => user_id g = u /\ usage_key g = k) gs = []
  \/ exists g, filter (fun g => user_id g = u /\ usage_key g = k) gs = [g].
Proof.
  induction gs as [|a gs IH]; intros Hnd; [left; reflexivity|].
  cbn [map] in Hnd. apply NoDup_cons in Hnd. destruct Hnd as [Hna Hnd].
  rewrite filter_cons. destruct (decide (user_id a = u /\ usage_key a = k)) as [[Hu Hk]|Hn].
  - right. exists a. f_equal. apply filter_key_absent.
    intros g Hin [Hu' Hk']. apply Hna. apply list_elem_of_fmap. exists g.
    split; [congruence | exact Hin].
  - apply IH, Hnd.
Qed.

(** X16. On consistent tables [read] changes nothing and either returns
    the one row of the user and subsection or raises [DoesNotExist] because
    there is none; it never finds two. *)
Theorem read_returns_the_row_or_DoesNotExist (u : Z) (k : UsageKey) (db : DB) :
  consistent db ->
  (exists g, read u k db = (Ok g, db)
     /\ g ∈ grades db /\ user_id g = u /\ usage_key g = k
     /\ forall g', g' ∈ grades db -> user_id g' = u -> usage_key g' = k -> g' = g)
  \/ (read u k db = (Raise DoesNotExist, db)
      /\ forall g, g ∈ grades db -> ~ (user_id g = u /\ usage_key g = k)).
Proof.
  intros (_ & _ & _ & Hkey). unfold read, objects_get.
  destruct (filter_key_NoDup u k (grades db) Hkey) as [Hf | (g & Hf)]; rewrite Hf.
  - right. split; [reflexivity|]. intros g Hin Hg.
    assert (g ∈ filter (fun g => user_id g = u /\ usage_key g = k) (grades db)) as Hx.
    { apply list_elem_of_filter. split; assumption. }
    rewrite Hf in Hx. apply not_elem_of_nil in Hx. exact Hx.
  - left. exists g. split; [reflexivity|].
    destruct (filter_singleton_elem u k (grades db) g Hf) as (Hin & Hu & Hk).
    repeat (split; [assumption|]).
    intros g' Hin' Hu' Hk'.
    assert (g' ∈ filter (fun g => user_id g = u /\ usage_key g = k) (grades db)) as Hx.
    { apply list_elem_of_filter. split; [split|]; assumption. }
    rewrite Hf in Hx. apply list_elem_of_singleton in Hx. exact Hx.
Qed.

(** ** Reading what was written *)

Lemma read_eq (u : Z) (k : UsageKey) (db : DB) :
  read u k db
  = (match filter (fun g => user_id g = u /\ usage_key g = k) (grades db) with
     | [] => Raise DoesNotExist
     | [g] => Ok g
     | _ => Raise MultipleObjectsReturned
     end, db).
Proof.
  unfold read, objects_get.
  destruct (filter _ (grades db)) as [|? [|? ?]]; reflexivity.
Qed.

Lemma read_frame (u : Z) (k : UsageKey) (db db' : DB) :
  filter (fun g => user_id g = u /\ usage_key g = k) (grades db')
  = filter (fun g => user_id g = u /\ usage_key g = k) (grades db) ->
  read u k db' = (fst (read u k db), db').
Proof. intros Hf. rewrite !read_eq, Hf. reflexivity. Qed.

Lemma create_key_free (kw : kwargs) (h : string) (db : DB) :
  grades_ok db ->
  key_taken (new_grade kw h None) db = false ->
  forall g, g ∈ grades db ->
    ~ (user_id g = kw_user_id kw /\ usage_key g = kw_usage_key kw).
Proof.
  intros (Hrow & _ & _) Hkt g Hin [Hu Hk].
  destruct (Hrow g Hin) as (Hc & _ & _).
  destruct (key_taken_false_inv (new_grade kw h None) db g Hkt Hin) as [Hne _];
    cbn [new_grade user_id course_id usage_key pk] in *; try congruence.
Qed.

(** X17. After [create] has returned a grade on consistent tables, [read]
    for its user and subsection returns that grade: the arguments of
    [create], the course of the usage key, the hash of the blocks (a row of
    [VisibleBlocks] by then) and a fresh primary key.  Before, [read]
    raised [DoesNotExist]; for every other user or subsection [read]
    answers as before. *)
Theorem read_after_create `{Frozenset} `{FieldValidators}
    (kw : kwargs) (db : DB) (g : PersistentSubsectionGrade) (db' : DB) :
  consistent db -> create kw db = (Ok g, db') ->
  read (kw_user_id kw) (kw_usage_key kw) db' = (Ok g, db')
  /\ (exists vb h,
        as_BlockRecordSet (kw_visible_blocks kw) = Ok vb /\ to_hash vb = Ok h
        /\ g = new_grade kw h (Some (next_pk db))
        /\ is_Some (visibleblocks db' !! h))
  /\ read (kw_user_id kw) (kw_usage_key kw) db = (Raise DoesNotExist, db)
  /\ (forall u k, (u, k) <> (kw_user_id kw, kw_usage_key kw) ->
        read u k db' = (fst (read u k db), db')).
Proof.
  intros [Hs Hg] Hcr.
  destruct (create_outcome kw db)
    as [(e & _ & Hu & _) | (vb & rs & h & j & Hvb & Hm & Hj & Hh & Hrest)].
  { rewrite Hu in Hcr. discriminate Hcr. }
  destruct Hrest as [(Hu & _) | [(Hu & _) | (Hu & Hclean & Hfk & Hkt & Hun)]];
    rewrite Hu in Hcr; inversion Hcr; subst; clear Hcr.
  pose proof (create_key_free kw h db Hg Hkt) as Hfree.
  split; [|split; [|split]].
  - rewrite read_eq. cbn [grades set_grades].
    rewrite (filter_key_snoc _ _ _ _ Hfree) by reflexivity. reflexivity.
  - exists vb, h. repeat (split; [first [reflexivity | assumption]|]).
    cbn [visibleblocks set_grades]. exact Hfk.
  - apply objects_get_absent, Hfree.
  - intros u k Hne. apply read_frame. cbn [grades set_grades].
    rewrite filter_app. rewrite (filter_key_absent u k [_]); [apply app_nil_r|].
    intros g Hin [Hu' Hk']. apply list_elem_of_singleton in Hin. subst g.
    cbn [new_grade user_id usage_key] in *. apply Hne. congruence.
Qed.

Lemma filter_replace (u : Z) (k : UsageKey) (gs : list PersistentSubsectionGrade)
    (g0 w : PersistentSubsectionGrade) (i : Z) :
  (forall g', g' ∈ gs -> pk g' = Some i -> g' = g0) ->
  user_id w = user_id g0 -> usage_key w = usage_key g0 ->
  filter (fun g => user_id g = u /\ usage_key g = k)
         (map (fun g' => if bool_decide (pk g' = Some i) then w else g') gs)
  = map (fun g' => if bool_decide (pk g' = Some i) then w else g')
        (filter (fun g => user_id g = u /\ usage_key g = k) gs).
Proof.
  intros Huniq Hu Hk. induction gs as [|a gs IH]; [reflexivity|].
  assert (forall g', g' ∈ gs -> pk g' = Some i -> g' = g0) as Huniq'.
  { intros g' Hin. apply Huniq. right. exact Hin. }
  specialize (IH Huniq').
  cbn [map]. rewrite !filter_cons.
  destruct (bool_decide (pk a = Some i)) eqn:E.
  - apply bool_decide_eq_true_1 in E.
    assert (a = g0) as -> by (apply Huniq; [left | exact E]).
    destruct (decide (user_id w = u /\ usage_key w = k)) as [Hw|Hw];
      destruct (decide (user_id g0 = u /\ usage_key g0 = k)) as [H0|H0].
    + cbn [map]. rewrite (bool_decide_eq_true_2 _ E), IH. reflexivity.
    + exfalso. apply H0. rewrite <- Hu, <- Hk. exact Hw.
    + exfalso. apply Hw. rewrite Hu, Hk. exact H0.
    + exact IH.
  - destruct (decide (user_id a = u /\ usage_key a = k)) as [Ha|Ha].
    + cbn [map]. rewrite E, IH. reflexivity.
    + exact IH.
Qed.

Lemma map_replace_others (gs : list PersistentSubsectionGrade)
    (g0 w : PersistentSubsectionGrade) (i : Z) :
  (forall g', g' ∈ gs -> pk g' = Some i -> g' = g0) ->
  g0 ∉ gs ->
  map (fun g' => if bool_decide (pk g' = Some i) then w else g') gs = gs.
Proof.
  intros Huniq Hnot. rewrite <- (map_id gs) at 2. apply map_ext_in.
  intros a Hin. apply list_elem_of_In in Hin.
  destruct (bool_decide (pk a = Some i)) eqn:E; [|reflexivity].
  apply bool_decide_eq_true_1 in E. exfalso. apply Hnot.
  rewrite <- (Huniq a Hin E). exact Hin.
Qed.

Lemma grades_ok_pk_unique (db : DB) (g0 : PersistentSubsectionGrade) (i : Z) :
  grades_ok db -> g0 ∈ grades db -> pk g0 = Some i ->
  forall g', g' ∈ grades db -> pk g' = Some i -> g' = g0.
Proof.
  intros (_ & Hpk & _) Hin0 Hi g' Hin' Hp'.
  apply (NoDup_map_inj pk (grades db)); try assumption. congruence.
Qed.

Lemma key_taken_own (db : DB) (g0 w : PersistentSubsectionGrade) (i : Z) :
  grades_ok db -> g0 ∈ grades db -> pk g0 = Some i ->
  pk w = Some i -> user_id w = user_id g0 -> usage_key w = usage_key g0 ->
  key_taken w db = false.
Proof.
  intros Hg Hin0 Hi Hpw Hu Hk.
  destruct (key_taken w db) eqn:Hkt; [|reflexivity]. exfalso.
  unfold key_taken in Hkt. apply existsb_exists in Hkt.
  destruct Hkt as (g' & Hin' & Hx). apply list_elem_of_In in Hin'.
  apply andb_prop in Hx. destruct Hx as [Hsame Hother].
  unfold same_key in Hsame.
  apply andb_prop in Hsame. destruct Hsame as [Hsame Hk'].
  apply andb_prop in Hsame. destruct Hsame as [Hu' _].
  apply bool_decide_eq_true_1 in Hu', Hk'.
  assert (g' = g0) as ->.
  { destruct Hg as (_ & _ & Hkey).
    apply (NoDup_map_inj (fun g => (user_id g, usage_key g)) (grades db));
      try assumption. cbn. congruence. }
  unfold other_row in Hother. rewrite Hpw, Hi in Hother.
  rewrite bool_decide_eq_true_2 in Hother by reflexivity. discriminate Hother.
Qed.

(** What a successful [update] has done, on consistent tables. *)
Lemma update_Ok_inv `{Frozenset} (kw : kwargs) (db db' : DB) :
  grades_ok db -> update kw db = (Ok tt, db') ->
  exists g0 i vb rs h j,
    filter (fun g => user_id g = kw_user_id kw /\ usage_key g = kw_usage_key kw)
           (grades db) = [g0]
    /\ pk g0 = Some i
    /\ as_BlockRecordSet (kw_visible_blocks kw) = Ok vb
    /\ members vb = map PyBlockRecord rs
    /\ to_json vb = Ok j /\ to_hash vb = Ok h
    /\ ~ conflicts h db
    /\ db' = set_grades
               (map (fun g' => if bool_decide (pk g' = Some i)
                               then mkGrade (Some i) (user_id g0) (course_id g0)
                                      (usage_key g0)
                                      (kw_subtree_edited_date kw) (kw_course_version kw)
                                      (kw_earned_all kw) (kw_possible_all kw)
                                      (kw_earned_graded kw) (kw_possible_graded kw) h
                               else g') (grades db))
               (next_pk db) (resolved h j (resolved h j db)).
Proof.
  intros Hg Hup.
  destruct (update_outcome kw db) as [(e & _ & Hu & _) | (g0 & Hf & Hrest)].
  { rewrite Hu in Hup. discriminate Hup. }
  destruct Hrest as [(e & _ & Hu & _) | (vb & rs & h & j & Hvb & Hm & Hj & Hh & Hrest)].
  { rewrite Hu in Hup. discriminate Hup. }
  destruct Hrest as [(_ & Hu) | (Hnc & Hu)].
  { rewrite Hu in Hup. discriminate Hup. }
  rewrite Hu in Hup. clear Hu.
  destruct (filter_singleton_elem _ _ _ _ Hf) as (Hin0 & Hu0 & Hk0).
  pose proof Hg as (Hrow & _ & _).
  destruct (Hrow g0 Hin0) as (_ & (i & Hi & _) & _).
  exists g0, i, vb, rs, h, j. repeat (split; [assumption|]).
  rewrite Hi in Hup.
  match type of Hup with (save ?g ;;; _)%M ?d = _ =>
    destruct (save_cases g d) as [Hsave | (_ & _ & Hsave)] end.
  - rewrite (save_ret_Raise _ _ _ _ Hsave) in Hup. discriminate Hup.
  - cbn [pk] in Hsave. rewrite (save_ret_Ok _ _ _ _ Hsave) in Hup.
    inversion Hup. rewrite !resolved_grades, !resolved_next_pk. reflexivity.
Qed.

(** X18. After [update] has returned on consistent tables, [read] for the
    user and subsection returns the row [read] returned before with the
    seven columns [update] assigns taken from the arguments, the hash of
    the blocks among them, and the primary key and identifying columns
    kept.  The number of rows is the same, and for every other user or
    subsection [read] answers as before. *)
Theorem update_replaces_one_row `{Frozenset} (kw : kwargs) (db db' : DB) :
  consistent db -> update kw db = (Ok tt, db') ->
  exists g0 vb h,
    read (kw_user_id kw) (kw_usage_key kw) db = (Ok g0, db)
    /\ as_BlockRecordSet (kw_visible_blocks kw) = Ok vb /\ to_hash vb = Ok h
    /\ read (kw_user_id kw) (kw_usage_key kw) db'
       = (Ok (mkGrade (pk g0) (user_id g0) (course_id g0) (usage_key g0)
                (kw_subtree_edited_date kw) (kw_course_version kw)
                (kw_earned_all kw) (kw_possible_all kw)
                (kw_earned_graded kw) (kw_possible_graded kw) h), db')
    /\ is_Some (visibleblocks db' !! h)
    /\ length (grades db') = length (grades db)
    /\ (forall u k, (u, k) <> (kw_user_id kw, kw_usage_key kw) ->
          read u k db' = (fst (read u k db), db')).
Proof.
  intros [Hs Hg] Hup.
  destruct (update_Ok_inv kw db db' Hg Hup)
    as (g0 & i & vb & rs & h & j & Hf & Hi & Hvb & Hm & Hj & Hh & Hnc & ->).
  destruct (filter_singleton_elem _ _ _ _ Hf) as (Hin0 & Hu0 & Hk0).
  pose proof (grades_ok_pk_unique db g0 i Hg Hin0 Hi) as Huniq.
  exists g0, vb, h.
  split; [rewrite read_eq, Hf; reflexivity|].
  split; [exact Hvb|]. split; [exact Hh|].
  split; [|split; [|split]].
  - rewrite read_eq. cbn [grades set_grades].
    rewrite (filter_replace _ _ _ g0 _ i Huniq) by reflexivity.
    rewrite Hf. cbn [map]. rewrite (bool_decide_eq_true_2 _ Hi), Hi. reflexivity.
  - cbn [visibleblocks set_grades].
    destruct (resolved_visible h j db Hnc) as [j' Hj'].
    exists j'. apply (resolved_extends h j (resolved h j db)), Hj'.
  - cbn [grades set_grades]. apply length_map.
  - intros u k Hne. apply read_frame. cbn [grades set_grades].
    rewrite (filter_replace _ _ _ g0 _ i Huniq) by reflexivity.
    apply (map_replace_others _ g0).
    + intros g' Hin' Hp'. apply list_elem_of_filter in Hin'.
      apply Huniq; [apply Hin' | exact Hp'].
    + intros Hin'. apply list_elem_of_filter in Hin'. destruct Hin' as [[Hu' Hk'] _].
      apply Hne. congruence.
Qed.

Lemma resolved_present (h j : string) (db : DB) :
  is_Some (visibleblocks db !! h) ->
  visibleblocks (resolved h j db) = visibleblocks db.
Proof.
  intros [j' Hj']. unfold resolved. cbv zeta. rewrite Hj'. reflexivity.
Qed.


(** ** Errors *)

Lemma create_Raise_inv `{Frozenset} `{FieldValidators} (kw : kwargs) (db : DB) e db' :
  create kw db = (Raise e, db') ->
  ((e = TypeError \/ e = AttributeError) /\ db' = db
   /\ (as_BlockRecordSet (kw_visible_blocks kw) = Raise e
       \/ exists vb, as_BlockRecordSet (kw_visible_blocks kw) = Ok vb
            /\ to_json vb = Raise e))
  \/ exists vb h j,
       as_BlockRecordSet (kw_visible_blocks kw) = Ok vb
       /\ to_json vb = Ok j /\ to_hash vb = Ok h
       /\ (e = ValidationError \/ e = IntegrityError)
       /\ db' = resolved h j db.
Proof.
  intros Hcr.
  destruct (create_outcome kw db)
    as [(e' & He & Hu & Hwhy) | (vb & rs & h & j & Hvb & Hm & Hj & Hh & Hrest)].
  { rewrite Hu in Hcr. inversion Hcr. subst. left. auto. }
  right. exists vb, h, j. repeat (split; [assumption|]).
  destruct Hrest as [(Hu & _) | [(Hu & _) | (Hu & _)]];
    rewrite Hu in Hcr; inversion Hcr; subst; auto.
Qed.

Lemma update_Raise_inv `{Frozenset} (kw : kwargs) (db : DB) e db' :
  update kw db = (Raise e, db') ->
  ((e = DoesNotExist \/ e = MultipleObjectsReturned) /\ db' = db
   /\ objects_get (kw_user_id kw) (kw_usage_key kw) db = (Raise e, db))
  \/ ((e = TypeError \/ e = AttributeError) /\ db' = db
      /\ (exists g0, objects_get (kw_user_id kw) (kw_usage_key kw) db = (Ok g0, db))
      /\ (as_BlockRecordSet (kw_visible_blocks kw) = Raise e
          \/ exists vb, as_BlockRecordSet (kw_visible_blocks kw) = Ok vb
               /\ to_json vb = Raise e))
  \/ exists vb h j,
       as_BlockRecordSet (kw_visible_blocks kw) = Ok vb
       /\ to_json vb = Ok j /\ to_hash vb = Ok h
       /\ e = IntegrityError
       /\ (db' = resolved h j (resolved h j db)
           \/ conflicts h db
              /\ db' = record_event (LogError race_message)
                         (resolved h j (resolved h j db))).
Proof.
  intros Hup.
  destruct (update_outcome kw db) as [(e' & He & Hu & Hget) | (g0 & Hf & Hrest)].
  { rewrite Hu in Hup. inversion Hup. subst. left. auto. }
  right.
  destruct Hrest as [(e' & He & Hu & Hwhy)
                    | (vb & rs & h & j & Hvb & Hm & Hj & Hh & Hrest)].
  { rewrite Hu in Hup. inversion Hup. subst. left.
    repeat (split; [first [assumption | reflexivity]|]). split; [|exact Hwhy].
    exists g0. unfold objects_get. rewrite Hf. reflexivity. }
  right. exists vb, h, j. repeat (split; [assumption|]).
  destruct Hrest as [(Hc & Hu) | (Hnc & Hu)].
  { rewrite Hu in Hup. inversion Hup. subst. auto. }
  rewrite Hu in Hup. clear Hu.
  match type of Hup with (save ?g ;;; _)%M ?d = _ =>
    destruct (save_cases g d) as [Hsave | (_ & _ & Hsave)] end.
  - rewrite (save_ret_Raise _ _ _ _ Hsave) in Hup. inversion Hup. auto.
  - exfalso. destruct (pk g0) as [i|]; cbn [pk] in Hsave.
    + rewrite (save_ret_Ok _ _ _ _ Hsave) in Hup. discriminate Hup.
    + destruct Hsave as [_ Hsave]. cbv zeta in Hsave.
      rewrite (save_ret_Ok _ _ _ _ Hsave) in Hup. discriminate Hup.
Qed.

Lemma resolved_conflict (h j : string) (db : DB) :
  conflicts h db ->
  visibleblocks (resolved h j db) = visibleblocks db
  /\ visibleblocks (resolved h j db) !! h = None.
Proof.
  intros [Hv Hu]. unfold resolved. cbv zeta. rewrite Hv.
  rewrite decide_True by exact Hu. cbn [visibleblocks record_event]. auto.
Qed.

(** X20. When the row of the blocks is another transaction's, which this
    one cannot see, [create] raises [ValidationError] (the foreign-key
    validator of [full_clean] finds no row for the hash of the [except]
    branch): it has asked once for the row and has written nothing. *)
Theorem create_conflict_fails_validation `{Frozenset} `{FieldValidators}
    (kw : kwargs) (db : DB) (vb : BlockRecordSet) (h : string) :
  as_BlockRecordSet (kw_visible_blocks kw) = Ok vb ->
  to_hash vb = Ok h ->
  conflicts h db ->
  exists j db',
    to_json vb = Ok j
    /\ create kw db = (Raise ValidationError, db')
    /\ journal db' = journal db ++ [GetOrCreate h j]
    /\ grades db' = grades db
    /\ visibleblocks db' = visibleblocks db
    /\ next_pk db' = next_pk db.
Proof.
  intros Hvb Hh Hc.
  destruct (to_hash_Ok_inv vb h Hh) as (j & Hj & _).
  destruct (resolved_conflict h j db Hc) as [Hsame Hnone].
  exists j, (resolved h j db). split; [exact Hj|].
  split; [|split; [apply resolved_journal|split; [apply resolved_grades|
           split; [exact Hsame | apply resolved_next_pk]]]].
  destruct (create_outcome kw db)
    as [(e & _ & _ & [Hx | (vb' & Hvb' & Hx)])
       | (vb' & rs & h' & j' & Hvb' & Hm & Hj' & Hh' & Hrest)].
  { rewrite Hvb in Hx. discriminate Hx. }
  { rewrite Hvb in Hvb'. inversion Hvb'. subst vb'. rewrite Hj in Hx. discriminate Hx. }
  rewrite Hvb in Hvb'. inversion Hvb'. subst vb'.
  rewrite Hj in Hj'. inversion Hj'. subst j'.
  rewrite Hh in Hh'. inversion Hh'. subst h'.
  destruct Hrest as [(Hu & _) | [(_ & [x Hfk] & _) | (_ & _ & [x Hfk] & _)]].
  - exact Hu.
  - rewrite Hnone in Hfk. discriminate Hfk.
  - rewrite Hnone in Hfk. discriminate Hfk.
Qed.

Lemma first_resolution_row `{Frozenset} (vb : BlockRecordSet) (h j : string) (db : DB) :
  to_json vb = Ok j -> to_hash vb = Ok h ->
  is_Some (visibleblocks (resolved h j db) !! h) ->
  exists m,
    create_from_blockrecords (ASet vb) db = (Ok m, resolved h j db)
    /\ hashed m = h
    /\ visibleblocks (resolved h j db) !! h = Some (blocks_json m).
Proof.
  intros Hj Hh Hfk. rewrite (create_from_blockrecords_spec vb h j db Hj Hh).
  rewrite resolved_lookup in *.
  destruct (visibleblocks db !! h) as [j'|].
  - eexists. split; [reflexivity|]. split; reflexivity.
  - destruct (decide (h ∈ visibleblocks_unseen db)).
    + destruct Hfk as [x Hx]. discriminate Hx.
    + eexists. split; [reflexivity|]. split; reflexivity.
Qed.

(** X21. A grade that [create] or [update] has written refers to a row of
    [VisibleBlocks] that the first [create_from_blockrecords] returned: the
    [try] body returned a row, and the hash of the [except IntegrityError]
    branch is in no grade that was saved. *)
Theorem stored_hash_is_of_a_returned_row `{Frozenset} `{FieldValidators}
    (kw : kwargs) (db : DB) (vb : BlockRecordSet) :
  as_BlockRecordSet (kw_visible_blocks kw) = Ok vb ->
  (forall g db', create kw db = (Ok g, db') ->
     exists m db1,
       create_from_blockrecords (ASet vb) db = (Ok m, db1)
       /\ visible_blocks_id g = hashed m
       /\ visibleblocks db' !! hashed m = Some (blocks_json m))
  /\ (forall db', update kw db = (Ok tt, db') ->
      exists m db1 g,
        create_from_blockrecords (ASet vb) db = (Ok m, db1)
        /\ g ∈ grades db'
        /\ user_id g = kw_user_id kw /\ usage_key g = kw_usage_key kw
        /\ visible_blocks_id g = hashed m
        /\ visibleblocks db' !! hashed m = Some (blocks_json m)).
Proof.
  intros Hvb. split.
  - intros g db' Hcr.
    destruct (create_outcome kw db)
      as [(e & _ & Hu & _) | (vb' & rs & h & j & Hvb' & Hm & Hj & Hh & Hrest)].
    { rewrite Hu in Hcr. discriminate Hcr. }
    rewrite Hvb in Hvb'. inversion Hvb'. subst vb'.
    destruct Hrest as [(Hu & _) | [(Hu & _) | (Hu & _ & Hfk & _)]];
      rewrite Hu in Hcr; inversion Hcr; subst; clear Hcr.
    destruct (first_resolution_row vb h j db Hj Hh Hfk) as (m & Hc & Hhm & Hl).
    exists m, (resolved h j db). split; [exact Hc|].
    cbn [visible_blocks_id new_grade visibleblocks set_grades].
    rewrite Hhm. split; [reflexivity | exact Hl].
  - intros db' Hup.
    destruct (update_outcome kw db) as [(e & _ & Hu & _) | (g0 & Hf & Hrest)].
    { rewrite Hu in Hup. discriminate Hup. }
    destruct Hrest as [(e & _ & Hu & _)
                      | (vb' & rs & h & j & Hvb' & Hm & Hj & Hh & Hrest)].
    { rewrite Hu in Hup. discriminate Hup. }
    rewrite Hvb in Hvb'. inversion Hvb'. subst vb'.
    destruct Hrest as [(_ & Hu) | (Hnc & Hu)].
    { rewrite Hu in Hup. discriminate Hup. }
    rewrite Hu in Hup. clear Hu.
    destruct (filter_singleton_elem _ _ _ _ Hf) as (Hin0 & Hu0 & Hk0).
    pose proof (resolved_visible h j db Hnc) as Hfk.
    destruct (first_resolution_row vb h j db Hj Hh Hfk) as (m & Hc & Hhm & Hl).
    pose proof (resolved_extends h j (resolved h j db) _ _ Hl) as Hl2.
    exists m, (resolved h j db).
    match type of Hup with (save ?g ;;; _)%M ?d = _ =>
      destruct (save_cases g d) as [Hsave | (_ & _ & Hsave)] end.
    { rewrite (save_ret_Raise _ _ _ _ Hsave) in Hup. discriminate Hup. }
    destruct (pk g0) as [i|] eqn:Hi; cbn [pk] in Hsave.
    + rewrite (save_ret_Ok _ _ _ _ Hsave) in Hup. inversion Hup. subst db'.
      eexists. split; [exact Hc|]. split.
      * cbn [grades set_grades]. rewrite !resolved_grades.
        apply list_elem_of_fmap. exists g0. split; [|exact Hin0].
        rewrite (bool_decide_eq_true_2 _ Hi). reflexivity.
      * cbn [user_id usage_key visible_blocks_id visibleblocks set_grades].
        rewrite Hhm. repeat split; assumption.
    + destruct Hsave as [_ Hsave]. cbv zeta in Hsave.
      rewrite (save_ret_Ok _ _ _ _ Hsave) in Hup. inversion Hup. subst db'.
      eexists. split; [exact Hc|]. split.
      * cbn [grades set_grades]. apply elem_of_app. right. left.
      * cbn [user_id usage_key visible_blocks_id visibleblocks set_grades].
        rewrite Hhm. repeat split; assumption.
Qed.


Lemma create_Raise_frame `{Frozenset} `{FieldValidators} (kw : kwargs) (db : DB) e db' :
  create kw db = (Raise e, db') ->
  grades db' = grades db /\ next_pk db' = next_pk db /\ store_extends db db'.
Proof.
  intros Hcr.
  destruct (create_Raise_inv kw db e db' Hcr)
    as [(_ & -> & _) | (vb & h & j & _ & _ & _ & _ & ->)].
  - split; [reflexivity|]. split; [reflexivity | apply store_extends_refl].
  - split; [apply resolved_grades|]. split; [apply resolved_next_pk|].
    apply resolved_extends.
Qed.

Lemma update_Raise_frame `{Frozenset} (kw : kwargs) (db : DB) e db' :
  update kw db = (Raise e, db') ->
  grades db' = grades db /\ next_pk db' = next_pk db /\ store_extends db db'.
Proof.
  intros Hup.
  destruct (update_Raise_inv kw db e db' Hup)
    as [(_ & -> & _) | [(_ & -> & _) | (vb & h & j & _ & _ & _ & _ & [-> | [_ ->]])]].
  1,2: split; [reflexivity|]; split; [reflexivity | apply store_extends_refl].
  all: cbn [grades next_pk record_event]; rewrite !resolved_grades, !resolved_next_pk.
  all: split; [reflexivity|]; split; [reflexivity|].
  all: intros h' j' Hx; cbn [visibleblocks record_event].
  all: apply (resolved_extends h j (resolved h j db)), (resolved_extends h j db), Hx.
Qed.

(** X23. When [create], [update] or [save_grade] raises, the grade rows
    and the counter of primary keys are as they were, and no row of
    [VisibleBlocks] has been altered or removed. *)
Theorem failure_leaves_the_grades `{Frozenset} `{FieldValidators}
    (kw : kwargs) (db : DB) (e : exception) (db' : DB) :
  create kw db = (Raise e, db') \/ update kw db = (Raise e, db')
  \/ save_grade kw db = (Raise e, db') ->
  grades db' = grades db /\ next_pk db' = next_pk db /\ store_extends db db'.
Proof.
  intros [Hcr | [Hup | Hsg]].
  - apply (create_Raise_frame kw db e db' Hcr).
  - apply (update_Raise_frame kw db e db' Hup).
  - unfold save_grade, try_except in Hsg.
    destruct (update kw db) as [[[]|e1] d1] eqn:Hup; [discriminate Hsg|].
    destruct (decide (e1 = DoesNotExist)) as [->|Hne].
    + destruct (update_DoesNotExist_inv kw db d1 Hup) as [-> _].
      unfold bind, ret in Hsg.
      destruct (create kw db) as [[g|e2] d2] eqn:Hcr; inversion Hsg; subst.
      apply (create_Raise_frame kw db e db' Hcr).
    + inversion Hsg. subst. apply (update_Raise_frame kw db e db' Hup).
Qed.

(** X24. [create] inserts the row of the blocks before it validates the
    grade: when no transaction has that row and [create] then raises, the
    new row of [VisibleBlocks] is in the table all the same, with no grade
    that refers to it added. *)
Theorem failed_create_keeps_the_blocks_row `{Frozenset} `{FieldValidators}
    (kw : kwargs) (db : DB) (vb : BlockRecordSet) (h j : string)
    (e : exception) (db' : DB) :
  as_BlockRecordSet (kw_visible_blocks kw) = Ok vb ->
  to_json vb = Ok j -> to_hash vb = Ok h ->
  visibleblocks db !! h = None -> h ∉ visibleblocks_unseen db ->
  create kw db = (Raise e, db') ->
  visibleblocks db' = <[h := j]> (visibleblocks db)
  /\ grades db' = grades db
  /\ (e = ValidationError \/ e = IntegrityError).
Proof.
  intros Hvb Hj Hh Hv Hu Hcr.
  destruct (create_Raise_inv kw db e db' Hcr)
    as [(_ & _ & [Hx | (vb' & Hvb' & Hx)]) | (vb' & h' & j' & Hvb' & Hj' & Hh' & He & ->)].
  { rewrite Hvb in Hx. discriminate Hx. }
  { rewrite Hvb in Hvb'. inversion Hvb'. subst vb'. rewrite Hj in Hx. discriminate Hx. }
  rewrite Hvb in Hvb'. inversion Hvb'. subst vb'.
  rewrite Hj in Hj'. inversion Hj'. subst j'.
  rewrite Hh in Hh'. inversion Hh'. subst h'.
  split; [|split; [apply resolved_grades | exact He]].
  unfold resolved. cbv zeta. rewrite Hv. rewrite decide_False by exact Hu. reflexivity.
Qed.

(** X25. Blocks that cannot be serialized (a member that is not hashable,
    or one without a locator) make [create] raise [TypeError] or
    [AttributeError] before it reads or writes a table.  [update] looks
    for the grade first: with a row it raises the same and changes
    nothing, without one it raises [DoesNotExist]; [save_grade] raises the
    error of the blocks in both cases. *)
Theorem malformed_blocks_raise_before_any_write `{Frozenset} `{FieldValidators}
    (kw : kwargs) (db : DB) (e : exception) :
  as_BlockRecordSet (kw_visible_blocks kw) = Raise e
  \/ (exists vb, as_BlockRecordSet (kw_visible_blocks kw) = Ok vb
        /\ to_json vb = Raise e) ->
  (e = TypeError \/ e = AttributeError)
  /\ create kw db = (Raise e, db)
  /\ save_grade kw db
     = (match fst (read (kw_user_id kw) (kw_usage_key kw) db) with
        | Raise MultipleObjectsReturned => Raise MultipleObjectsReturned
        | _ => Raise e
        end, db)
  /\ update kw db
     = (match fst (read (kw_user_id kw) (kw_usage_key kw) db) with
        | Ok _ => Raise e
        | Raise e' => Raise e'
        end, db).
Proof.
  intros Hbad.
  assert (forall vb j, as_BlockRecordSet (kw_visible_blocks kw) = Ok vb ->
            to_json vb = Ok j -> False) as Hno.
  { intros vb j Hvb Hj. destruct Hbad as [Hx | (vb' & Hvb' & Hx)].
    - rewrite Hvb in Hx. discriminate Hx.
    - rewrite Hvb in Hvb'. inversion Hvb'. subst vb'. rewrite Hj in Hx. discriminate Hx. }
  assert (forall e', (as_BlockRecordSet (kw_visible_blocks kw) = Raise e'
                      \/ exists vb, as_BlockRecordSet (kw_visible_blocks kw) = Ok vb
                           /\ to_json vb = Raise e') -> e' = e) as Hsame.
  { intros e' [Hx | (vb' & Hvb' & Hx)]; destruct Hbad as [Hy | (vb & Hvb & Hy)];
      congruence. }
  assert (create kw db = (Raise e, db) /\ (e = TypeError \/ e = AttributeError))
    as [Hcr He].
  { destruct (create_outcome kw db)
      as [(e' & He' & Hu & Hwhy) | (vb & rs & h & j & Hvb & Hm & Hj & _)].
    - rewrite <- (Hsame e' Hwhy). auto.
    - exfalso. exact (Hno vb j Hvb Hj). }
  assert (update kw db
          = (match fst (read (kw_user_id kw) (kw_usage_key kw) db) with
             | Ok _ => Raise e
             | Raise e' => Raise e'
             end, db)) as Hup.
  { destruct (update_outcome kw db) as [(e' & _ & Hu & Hget) | (g0 & Hf & Hrest)].
    - unfold read. rewrite Hget, Hu. reflexivity.
    - rewrite read_eq, Hf. cbn [fst].
      destruct Hrest as [(e' & _ & Hu & Hwhy) | (vb & rs & h & j & Hvb & Hm & Hj & _)].
      + rewrite <- (Hsame e' Hwhy). exact Hu.
      + exfalso. exact (Hno vb j Hvb Hj). }
  split; [exact He|]. split; [exact Hcr|]. split; [|exact Hup].
  unfold save_grade, try_except. rewrite Hup.
  destruct (fst (read (kw_user_id kw) (kw_usage_key kw) db)) as [g|e'] eqn:Hr.
  - destruct (decide (e = DoesNotExist)) as [->|_]; [|reflexivity].
    destruct He as [He | He]; discriminate He.
  - destruct (decide (e' = DoesNotExist)) as [->|Hne].
    + unfold bind. rewrite Hcr. reflexivity.
    + assert (e' = MultipleObjectsReturned) as ->; [|reflexivity].
      rewrite read_eq in Hr. cbn [fst] in Hr.
      destruct (filter _ (grades db)) as [|? [|? ?]]; inversion Hr; congruence.
Qed.

(** ** Sharing *)

(** X26. Grades whose blocks have one hash share one row of
    [VisibleBlocks]: after a [create] that returned, a [create] for blocks
    of the same hash adds no row to [VisibleBlocks], and the grade it
    returns refers to the row of the first. *)
Theorem equal_blocks_share_one_row `{Frozenset} `{FieldValidators}
    (kw1 kw2 : kwargs) (db db1 db2 : DB) (g1 : PersistentSubsectionGrade)
    (r : result PersistentSubsectionGrade) (vb1 vb2 : BlockRecordSet) (h : string) :
  as_BlockRecordSet (kw_visible_blocks kw1) = Ok vb1 ->
  as_BlockRecordSet (kw_visible_blocks kw2) = Ok vb2 ->
  to_hash vb1 = Ok h -> to_hash vb2 = Ok h ->
  create kw1 db = (Ok g1, db1) ->
  create kw2 db1 = (r, db2) ->
  visibleblocks db2 = visibleblocks db1
  /\ is_Some (visibleblocks db1 !! h)
  /\ visible_blocks_id g1 = h
  /\ forall g2, r = Ok g2 -> visible_blocks_id g2 = h.
Proof.
  intros Hvb1 Hvb2 Hh1 Hh2 Hc1 Hc2.
  assert (is_Some (visibleblocks db1 !! h) /\ visible_blocks_id g1 = h) as [Hfk Hid].
  { destruct (create_outcome kw1 db)
      as [(e & _ & Hu & _) | (vb & rs & h' & j & Hvb & Hm & Hj & Hh & Hrest)].
    { rewrite Hu in Hc1. discriminate Hc1. }
    rewrite Hvb1 in Hvb. inversion Hvb. subst vb.
    rewrite Hh1 in Hh. inversion Hh. subst h'.
    destruct Hrest as [(Hu & _) | [(Hu & _) | (Hu & _ & Hfk & _)]];
      rewrite Hu in Hc1; inversion Hc1; subst; clear Hc1.
    split; [exact Hfk | reflexivity]. }
  split; [|split; [exact Hfk|split; [exact Hid|]]].
  - destruct (create_outcome kw2 db1)
      as [(e & _ & Hu & _) | (vb & rs & h' & j & Hvb & Hm & Hj & Hh & Hrest)].
    { rewrite Hu in Hc2. inversion Hc2. reflexivity. }
    rewrite Hvb2 in Hvb. inversion Hvb. subst vb.
    rewrite Hh2 in Hh. inversion Hh. subst h'.
    destruct Hrest as [(Hu & _) | [(Hu & _) | (Hu & _)]];
      rewrite Hu in Hc2; inversion Hc2; subst; cbn [visibleblocks set_grades];
      apply resolved_present, Hfk.
  - intros g2 ->.
    destruct (create_outcome kw2 db1)
      as [(e & _ & Hu & _) | (vb & rs & h' & j & Hvb & Hm & Hj & Hh & Hrest)].
    { rewrite Hu in Hc2. discriminate Hc2. }
    rewrite Hvb2 in Hvb. inversion Hvb. subst vb.
    rewrite Hh2 in Hh. inversion Hh. subst h'.
    destruct Hrest as [(Hu & _) | [(Hu & _) | (Hu & _)]];
      rewrite Hu in Hc2; inversion Hc2; subst. reflexivity.
Qed.

(* ===================================================================== *)
(** * The further properties at the sample data *)

Lemma consistent_empty_db : consistent empty_db.
Proof.
  split; [|split; [|split]].
  - intros h j Hx. cbn in Hx. rewrite lookup_empty in Hx. discriminate Hx.
  - intros g Hin. cbn in Hin. apply not_elem_of_nil in Hin. contradiction.
  - cbn. apply NoDup_nil. exact I.
  - cbn. apply NoDup_nil. exact I.
Qed.

Lemma consistent_one_row_db : consistent one_row_db.
Proof.
  split; [|split; [|split]].
  - intros h j Hx. cbn [visibleblocks one_row_db] in Hx.
    apply lookup_singleton_Some in Hx. destruct Hx as [<- <-].
    exists [mkBlockRecord "b1" 1 10]. split; by_compute.
  - intros g Hin. cbn [grades one_row_db] in Hin.
    apply list_elem_of_singleton in Hin. subst g.
    split; [reflexivity|]. split; [exists 1; split; [reflexivity | reflexivity]|].
    exists blocks1_json. by_compute.
  - cbn. apply NoDup_singleton.
  - cbn. apply NoDup_singleton.
Qed.

Lemma memo_to_json_computes_once_witness :
  let self := Memo.__init__ (mkBlockRecordSet blocks1) in
  memo_coherent self
  /\ exists self',
       Memo.to_json self = (to_json (Memo.frozen self), self')
       /\ Memo.frozen self' = Memo.frozen self
       /\ memo_coherent self'
       /\ Memo.to_json self' = (to_json (Memo.frozen self), self')
       /\ (forall j, to_json (Memo.frozen self) = Ok j -> Memo._json self' = Some j).
Proof.
  intros self.
  assert (memo_coherent self) as Hc.
  { split; [|split]; cbn; intros; try discriminate.
    destruct H as [x Hx]. discriminate Hx. }
  split; [exact Hc|].
  exact (proj2 (memo_to_json_computes_once (mkBlockRecordSet blocks1) self) Hc).
Defined.

Lemma memo_to_hash_computes_once_witness :
  let self := Memo.__init__ (mkBlockRecordSet blocks1) in
  memo_coherent self
  /\ exists self',
       Memo.to_hash self = (to_hash (Memo.frozen self), self')
       /\ Memo.frozen self' = Memo.frozen self
       /\ memo_coherent self'
       /\ Memo.to_hash self' = (to_hash (Memo.frozen self), self')
       /\ Memo.to_json self' = (to_json (Memo.frozen self), self')
       /\ (forall h, to_hash (Memo.frozen self) = Ok h ->
           Memo._hash self' = Some h
           /\ exists j, Memo._json self' = Some j /\ to_json (Memo.frozen self) = Ok j).
Proof.
  intros self.
  assert (memo_coherent self) as Hc.
  { split; [|split]; cbn; intros; try discriminate.
    destruct H as [x Hx]. discriminate Hx. }
  split; [exact Hc|]. exact (memo_to_hash_computes_once self Hc).
Defined.

Lemma to_json_printable_ascii_witness :
  let s := mkBlockRecordSet
             [PyBlockRecord (mkBlockRecord (String (chr 233) (String (chr 10) "b")) (-1) 10)] in
  let j := py "[{'locator':'\u00e9\nb','max_score':10,'weight':-1}]" in
  to_json s = Ok j /\ forallb printable (chars j) = true.
Proof.
  intros s j.
  assert (to_json s = Ok j) as Hj by by_compute.
  split; [exact Hj|]. exact (to_json_printable_ascii s j Hj).
Defined.



Lemma from_json_yields_records_witness :
  let s := mkBlockRecordSet (map PyBlockRecord [block_b1; block_b2]) in
  @from_json frozenset_forward two_blocks_json = Ok s
  /\ NoDup (members s)
  /\ (forall o, o ∈ members s -> is_record o = true)
  /\ exists j h, to_json s = Ok j /\ to_hash s = Ok h.
Proof.
  intros s.
  assert (@from_json frozenset_forward two_blocks_json = Ok s) as Hf by by_compute.
  split; [exact Hf|].
  exact (@from_json_yields_records frozenset_forward two_blocks_json s Hf).
Defined.

Lemma from_json_accepts_witness :
  let s := mkBlockRecordSet (map PyBlockRecord [block_b2; block_b1]) in
  @from_json frozenset_backward two_blocks_json = Ok s
  /\ exists v, loads two_blocks_json = Ok v
       /\ ((exists items records,
              v = JArr items
              /\ Forall2 (fun item r =>
                   exists members,
                     item = JObj members
                     /\ dict_keys members ≡ₚ ["locator"; "weight"; "max_score"]%string
                     /\ dict_get "locator" members = Some (JStr (locator r))
                     /\ dict_get "weight" members = Some (JInt (weight r))
                     /\ dict_get "max_score" members = Some (JInt (max_score r)))
                   items records
              /\ set_eq s (records_of records))
           \/ ((v = JObj [] \/ v = JStr EmptyString) /\ members s = [])).
Proof.
  intros s.
  assert (@from_json frozenset_backward two_blocks_json = Ok s) as Hf by by_compute.
  split; [exact Hf|].
  exact (@from_json_accepts frozenset_backward two_blocks_json s Hf).
Defined.

Lemma create_from_blockrecords_stores_under_hash_witness :
  let m := mkVisibleBlocks blocks1_json blocks1_hash in
  let db' := snd (@create_from_blockrecords frozenset_forward (Iterable blocks1) empty_db) in
  @create_from_blockrecords frozenset_forward (Iterable blocks1) empty_db = (Ok m, db')
  /\ exists vb,
       @as_BlockRecordSet frozenset_forward (Iterable blocks1) = Ok vb
       /\ to_hash vb = Ok (hashed m)
       /\ visibleblocks db' !! hashed m = Some (blocks_json m)
       /\ store_extends empty_db db'
       /\ (forall h', h' <> hashed m -> visibleblocks db' !! h' = visibleblocks empty_db !! h')
       /\ grades db' = grades empty_db
       /\ (visibleblocks empty_db !! hashed m = None -> to_json vb = Ok (blocks_json m))
       /\ (store_ok empty_db -> store_ok db').
Proof.
  intros m db'.
  assert (@create_from_blockrecords frozenset_forward (Iterable blocks1) empty_db
          = (Ok m, db')) as Hc by by_compute.
  split; [exact Hc|].
  exact (@create_from_blockrecords_stores_under_hash frozenset_forward
           (Iterable blocks1) empty_db m db' Hc).
Defined.



Lemma create_keeps_consistent_witness :
  let r := fst (@create frozenset_forward declared_validators kw_first empty_db) in
  let db' := snd (@create frozenset_forward declared_validators kw_first empty_db) in
  consistent empty_db
  /\ @create frozenset_forward declared_validators kw_first empty_db = (r, db')
  /\ consistent db' /\ store_extends empty_db db'
  /\ (grades db' = grades empty_db /\ next_pk db' = next_pk empty_db
      \/ exists g, r = Ok g /\ grades db' = grades empty_db ++ [g]
           /\ pk g = Some (next_pk empty_db) /\ next_pk db' = next_pk empty_db + 1).
Proof.
  intros r db'.
  assert (@create frozenset_forward declared_validators kw_first empty_db = (r, db')) as Hc
    by by_compute.
  split; [exact consistent_empty_db|]. split; [exact Hc|].
  exact (@create_keeps_consistent frozenset_forward declared_validators
           kw_first empty_db r db' consistent_empty_db Hc).
Defined.

Lemma update_keeps_consistent_witness :
  let r := fst (@update frozenset_forward kw_second one_row_db) in
  let db' := snd (@update frozenset_forward kw_second one_row_db) in
  consistent one_row_db
  /\ @update frozenset_forward kw_second one_row_db = (r, db')
  /\ consistent db' /\ store_extends one_row_db db'
  /\ map pk (grades db') = map pk (grades one_row_db)
  /\ map (fun g => (user_id g, course_id g, usage_key g)) (grades db')
     = map (fun g => (user_id g, course_id g, usage_key g)) (grades one_row_db)
  /\ next_pk db' = next_pk one_row_db.
Proof.
  intros r db'.
  assert (@update frozenset_forward kw_second one_row_db = (r, db')) as Hu by by_compute.
  split; [exact consistent_one_row_db|]. split; [exact Hu|].
  exact (@update_keeps_consistent frozenset_forward kw_second one_row_db r db'
           consistent_one_row_db Hu).
Defined.

Lemma save_grade_keeps_consistent_witness :
  let r := fst (@save_grade frozenset_forward declared_validators kw_first empty_db) in
  let db' := snd (@save_grade frozenset_forward declared_validators kw_first empty_db) in
  consistent empty_db
  /\ @save_grade frozenset_forward declared_validators kw_first empty_db = (r, db')
  /\ consistent db' /\ store_extends empty_db db'
  /\ exists tl, map pk (grades db') = map pk (grades empty_db) ++ tl.
Proof.
  intros r db'.
  assert (@save_grade frozenset_forward declared_validators kw_first empty_db = (r, db'))
    as Hs by by_compute.
  split; [exact consistent_empty_db|]. split; [exact Hs|].
  exact (@save_grade_keeps_consistent frozenset_forward declared_validators
           kw_first empty_db r db' consistent_empty_db Hs).
Defined.

Lemma read_returns_the_row_or_DoesNotExist_witness :
  consistent one_row_db
  /\ ((exists g, read 42 seq1 one_row_db = (Ok g, one_row_db)
         /\ g ∈ grades one_row_db /\ user_id g = 42 /\ usage_key g = seq1
         /\ forall g', g' ∈ grades one_row_db -> user_id g' = 42 -> usage_key g' = seq1 ->
              g' = g)
      \/ (read 42 seq1 one_row_db = (Raise DoesNotExist, one_row_db)
          /\ forall g, g ∈ grades one_row_db -> ~ (user_id g = 42 /\ usage_key g = seq1))).
Proof.
  split; [exact consistent_one_row_db|].
  exact (read_returns_the_row_or_DoesNotExist 42 seq1 one_row_db consistent_one_row_db).
Defined.

Lemma read_after_create_witness :
  let g := new_grade kw_first blocks1_hash (Some 1) in
  let db' := snd (@create frozenset_forward declared_validators kw_first empty_db) in
  consistent empty_db
  /\ @create frozenset_forward declared_validators kw_first empty_db = (Ok g, db')
  /\ read (kw_user_id kw_first) (kw_usage_key kw_first) db' = (Ok g, db')
  /\ (exists vb h,
        @as_BlockRecordSet frozenset_forward (kw_visible_blocks kw_first) = Ok vb
        /\ to_hash vb = Ok h
        /\ g = new_grade kw_first h (Some (next_pk empty_db))
        /\ is_Some (visibleblocks db' !! h))
  /\ read (kw_user_id kw_first) (kw_usage_key kw_first) empty_db
     = (Raise DoesNotExist, empty_db)
  /\ (forall u k, (u, k) <> (kw_user_id kw_first, kw_usage_key kw_first) ->
        read u k db' = (fst (read u k empty_db), db')).
Proof.
  intros g db'.
  assert (@create frozenset_forward declared_validators kw_first empty_db = (Ok g, db'))
    as Hc by by_compute.
  split; [exact consistent_empty_db|]. split; [exact Hc|].
  exact (@read_after_create frozenset_forward declared_validators
           kw_first empty_db g db' consistent_empty_db Hc).
Defined.

Lemma update_replaces_one_row_witness :
  let db' := snd (@update frozenset_forward kw_second one_row_db) in
  consistent one_row_db
  /\ @update frozenset_forward kw_second one_row_db = (Ok tt, db')
  /\ exists g0 vb h,
       read (kw_user_id kw_second) (kw_usage_key kw_second) one_row_db = (Ok g0, one_row_db)
       /\ @as_BlockRecordSet frozenset_forward (kw_visible_blocks kw_second) = Ok vb
       /\ to_hash vb = Ok h
       /\ read (kw_user_id kw_second) (kw_usage_key kw_second) db'
          = (Ok (mkGrade (pk g0) (user_id g0) (course_id g0) (usage_key g0)
                   (kw_subtree_edited_date kw_second) (kw_course_version kw_second)
                   (kw_earned_all kw_second) (kw_possible_all kw_second)
                   (kw_earned_graded kw_second) (kw_possible_graded kw_second) h), db')
       /\ is_Some (visibleblocks db' !! h)
       /\ length (grades db') = length (grades one_row_db)
       /\ (forall u k, (u, k) <> (kw_user_id kw_second, kw_usage_key kw_second) ->
             read u k db' = (fst (read u k one_row_db), db')).
Proof.
  intros db'.
  assert (@update frozenset_forward kw_second one_row_db = (Ok tt, db')) as Hu by by_compute.
  split; [exact consistent_one_row_db|]. split; [exact Hu|].
  exact (@update_replaces_one_row frozenset_forward kw_second one_row_db db'
           consistent_one_row_db Hu).
Defined.


Lemma create_conflict_fails_validation_witness :
  let vb := mkBlockRecordSet blocks1 in
  @as_BlockRecordSet frozenset_forward (kw_visible_blocks kw_first) = Ok vb
  /\ to_hash vb = Ok blocks1_hash
  /\ conflicts blocks1_hash raced_db
  /\ exists j db',
       to_json vb = Ok j
       /\ @create frozenset_forward declared_validators kw_first raced_db
          = (Raise ValidationError, db')
       /\ journal db' = journal raced_db ++ [GetOrCreate blocks1_hash j]
       /\ grades db' = grades raced_db
       /\ visibleblocks db' = visibleblocks raced_db
       /\ next_pk db' = next_pk raced_db.
Proof.
  intros vb.
  assert (@as_BlockRecordSet frozenset_forward (kw_visible_blocks kw_first) = Ok vb) as Hvb
    by by_compute.
  assert (to_hash vb = Ok blocks1_hash) as Hh by by_compute.
  assert (conflicts blocks1_hash raced_db) as Hc.
  { split; [by_compute|]. cbn. apply elem_of_singleton. reflexivity. }
  repeat (split; [assumption|]).
  exact (@create_conflict_fails_validation frozenset_forward declared_validators
           kw_first raced_db vb blocks1_hash Hvb Hh Hc).
Defined.

Lemma stored_hash_is_of_a_returned_row_witness :
  let vb := mkBlockRecordSet blocks1 in
  let g1 := new_grade kw_first blocks1_hash (Some 1) in
  let d1 := snd (@create frozenset_forward declared_validators kw_first empty_db) in
  let d2 := snd (@update frozenset_forward kw_second one_row_db) in
  @as_BlockRecordSet frozenset_forward (kw_visible_blocks kw_first) = Ok vb
  /\ (@create frozenset_forward declared_validators kw_first empty_db = (Ok g1, d1)
      /\ exists m db1,
           @create_from_blockrecords frozenset_forward (ASet vb) empty_db = (Ok m, db1)
           /\ visible_blocks_id g1 = hashed m
           /\ visibleblocks d1 !! hashed m = Some (blocks_json m))
  /\ (@update frozenset_forward kw_second one_row_db = (Ok tt, d2)
      /\ exists m db1 g,
           @create_from_blockrecords frozenset_forward (ASet vb) one_row_db = (Ok m, db1)
           /\ g ∈ grades d2
           /\ user_id g = kw_user_id kw_second /\ usage_key g = kw_usage_key kw_second
           /\ visible_blocks_id g = hashed m
           /\ visibleblocks d2 !! hashed m = Some (blocks_json m)).
Proof.
  intros vb g1 d1 d2.
  assert (@as_BlockRecordSet frozenset_forward (kw_visible_blocks kw_first) = Ok vb) as Hvb
    by by_compute.
  assert (@create frozenset_forward declared_validators kw_first empty_db = (Ok g1, d1))
    as Hc by by_compute.
  assert (@update frozenset_forward kw_second one_row_db = (Ok tt, d2)) as Hu by by_compute.
  split; [exact Hvb|]. split; (split; [assumption|]).
  - exact (proj1 (@stored_hash_is_of_a_returned_row frozenset_forward declared_validators
                    kw_first empty_db vb Hvb) g1 d1 Hc).
  - exact (proj2 (@stored_hash_is_of_a_returned_row frozenset_forward declared_validators
                    kw_second one_row_db vb Hvb) d2 Hu).
Defined.


Lemma failure_leaves_the_grades_witness :
  let db' := snd (@create frozenset_forward declared_validators kw_blank empty_db) in
  (@create frozenset_forward declared_validators kw_blank empty_db
     = (Raise ValidationError, db')
   \/ @update frozenset_forward kw_blank empty_db = (Raise ValidationError, db')
   \/ @save_grade frozenset_forward declared_validators kw_blank empty_db
      = (Raise ValidationError, db'))
  /\ grades db' = grades empty_db /\ next_pk db' = next_pk empty_db
  /\ store_extends empty_db db'.
Proof.
  intros db'.
  assert (@create frozenset_forward declared_validators kw_blank empty_db
          = (Raise ValidationError, db')) as Hc by by_compute.
  split; [left; exact Hc|].
  exact (@failure_leaves_the_grades frozenset_forward declared_validators
           kw_blank empty_db ValidationError db' (or_introl Hc)).
Defined.

Lemma failed_create_keeps_the_blocks_row_witness :
  let vb := mkBlockRecordSet blocks1 in
  let db' := snd (@create frozenset_forward declared_validators kw_blank empty_db) in
  @as_BlockRecordSet frozenset_forward (kw_visible_blocks kw_blank) = Ok vb
  /\ to_json vb = Ok blocks1_json /\ to_hash vb = Ok blocks1_hash
  /\ visibleblocks empty_db !! blocks1_hash = None
  /\ (blocks1_hash ∉ visibleblocks_unseen empty_db)
  /\ @create frozenset_forward declared_validators kw_blank empty_db
     = (Raise ValidationError, db')
  /\ visibleblocks db' = <[blocks1_hash := blocks1_json]> (visibleblocks empty_db)
  /\ grades db' = grades empty_db
  /\ (ValidationError = ValidationError \/ ValidationError = IntegrityError).
Proof.
  intros vb db'.
  assert (@as_BlockRecordSet frozenset_forward (kw_visible_blocks kw_blank) = Ok vb) as Hvb
    by by_compute.
  assert (to_json vb = Ok blocks1_json) as Hj by by_compute.
  assert (to_hash vb = Ok blocks1_hash) as Hh by by_compute.
  assert (visibleblocks empty_db !! blocks1_hash = None) as Hv by by_compute.
  assert (blocks1_hash ∉ visibleblocks_unseen empty_db) as Hu.
  { cbn. apply not_elem_of_empty. }
  assert (@create frozenset_forward declared_validators kw_blank empty_db
          = (Raise ValidationError, db')) as Hc by by_compute.
  repeat (split; [assumption|]).
  exact (@failed_create_keeps_the_blocks_row frozenset_forward declared_validators
           kw_blank empty_db vb blocks1_hash blocks1_json ValidationError db'
           Hvb Hj Hh Hv Hu Hc).
Defined.

Lemma malformed_blocks_witness :
  (* a member without a locator, and a grade row *)
  ((exists vb, @as_BlockRecordSet frozenset_forward (kw_visible_blocks kw_tuple) = Ok vb
      /\ to_json vb = Raise AttributeError)
   /\ @create frozenset_forward declared_validators kw_tuple one_row_db
      = (Raise AttributeError, one_row_db)
   /\ @save_grade frozenset_forward declared_validators kw_tuple one_row_db
      = (Raise AttributeError, one_row_db)
   /\ @update frozenset_forward kw_tuple one_row_db = (Raise AttributeError, one_row_db))
  (* a member that is not hashable, and no grade row *)
  /\ (@as_BlockRecordSet frozenset_forward (kw_visible_blocks kw_dict) = Raise TypeError
      /\ @create frozenset_forward declared_validators kw_dict empty_db
         = (Raise TypeError, empty_db)
      /\ @save_grade frozenset_forward declared_validators kw_dict empty_db
         = (Raise TypeError, empty_db)
      /\ @update frozenset_forward kw_dict empty_db = (Raise DoesNotExist, empty_db)).
Proof.
  assert (exists vb, @as_BlockRecordSet frozenset_forward (kw_visible_blocks kw_tuple) = Ok vb
            /\ to_json vb = Raise AttributeError) as H1.
  { exists (mkBlockRecordSet [PyTuple [1; 2]]). split; by_compute. }
  assert (@as_BlockRecordSet frozenset_forward (kw_visible_blocks kw_dict) = Raise TypeError)
    as H2 by by_compute.
  split; (split; [assumption|]).
  - exact (proj2 (@malformed_blocks_raise_before_any_write frozenset_forward
                    declared_validators kw_tuple one_row_db AttributeError (or_intror H1))).
  - exact (proj2 (@malformed_blocks_raise_before_any_write frozenset_forward
                    declared_validators kw_dict empty_db TypeError (or_introl H2))).
Defined.

Lemma unicode_identifies_the_row_witness :
  let m1 := mkVisibleBlocks blocks1_json blocks1_hash in
  let m2 := mkVisibleBlocks (blocks_json m1) (hashed m1) in
  String.length (hashed m1) = String.length (hashed m2)
  /\ __unicode__ m1 = __unicode__ m2
  /\ m1 = m2.
Proof.
  intros m1 m2.
  assert (String.length (hashed m1) = String.length (hashed m2)) as Hl by reflexivity.
  assert (__unicode__ m1 = __unicode__ m2) as Hu by reflexivity.
  split; [exact Hl|]. split; [exact Hu|].
  exact (unicode_identifies_the_row m1 m2 Hl Hu).
Defined.

Lemma equal_blocks_share_one_row_witness :
  let vb := mkBlockRecordSet blocks1 in
  let g1 := new_grade kw_first blocks1_hash (Some 1) in
  let db1 := snd (@create frozenset_forward declared_validators kw_first empty_db) in
  let r := fst (@create frozenset_forward declared_validators kw_other db1) in
  let db2 := snd (@create frozenset_forward declared_validators kw_other db1) in
  @as_BlockRecordSet frozenset_forward (kw_visible_blocks kw_first) = Ok vb
  /\ @as_BlockRecordSet frozenset_forward (kw_visible_blocks kw_other) = Ok vb
  /\ to_hash vb = Ok blocks1_hash
  /\ @create frozenset_forward declared_validators kw_first empty_db = (Ok g1, db1)
  /\ @create frozenset_forward declared_validators kw_other db1 = (r, db2)
  /\ r = Ok (new_grade kw_other blocks1_hash (Some 2))
  /\ visibleblocks db2 = visibleblocks db1
  /\ is_Some (visibleblocks db1 !! blocks1_hash)
  /\ visible_blocks_id g1 = blocks1_hash
  /\ forall g2, r = Ok g2 -> visible_blocks_id g2 = blocks1_hash.
Proof.
  intros vb g1 db1 r db2.
  assert (@as_BlockRecordSet frozenset_forward (kw_visible_blocks kw_first) = Ok vb) as Hvb1
    by by_compute.
  assert (@as_BlockRecordSet frozenset_forward (kw_visible_blocks kw_other) = Ok vb) as Hvb2
    by by_compute.
  assert (to_hash vb = Ok blocks1_hash) as Hh by by_compute.
  assert (@create frozenset_forward declared_validators kw_first empty_db = (Ok g1, db1))
    as Hc1 by by_compute.
  assert (@create frozenset_forward declared_validators kw_other db1 = (r, db2))
    as Hc2 by by_compute.
  assert (r = Ok (new_grade kw_other blocks1_hash (Some 2))) as Hr by by_compute.
  repeat (split; [assumption|]).
  exact (@equal_blocks_share_one_row frozenset_forward declared_validators
           kw_first kw_other empty_db db1 db2 g1 r vb vb blocks1_hash
           Hvb1 Hvb2 Hh Hh Hc1 Hc2).
Defined.
